(** * sloplint: the rule engine, embedded and verified

    A shallow embedding of the TypeScript sources of sloplint

      - [src/languages.ts]            the language registry,
      - [src/rules/comments.ts]       the suppression filter and the comment
                                      classifier (both revisions that the
                                      repository carries),
      - [src/rules/error-handling.ts] the structural rules,
      - [src/rules/index.ts]          [rulesForLanguage],
      - [src/scanner.ts]              [scanSource] and [makeDiagnostic],
      - [src/formatter.ts]            [formatDiagnostics],
      - [src/cli.ts]                  [walkDir], [collectFiles] and [main],

    followed by the properties of the specification that are settled on it.

    JavaScript strings are sequences of UTF-16 code units; regular
    expressions are embedded as syntax trees and run by a backtracking
    matcher that decides what [RegExp.prototype.test] decides.  The syntax
    tree engine (ast-grep) is external to the repository: its parser and its
    pattern matcher are a type class, its node abstraction is a rose tree. *)

From Stdlib Require Import List String Ascii NArith Bool Arith Lia.
From Stdlib Require Import DecimalString.
Import ListNotations.

Local Open Scope string_scope.
Local Open Scope N_scope.
Local Open Scope list_scope.

(* ================================================================== *)
(** * JavaScript strings *)
(* ================================================================== *)

(** A code unit of a JavaScript string. *)
Definition char := N.

Definition jsstring := list char.

(** The code units of an ASCII literal. *)
Definition js (s : string) : jsstring :=
  map N_of_ascii (list_ascii_of_string s).

(** ECMAScript [WhiteSpace] and [LineTerminator]: what [\s] matches and what
    [String.prototype.trim] strips. *)
Definition isSpace (c : char) : bool :=
  (9 <=? c) && (c <=? 13)
  || (c =? 32) || (c =? 160) || (c =? 5760)
  || (8192 <=? c) && (c <=? 8202)
  || (c =? 8232) || (c =? 8233) || (c =? 8239) || (c =? 8287)
  || (c =? 12288) || (c =? 65279).

Definition isDigit (c : char) : bool := (48 <=? c) && (c <=? 57).

Definition isUpper (c : char) : bool := (65 <=? c) && (c <=? 90).

Definition isLower (c : char) : bool := (97 <=? c) && (c <=? 122).

(** [\w] without the unicode flag: [[A-Za-z0-9_]]. *)
Definition isWord (c : char) : bool :=
  isUpper c || isLower c || isDigit c || (c =? 95).

(** Canonicalisation of a code unit under the [i] flag (no [u] flag).  The
    patterns of the program contain ASCII characters and U+2026 only; for
    those, a code unit matches exactly when it is equal after ASCII
    upper-casing, since a non-ASCII code unit never canonicalises to an
    ASCII one. *)
Definition canonicalize (c : char) : char :=
  if isLower c then c - 32 else c.

Fixpoint dropWhile (p : char -> bool) (s : jsstring) : jsstring :=
  match s with
  | [] => []
  | c :: s' => if p c then dropWhile p s' else s
  end.

Definition trimStart (s : jsstring) : jsstring := dropWhile isSpace s.

Definition trimEnd (s : jsstring) : jsstring :=
  rev (dropWhile isSpace (rev s)).

(** [String.prototype.trim]. *)
Definition trim (s : jsstring) : jsstring := trimEnd (trimStart s).

(** [String.prototype.split] with a separator of one code unit; the result
    is never empty. *)
Fixpoint split (sep : char) (s : jsstring) : list jsstring :=
  match s with
  | [] => [[]]
  | c :: s' =>
      if c =? sep then [] :: split sep s'
      else match split sep s' with
           | [] => [[c]]
           | piece :: pieces => (c :: piece) :: pieces
           end
  end.

Definition newline : char := 10.

(* ================================================================== *)
(** * Regular expressions *)
(* ================================================================== *)

(** Atoms that consume one code unit. *)
Inductive cset : Type :=
| CChar (c : char)          (* a pattern character, no [i] flag *)
| CCharI (c : char)         (* a pattern character under the [i] flag *)
| CSet (cs : list char)     (* [[...]] *)
| CDigit                    (* [\d] *)
| CSpace                    (* [\s] *)
| CWord.                    (* [\w] *)

Definition in_cset (cs : cset) (x : char) : bool :=
  match cs with
  | CChar c => x =? c
  | CCharI c => canonicalize x =? canonicalize c
  | CSet l => existsb (N.eqb x) l
  | CDigit => isDigit x
  | CSpace => isSpace x
  | CWord => isWord x
  end.

Inductive regex : Type :=
| Eps
| Sym (cs : cset)
| Bol                        (* [^], no [m] flag *)
| WordB                      (* [\b] *)
| Cat (r1 r2 : regex)
| Alt (r1 r2 : regex)
| Star (r : regex).

Declare Scope re_scope.
Delimit Scope re_scope with re.
Bind Scope re_scope with regex.
Notation "a ;; b" := (Cat a b) (at level 61, right associativity) : re_scope.
Notation "a <|> b" := (Alt a b) (at level 62, right associativity) : re_scope.

(** Quantifiers other than [*], as the regular expressions they abbreviate. *)
Definition Opt (r : regex) : regex := Alt r Eps.

Definition Plus (r : regex) : regex := Cat r (Star r).

Fixpoint Times (n : nat) (r : regex) : regex :=
  match n with
  | O => Eps
  | S n' => Cat r (Times n' r)
  end.

(** [r{n,}] *)
Definition AtLeast (n : nat) (r : regex) : regex := Cat (Times n r) (Star r).

(** At most [n] repetitions. *)
Fixpoint UpTo (n : nat) (r : regex) : regex :=
  match n with
  | O => Eps
  | S n' => Opt (Cat r (UpTo n' r))
  end.

(** [r{lo,hi}] *)
Definition Between (lo hi : nat) (r : regex) : regex :=
  Cat (Times lo r) (UpTo (hi - lo) r).

Fixpoint alts (rs : list regex) : regex :=
  match rs with
  | [] => Sym (CSet [])   (* the empty language; every group has a member *)
  | [r] => r
  | r :: rs' => Alt r (alts rs')
  end.

Fixpoint seqOf (mk : char -> cset) (s : jsstring) : regex :=
  match s with
  | [] => Eps
  | [c] => Sym (mk c)
  | c :: s' => Cat (Sym (mk c)) (seqOf mk s')
  end.

(** A run of pattern characters, without and with the [i] flag. *)
Definition lit (s : string) : regex := seqOf CChar (js s).

Definition liti (s : string) : regex := seqOf CCharI (js s).

Definition words (ws : list string) : regex := alts (map liti ws).

(** A position of the matcher: the code unit before it, if any, and the
    input that is left. *)
Definition cont := option char -> jsstring -> bool.

Definition isWordAt (o : option char) : bool :=
  match o with
  | Some c => isWord c
  | None => false
  end.

(** Greedy iteration.  An iteration that consumes nothing is rejected, as in
    ECMAScript's RepeatMatcher, so the input length bounds the iterations. *)
Fixpoint starLoop (body : option char -> jsstring -> cont -> bool) (k : cont)
    (fuel : nat) (prev : option char) (s : jsstring) : bool :=
  match fuel with
  | O => k prev s
  | S fuel' =>
      if body prev s
           (fun prev' s' =>
              if (List.length s' <? List.length s)%nat
              then starLoop body k fuel' prev' s'
              else false)
      then true
      else k prev s
  end.

(** The backtracking matcher, in continuation-passing style: [matchRe r prev
    s k] holds when [r] matches a prefix of [s] after which [k] succeeds. *)
Fixpoint matchRe (r : regex) (prev : option char) (s : jsstring) (k : cont)
    : bool :=
  match r with
  | Eps => k prev s
  | Sym cs =>
      match s with
      | [] => false
      | c :: s' => if in_cset cs c then k (Some c) s' else false
      end
  | Bol =>
      match prev with
      | None => k prev s
      | Some _ => false
      end
  | WordB =>
      if xorb (isWordAt prev) (isWordAt (hd_error s)) then k prev s
      else false
  | Cat r1 r2 => matchRe r1 prev s (fun prev' s' => matchRe r2 prev' s' k)
  | Alt r1 r2 => if matchRe r1 prev s k then true else matchRe r2 prev s k
  | Star r1 => starLoop (matchRe r1) k (List.length s) prev s
  end.

Definition accept : cont := fun _ _ => true.

(** The search of [RegExp.prototype.test] for a pattern without the [g] and
    [y] flags: every start index from the current one on. *)
Fixpoint searchFrom (r : regex) (prev : option char) (s : jsstring) : bool :=
  if matchRe r prev s accept then true
  else match s with
       | [] => false
       | c :: s' => searchFrom r (Some c) s'
       end.

Definition test (r : regex) (s : jsstring) : bool := searchFrom r None s.

(* ================================================================== *)
(** * The node abstraction of the syntax-tree engine *)
(* ================================================================== *)

Module Pos.
Record t : Type := mk { line : N; column : N; index : N }.
End Pos.

Module Range.
Record t : Type := mk { start : Pos.t; end_ : Pos.t }.
End Range.

(** An [SgNode]: its kind, whether it is a named node, the field of its
    parent it fills (if any), its source text, its range and its children,
    anonymous tokens included. *)
#[warnings="-register-all"]
Inductive SgNode : Type :=
| Node (kind : string) (isNamed : bool) (fieldName : option string)
       (text : jsstring) (range : Range.t) (children : list SgNode).

Definition kind (n : SgNode) : string :=
  match n with Node k _ _ _ _ _ => k end.

Definition isNamed (n : SgNode) : bool :=
  match n with Node _ b _ _ _ _ => b end.

Definition fieldName (n : SgNode) : option string :=
  match n with Node _ _ f _ _ _ => f end.

Definition text (n : SgNode) : jsstring :=
  match n with Node _ _ _ t _ _ => t end.

Definition range (n : SgNode) : Range.t :=
  match n with Node _ _ _ _ r _ => r end.

Definition children (n : SgNode) : list SgNode :=
  match n with Node _ _ _ _ _ cs => cs end.

Definition hasField (name : string) (n : SgNode) : bool :=
  match fieldName n with
  | Some f => String.eqb f name
  | None => false
  end.

(** [node.field(name)] *)
Definition field (name : string) (n : SgNode) : option SgNode :=
  find (hasField name) (children n).

(** The pre-order walk that [findAll] filters: the node itself, then each
    child's subtree from left to right. *)
Fixpoint dfs (n : SgNode) : list SgNode :=
  match n with
  | Node _ _ _ _ _ cs => n :: flat_map dfs cs
  end.

(** What a rule object [{ rule: { kind } }] selects.  The engine resolves
    the name of the kind to the symbol of the named node of that name, and
    a node matches when its symbol is that one: an anonymous token that
    has the name of a named node, as the keyword [rescue] of Ruby has, is
    not selected. *)
Definition hasKind (k : string) (n : SgNode) : bool :=
  isNamed n && String.eqb (kind n) k.

(** What [findAll] is given: a rule object [{ rule: { kind } }] or a pattern
    string. *)
Inductive Matcher : Type :=
| KindRule (kind : string)
| Pattern (source : string).

(** The two services of the engine that the program calls and that are not
    a matter of tree shape: [parse(lang, source).root()] and the matching of
    one node against a code pattern. *)
Class AstGrep : Type := {
  parse : string -> jsstring -> SgNode;
  matchesPattern : string -> SgNode -> bool
}.

Definition matchNode `{AstGrep} (m : Matcher) (n : SgNode) : bool :=
  match m with
  | KindRule k => hasKind k n
  | Pattern p => matchesPattern p n
  end.

(** [node.findAll(matcher)] *)
Definition findAll `{AstGrep} (m : Matcher) (n : SgNode) : list SgNode :=
  filter (matchNode m) (dfs n).

(** [array.includes(x)] on an array of strings. *)
Definition includes (l : list string) (x : string) : bool :=
  existsb (String.eqb x) l.

(* ================================================================== *)
(** * src/languages.ts *)
(* ================================================================== *)

Module LanguageConfig.
Record t : Type := mk {
  lang : string;
  commentKinds : list string;
  extensions : list string;
  toolDirectives : regex
}.
End LanguageConfig.

Module Lang.
(** The enumeration of the built-in grammars of [@ast-grep/napi]. *)
Definition TypeScript : string := "TypeScript".
Definition JavaScript : string := "JavaScript".
End Lang.

Definition typescript : LanguageConfig.t :=
  LanguageConfig.mk Lang.TypeScript ["comment"]
    ["ts"; "tsx"; "mts"; "cts"]
    (words ["eslint"; "prettier"; "@ts-"; "istanbul"; "c8"; "vitest"; "jest";
            "biome"; "oxlint"]).

Definition javascript : LanguageConfig.t :=
  LanguageConfig.mk Lang.JavaScript ["comment"]
    ["js"; "jsx"; "mjs"; "cjs"]
    (words ["eslint"; "prettier"; "istanbul"; "c8"; "vitest"; "jest";
            "webpack"; "biome"; "oxlint"]).

Definition python : LanguageConfig.t :=
  LanguageConfig.mk "python" ["comment"] ["py"; "pyi"]
    (alts [liti "noqa";
           (liti "type:" ;; Star (Sym CSpace) ;; liti "ignore")%re;
           liti "pylint"; liti "mypy"; liti "pyright"; liti "ruff";
           liti "fmt"; liti "isort"]).

Definition go : LanguageConfig.t :=
  LanguageConfig.mk "go" ["comment"] ["go"]
    (words ["nolint"; "go:generate"; "go:build"; "go:embed"; "gofmt";
            "govet"]).

Definition rust : LanguageConfig.t :=
  LanguageConfig.mk "rust" ["line_comment"; "block_comment"]
    ["rs"]
    (alts (map lit ["clippy"; "allow"; "deny"; "forbid"; "expect"; "cfg";
                    "rustfmt"; "SAFETY"; "safety"])).

Definition c : LanguageConfig.t :=
  LanguageConfig.mk "c" ["comment"] ["c"; "h"]
    (words ["NOLINT"; "NOLINTNEXTLINE"; "clang-format"; "IWYU"; "pragma"]).

Definition cpp : LanguageConfig.t :=
  LanguageConfig.mk "cpp" ["comment"]
    ["cpp"; "cc"; "cxx"; "hpp"; "hh"; "hxx"]
    (words ["NOLINT"; "NOLINTNEXTLINE"; "clang-format"; "IWYU"; "pragma"]).

Definition java : LanguageConfig.t :=
  LanguageConfig.mk "java" ["line_comment"; "block_comment"]
    ["java"]
    (words ["checkstyle"; "SuppressWarnings"; "PMD"; "SpotBugs"; "NOSONAR";
            "noinspection"]).

(** Present in the bundled build of the program only. *)
Definition ruby : LanguageConfig.t :=
  LanguageConfig.mk "ruby" ["comment"] ["rb"; "rake"]
    (words ["rubocop"; "sorbet"; "sig"; "steep"; "yard"; ":nocov:";
            "frozen_string_literal"]).

(** The registry of [src/languages.ts], in the order of its keys. *)
Definition LANGUAGES : list (string * LanguageConfig.t) :=
  [("typescript", typescript); ("javascript", javascript);
   ("python", python); ("go", go); ("rust", rust); ("c", c); ("cpp", cpp);
   ("java", java)].

(** The registry of the bundled build: the same, and Ruby. *)
Definition LANGUAGES_bundle : list (string * LanguageConfig.t) :=
  LANGUAGES ++ [("ruby", ruby)].

(** [Object.values(LANGUAGES).find((l) => l.extensions.includes(ext))] *)
Definition languageForExtension (ext : string) : option LanguageConfig.t :=
  find (fun l => includes (LanguageConfig.extensions l) ext)
       (map snd LANGUAGES).

(* ================================================================== *)
(** * src/rules/index.ts: the record types *)
(* ================================================================== *)

Module Diagnostic.
Record t : Type := mk {
  rule : string;
  message : string;
  note : option string;
  file : string;
  line : N;
  column : N;
  text : jsstring
}.
End Diagnostic.

Module Rule.
(** [check] answers [this] or [null]; since the rule it answers is always
    the receiver, the embedding answers a boolean and the scanner hands
    the receiver on. *)
Record t : Type := mk {
  id : string;
  message : string;
  note : option string;
  languages : option (list string);
  check : SgNode -> LanguageConfig.t -> bool
}.
End Rule.

(* ================================================================== *)
(** * src/rules/comments.ts: the patterns *)
(* ================================================================== *)

Definition sp : regex := Sym CSpace.

(** [(?:\/\/|#|\/\*\*?)] *)
Definition opener : regex :=
  alts [liti "//"; liti "#"; (liti "/*" ;; Opt (liti "*"))%re].

(** [(?:\/\/|#)], under the [i] flag and without it *)
Definition lineOpener : regex := alts [liti "//"; liti "#"].

Definition lineOpenerCs : regex := alts [lit "//"; lit "#"].

(** [w] followed by an optional [s] *)
Definition plural (w : string) : regex := (liti w ;; Opt (liti "s"))%re.

Definition OBVIOUS_VERBS : regex :=
  (Bol ;; opener ;; Star sp ;;
   alts [liti "initialize"; liti "create";
         liti "set" ;; Opt sp ;; liti "up";
         liti "handle"; liti "process";
         liti "check" ;; sp ;; words ["if"; "whether"];
         liti "validate"; liti "update"; liti "return";
         words ["get"; "gets"; "get the"];
         liti "store"; liti "add"; liti "increment"; liti "decrement";
         liti "define"; liti "declare"; liti "assign"; liti "call";
         liti "invoke";
         liti "loop" ;; sp ;; words ["through"; "over"];
         liti "iterate" ;; sp ;; words ["through"; "over"];
         liti "import"; liti "export"; liti "render"; liti "fetch";
         liti "send"; liti "remove"; liti "delete"; liti "destroy";
         liti "free"; liti "reset"; liti "clear"; liti "toggle";
         liti "convert"; liti "parse"; liti "format"; liti "calculate";
         liti "compute"; liti "extract"; liti "merge"; liti "sort";
         liti "filter"; liti "map"; liti "transform"; liti "append";
         liti "prepend"; liti "push"; liti "pop"; liti "insert";
         liti "set the";
         liti "set" ;; sp ;; Plus (Sym CWord) ;; sp ;; liti "to";
         liti "allocate"; liti "malloc"; liti "realloc"] ;;
   sp)%re.

Definition NARRATOR_PATTERN : regex :=
  (Bol ;; opener ;; Star sp ;; liti "this" ;; Plus sp ;;
   words ["function"; "method"; "class"; "component"; "hook"; "module";
          "handler"; "helper"; "utility"; "service"; "middleware"; "guard";
          "interceptor"; "decorator"; "factory"; "provider"; "controller";
          "resolver"; "validator"; "pipe"; "filter"; "struct"; "enum";
          "trait"; "impl"; "macro"; "typedef"; "interface"] ;;
   Plus sp ;;
   alts [liti "is" ;; Plus sp ;; liti "responsible" ;; Plus sp ;; liti "for";
         liti "is" ;; Plus sp ;; liti "used" ;; Plus sp ;; liti "to";
         liti "will"; liti "handles"; liti "creates"; liti "initializes";
         liti "sets" ;; Plus sp ;; liti "up";
         liti "processes"; liti "validates"; liti "returns"; liti "manages";
         liti "provides"; liti "defines"; liti "takes"; liti "accepts";
         liti "receives"; liti "implements"; liti "extends";
         liti "overrides"; liti "wraps"; liti "delegates";
         liti "dispatches"; liti "emits"; liti "triggers"; liti "invokes";
         liti "calls"; liti "renders"; liti "fetches"; liti "sends";
         liti "removes"; liti "deletes"; liti "frees"; liti "updates";
         liti "checks"; liti "ensures"; liti "converts"; liti "parses";
         liti "formats"; liti "calculates"; liti "computes";
         liti "extracts"; liti "merges"; liti "sorts"; liti "filters";
         liti "maps"; liti "transforms"])%re.

Definition STEP_PATTERN : regex :=
  (Bol ;; opener ;; Star sp ;; liti "step" ;; Plus sp ;; Sym CDigit)%re.

(** U+2026, the one-character ellipsis *)
Definition ellipsis : char := 8230.

Definition PLACEHOLDER_PATTERN : regex :=
  (Bol ;; opener ;; Star sp ;;
   alts [alts [liti "..."; Sym (CCharI ellipsis)] ;; Star sp ;;
           words ["rest of"; "more"; "remaining"; "implementation"; "logic";
                  "code"; "here"; "functionality"; "similarly"; "and so on";
                  "etc"; "as above"];
         words ["omitted"; "truncated"] ;; Plus sp ;; liti "for" ;;
           Plus sp ;; liti "brevity";
         liti "implementation details omitted";
         liti "repeat " ;; words ["for each"; "as needed"];
         liti "handle " ;; words ["other"; "remaining"] ;;
           liti " cases similarly";
         liti "similar for other cases"])%re.

Definition APOLOGETIC_PATTERN : regex :=
  (Bol ;; opener ;; Star sp ;;
   alts [liti "sorry" ;; Opt (liti ",") ;; liti " this is a " ;;
           Opt (liti "quick ") ;; liti "hack";
         words ["quick"; "ugly"; "dirty"; "nasty"] ;; liti " hack";
         words ["quick"; "dirty"; "naive"] ;; liti " solution";
         liti "not the best way but works";
         liti "I know this is bad";
         words ["temporary"; "temp"] ;; liti " " ;;
           words ["fix"; "workaround"; "solution"; "implementation"; "code"];
         words ["fix"; "refactor"; "implement"; "do"; "clean up"] ;;
           liti " " ;; Opt (liti "this ") ;; liti "later";
         words ["good"; "fine"; "okay"; "ok"; "simple"; "works";
                "good enough"] ;; liti " for now";
         liti "simplified " ;; words ["version"; "implementation"; "logic"];
         words ["basic"; "minimal"; "naive"] ;; liti " approach";
         liti "just a placeholder"])%re.

Definition AI_SPECIFIC_PATTERN : regex :=
  (Bol ;; opener ;; Star sp ;;
   alts [liti "As an AI" ;; Opt (liti ",") ;; liti " I cannot";
         liti "I'll leave this for you to " ;;
           words ["implement"; "complete"; "finish"];
         liti "You'll need to add your own";
         liti "Replace this with your " ;; words ["actual"; "real"; "own"] ;;
           liti " implementation";
         liti "Add your " ;; words ["code"; "logic"] ;; liti " here";
         liti "Insert your " ;; words ["logic"; "code"; "handling"] ;;
           liti " here";
         liti "Customize " ;;
           words ["as needed"; "according to your needs"];
         liti "Modify " ;; words ["according to"; "based on"] ;;
           liti " your needs";
         liti "This is a " ;; words ["simplified"; "basic"; "example"] ;;
           liti " " ;; words ["example"; "version"; "implementation"];
         liti "In a real application" ;; Opt (liti ",") ;; liti " you " ;;
           words ["would"; "should"];
         liti "For production" ;; Opt (liti ",") ;; liti " " ;;
           words ["consider"; "make sure to"];
         liti "In practice" ;; Opt (liti ",") ;; liti " you " ;;
           words ["should"; "might want to"];
         liti "This is just a starting point"])%re.

Definition DIVIDER_PATTERNS : list regex :=
  [ (Bol ;; lineOpenerCs ;; Star sp ;;
     AtLeast 3 (Sym (CSet (js "-=~#*"))))%re;
    (Bol ;; lineOpener ;; Star sp ;; Between 1 3 (liti "#") ;; sp)%re;
    (Bol ;; lineOpener ;; Star sp ;; AtLeast 2 (liti "-") ;; Star sp ;;
     alts [plural "helper"; plural "util"; plural "type"; plural "interface";
           plural "constant"; plural "export"; plural "import";
           plural "method"; plural "function"; plural "handler";
           plural "hook"; liti "state"; plural "prop"; plural "style";
           liti "config"; liti "setup"; liti "init"; liti "main";
           liti "private"; liti "public"; liti "api"; plural "route";
           liti "middleware"; liti "validation"; liti "rendering";
           liti "lifecycle"; plural "event"; plural "callback";
           plural "mutation"; plural "action"; plural "getter";
           plural "selector"; plural "reducer"; plural "effect";
           plural "subscription"; liti "impl"; plural "trait";
           plural "struct"; plural "enum"; plural "test"; plural "mod";
           plural "model"; plural "macro"] ;;
     Star sp ;; AtLeast 0 (liti "-"))%re ].

(** The reserved marker tokens. *)
Definition MARKERS : list string :=
  ["TODO"; "FIXME"; "HACK"; "NOTE"; "SAFETY"; "WARN"; "BUG"; "XXX"; "PERF";
   "IMPORTANT"; "LICENSE"; "COPYRIGHT"].

(* ================================================================== *)
(** * src/rules/comments.ts: the suppression filter and the rules *)
(* ================================================================== *)

Definition isComment (node : SgNode) (lang : LanguageConfig.t) : bool :=
  includes (LanguageConfig.commentKinds lang) (kind node).

Definition isToolDirective (text : jsstring) (lang : LanguageConfig.t)
    : bool :=
  test (LanguageConfig.toolDirectives lang) text.

Definition commentText (node : SgNode) : jsstring := trim (text node).

Definition dq : string := String (ascii_of_nat 34) EmptyString.

(** A message that is written with quotation marks, from its pieces. *)
Definition str (pieces : list string) : string := String.concat "" pieces.

(** The two revisions of the file differ in [KEEPER_PATTERN] and in the
    number of rules; what they share is stated once, over the pattern. *)
Section CommentRules.

Variable KEEPER_PATTERN : regex.

Definition shouldKeep (text : jsstring) (lang : LanguageConfig.t) : bool :=
  test KEEPER_PATTERN text || isToolDirective text lang.

(** The body that every comment rule has, up to the pattern it tests. *)
Definition commentCheck (matches : jsstring -> bool)
    (node : SgNode) (lang : LanguageConfig.t) : bool :=
  let text := commentText node in
  if negb (isComment node lang) then false
  else if shouldKeep text lang then false
  else if negb (matches text) then false
  else true.

Definition obviousComment : Rule.t :=
  Rule.mk "obvious-comment"
    "Obvious comment — remove it, the code should speak for itself"
    (Some "Comments should explain WHY or document non-obvious constraints, not restate WHAT. If the code isn't clear, rename variables or extract a well-named function.")
    None
    (commentCheck (test OBVIOUS_VERBS)).

Definition narratorComment : Rule.t :=
  Rule.mk "narrator-comment"
    (str [dq; "This function..."; dq;
          " comment — let the function name and signature tell the story"])
    (Some "A well-named function doesn't need a preamble. If behavior is non-obvious, explain WHY, not WHAT.")
    None
    (commentCheck (test NARRATOR_PATTERN)).

Definition stepComment : Rule.t :=
  Rule.mk "step-comment"
    (str [dq; "Step N:"; dq; " comment — the function is doing too much"])
    (Some "Numbered step comments suggest the function should be split. Extract each step into its own well-named function.")
    None
    (commentCheck (test STEP_PATTERN)).

Definition sectionDivider : Rule.t :=
  Rule.mk "section-divider"
    "Section divider comment — extract into separate modules instead"
    (Some "If your file needs section banners, it's probably too long. Split into separate files or modules.")
    None
    (commentCheck (fun text => existsb (fun p => test p text)
                                       DIVIDER_PATTERNS)).

Definition placeholderComment : Rule.t :=
  Rule.mk "placeholder-comment"
    "Placeholder comment — this code is incomplete"
    (Some (str ["Comments like "; dq; "... rest of the code"; dq; " or ";
                dq; "omitted for brevity"; dq;
                " mean the implementation was never finished."]))
    None
    (commentCheck (test PLACEHOLDER_PATTERN)).

Definition apologeticComment : Rule.t :=
  Rule.mk "apologetic-comment"
    "Apologetic comment — fix the code instead of apologizing for it"
    (Some (str ["Comments admitting "; dq; "this is a hack"; dq; " or ";
                dq; "good enough for now"; dq;
                " are a sign the code needs actual improvement, not an apology."]))
    None
    (commentCheck (test APOLOGETIC_PATTERN)).

Definition aiSpecificComment : Rule.t :=
  Rule.mk "ai-generated-comment"
    "AI-generated placeholder — the AI left a note instead of writing the code"
    (Some "The AI assistant admitted it didn't finish the job. Replace the comment with an actual implementation.")
    None
    (commentCheck (test AI_SPECIFIC_PATTERN)).

End CommentRules.

(** The revision at [src/rules/comments.ts]: the markers under the [i] flag
    and unbounded, four rules. *)
Module comments_ts.

Definition KEEPER_PATTERN : regex := words MARKERS.

Definition commentRules : list Rule.t :=
  [obviousComment KEEPER_PATTERN;
   narratorComment KEEPER_PATTERN;
   stepComment KEEPER_PATTERN;
   sectionDivider KEEPER_PATTERN].

End comments_ts.

(** The revision that the bundled build is made from: the markers
    case-sensitive between word boundaries, seven rules. *)
Module comments_rev.

Definition KEEPER_PATTERN : regex :=
  alts (map (fun w => (WordB ;; lit w ;; WordB)%re) MARKERS).

Definition commentRules : list Rule.t :=
  [obviousComment KEEPER_PATTERN;
   narratorComment KEEPER_PATTERN;
   stepComment KEEPER_PATTERN;
   sectionDivider KEEPER_PATTERN;
   placeholderComment KEEPER_PATTERN;
   apologeticComment KEEPER_PATTERN;
   aiSpecificComment KEEPER_PATTERN].

End comments_rev.

(* ================================================================== *)
(** * src/rules/error-handling.ts *)
(* ================================================================== *)

(** [body.children().filter((c) => c.isNamed())] *)
Definition namedChildren (n : SgNode) : list SgNode :=
  filter isNamed (children n).

Definition emptyCatchTS : Rule.t :=
  Rule.mk "empty-error-handler"
    "Empty catch block silently swallows errors"
    (Some "At minimum, log the error or add a comment explaining why it's safe to ignore.")
    (Some ["TypeScript"; "JavaScript"])
    (fun node lang =>
       if negb (String.eqb (kind node) "catch_clause") then false
       else match field "body" node with
            | None => false
            | Some body =>
                let children := namedChildren body in
                if (List.length children =? 0)%nat then true else false
            end).

Definition emptyCatchJava : Rule.t :=
  Rule.mk "empty-error-handler"
    "Empty catch block silently swallows errors"
    (Some "At minimum, log the error or add a comment explaining why it's safe to ignore.")
    (Some ["java"])
    (fun node lang =>
       if negb (String.eqb (kind node) "catch_clause") then false
       else match field "body" node with
            | None => false
            | Some body =>
                let children := namedChildren body in
                if (List.length children =? 0)%nat then true else false
            end).

Definition bareExceptPython : Rule.t :=
  Rule.mk "empty-error-handler"
    "Bare except catches everything including KeyboardInterrupt and SystemExit"
    (Some "Use `except Exception:` to avoid catching system-level exceptions.")
    (Some ["python"])
    (fun node _lang =>
       if negb (String.eqb (kind node) "except_clause") then false
       else
         let children := children node in
         let hasType :=
           existsb (fun c => String.eqb (kind c) "identifier"
                             || String.eqb (kind c) "as_pattern") children in
         if negb hasType then true else false).

Definition passInExceptPython : Rule.t :=
  Rule.mk "silent-exception"
    "Silent exception swallowing — at minimum log the error"
    (Some "AI loves `except Exception: pass` to make code 'robust'. This hides bugs.")
    (Some ["python"])
    (fun node _lang =>
       if negb (String.eqb (kind node) "except_clause") then false
       else match find (fun c => String.eqb (kind c) "block")
                       (children node) with
            | None => false
            | Some body =>
                let stmts := namedChildren body in
                if (List.length stmts =? 1)%nat
                   && match nth_error stmts 0 with
                      | Some s => String.eqb (kind s) "pass_statement"
                      | None => false
                      end
                then true else false
            end).

Definition consoleLogInCatchTS `{AstGrep} : Rule.t :=
  Rule.mk "log-in-error-handler"
    "console.log in catch — use console.error or a proper logger"
    (Some "AI defaults to console.log for everything, even error handling.")
    (Some ["TypeScript"; "JavaScript"])
    (fun node _lang =>
       if negb (String.eqb (kind node) "catch_clause") then false
       else
         let logCalls := findAll (Pattern "console.log($$$ARGS)") node in
         if (0 <? List.length logCalls)%nat then true else false).

(** In the bundled build only. *)
Definition emptyRescueRuby : Rule.t :=
  Rule.mk "empty-error-handler"
    "Empty rescue block silently swallows errors"
    (Some "At minimum, log the error or add a comment explaining why it's safe to ignore.")
    (Some ["ruby"])
    (fun node _lang =>
       if negb (String.eqb (kind node) "rescue") then false
       else match find (fun c => String.eqb (kind c) "then")
                       (children node) with
            | None => true
            | Some then_ =>
                let stmts := namedChildren then_ in
                if (List.length stmts =? 0)%nat then true else false
            end).

(** The table of [src/rules/error-handling.ts]. *)
Definition errorHandlingRules `{AstGrep} : list Rule.t :=
  [emptyCatchTS; emptyCatchJava; bareExceptPython; passInExceptPython;
   consoleLogInCatchTS].

(** The table of the bundled build. *)
Definition errorHandlingRules_bundle `{AstGrep} : list Rule.t :=
  errorHandlingRules ++ [emptyRescueRuby].

(* ================================================================== *)
(** * src/rules/index.ts and src/scanner.ts *)
(* ================================================================== *)

Definition AST_RULE_KINDS : list (string * list string) :=
  [("TypeScript", ["catch_clause"]);
   ("JavaScript", ["catch_clause"]);
   ("java", ["catch_clause"]);
   ("python", ["except_clause"]);
   ("ruby", ["rescue"])].

(** [AST_RULE_KINDS[key] ?? []] *)
Definition astRuleKinds (key : string) : list string :=
  match find (fun entry => String.eqb (fst entry) key) AST_RULE_KINDS with
  | Some entry => snd entry
  | None => []
  end.

(** [array.push(x)] *)
Definition push {A : Type} (l : list A) (x : A) : list A := l ++ [x].

Definition firstLine (t : jsstring) : jsstring :=
  nth 0 (split newline t) [].

Definition makeDiagnostic (rule : Rule.t) (node : SgNode) (filename : string)
    : Diagnostic.t :=
  let range := range node in
  Diagnostic.mk
    (Rule.id rule)
    (Rule.message rule)
    (Rule.note rule)
    filename
    (Pos.line (Range.start range) + 1)
    (Pos.column (Range.start range) + 1)
    (firstLine (text node)).

(** The scanner imports two rule tables; they are parameters here, so that
    what is proved of the scanner holds for every revision of them. *)
Section Scanner.

Context `{AstGrep}.
Variable commentRules : list Rule.t.
Variable errorHandlingRules : list Rule.t.

(** [!r.languages || r.languages.includes(lang.lang)] *)
Definition appliesTo (lang : LanguageConfig.t) (r : Rule.t) : bool :=
  match Rule.languages r with
  | None => true
  | Some ls => includes ls (LanguageConfig.lang lang)
  end.

Definition rulesForLanguage (lang : LanguageConfig.t)
    : list Rule.t * list Rule.t :=
  let comment := commentRules in
  let ast := filter (appliesTo lang) errorHandlingRules in
  (comment, ast).

(** The innermost loop: every rule of [rules] tried on [node], a
    diagnostic pushed for each that answers. *)
Definition checkNode (rules : list Rule.t) (lang : LanguageConfig.t)
    (filename : string) (diagnostics : list Diagnostic.t) (node : SgNode)
    : list Diagnostic.t :=
  fold_left
    (fun diagnostics rule =>
       if Rule.check rule node lang
       then push diagnostics (makeDiagnostic rule node filename)
       else diagnostics)
    rules diagnostics.

(** The two outer loops of a pass: the kinds in their order, the nodes of
    each kind as [findAll] lists them. *)
Definition scanKinds (kinds : list string) (rules : list Rule.t)
    (root : SgNode) (lang : LanguageConfig.t) (filename : string)
    (diagnostics : list Diagnostic.t) : list Diagnostic.t :=
  fold_left
    (fun diagnostics kind =>
       let nodes := findAll (KindRule kind) root in
       fold_left (checkNode rules lang filename) nodes diagnostics)
    kinds diagnostics.

Definition scanSource (source : jsstring) (lang : LanguageConfig.t)
    (filename : string) : list Diagnostic.t :=
  let root := parse (LanguageConfig.lang lang) source in
  let '(commentRules, astRules) := rulesForLanguage lang in
  let diagnostics := [] in
  let diagnostics :=
    scanKinds (LanguageConfig.commentKinds lang) commentRules root lang
              filename diagnostics in
  let diagnostics :=
    if (0 <? List.length astRules)%nat then
      let kinds := astRuleKinds (LanguageConfig.lang lang) in
      scanKinds kinds astRules root lang filename diagnostics
    else diagnostics in
  diagnostics.

End Scanner.

(* ================================================================== *)
(** * The scan, read as a list of visits *)
(* ================================================================== *)

(** What a scan does is stated below in terms of the nodes it visits and of
    the rules that answer on each of them.  These definitions are not in the
    sources; [scanSource] is proved equal to what they describe. *)
Section Visits.

Context `{AstGrep}.
Variable commentRules : list Rule.t.
Variable errorHandlingRules : list Rule.t.

(** The nodes of one pass, in the order in which the pass reaches them:
    kind after kind, and for each kind the named nodes of that kind as the
    pre-order walk of the tree meets them. *)
Definition visits (kinds : list string) (root : SgNode) : list SgNode :=
  flat_map (fun k => filter (hasKind k) (dfs root)) kinds.

(** The rules of [rules] that answer on [node], in the order of the
    table. *)
Definition firing (rules : list Rule.t) (lang : LanguageConfig.t)
    (node : SgNode) : list Rule.t :=
  filter (fun r => Rule.check r node lang) rules.

(** The diagnostics of one visit. *)
Definition block (rules : list Rule.t) (lang : LanguageConfig.t)
    (filename : string) (node : SgNode) : list Diagnostic.t :=
  map (fun r => makeDiagnostic r node filename) (firing rules lang node).

Definition hitsOn (rules : list Rule.t) (lang : LanguageConfig.t)
    (node : SgNode) : list (Rule.t * SgNode) :=
  map (fun r => (r, node)) (firing rules lang node).

Definition astRules (lang : LanguageConfig.t) : list Rule.t :=
  snd (rulesForLanguage commentRules errorHandlingRules lang).

(** Pass A: which rule answered on which comment node. *)
Definition commentHits (source : jsstring) (lang : LanguageConfig.t)
    : list (Rule.t * SgNode) :=
  flat_map (hitsOn commentRules lang)
    (visits (LanguageConfig.commentKinds lang)
            (parse (LanguageConfig.lang lang) source)).

(** Pass B: which structural rule answered on which handler node. *)
Definition astHits (source : jsstring) (lang : LanguageConfig.t)
    : list (Rule.t * SgNode) :=
  flat_map (hitsOn (astRules lang) lang)
    (visits (astRuleKinds (LanguageConfig.lang lang))
            (parse (LanguageConfig.lang lang) source)).

Definition scanHits (source : jsstring) (lang : LanguageConfig.t)
    : list (Rule.t * SgNode) :=
  commentHits source lang ++ astHits source lang.

End Visits.

(** The configurations a scan is run with. *)
Definition registry : list LanguageConfig.t := map snd LANGUAGES_bundle.

Definition commentKindNames : list string :=
  ["comment"; "line_comment"; "block_comment"].

Definition handlerKindNames : list string :=
  ["catch_clause"; "except_clause"; "rescue"].

(* ================================================================== *)
(** * Notions of the specification *)
(* ================================================================== *)

Fixpoint stripPrefix (w s : jsstring) : option jsstring :=
  match w, s with
  | [], _ => Some s
  | _ :: _, [] => None
  | a :: w', b :: s' => if b =? a then stripPrefix w' s' else None
  end.

Definition lastOpt (prev : option char) (w : jsstring) : option char :=
  match rev w with
  | [] => prev
  | c :: _ => Some c
  end.

(** The marker ground of the suppression filter as the specification words
    it: the text contains one of the marker tokens, in capitals as listed,
    and no word character stands right before or right after it. *)
Definition containsMarker (t : jsstring) : Prop :=
  exists w pre post,
    In w MARKERS /\ t = pre ++ js w ++ post
    /\ isWordAt (lastOpt None pre) = false
    /\ isWordAt (hd_error post) = false.

(** Does [w] begin and end with a word character? *)
Definition markerShape (w : string) : bool :=
  match js w with
  | a :: _ => isWord a && isWordAt (lastOpt None (js w))
  | [] => false
  end.

(** The comment delimiters of the registered languages: [//] and [#], the
    doc forms [///] and [//!], and the block forms [/*], [/**] and [/*!]. *)
Definition lineDelimiters : list jsstring :=
  [js "//"; js "#"; js "///"; js "//!"].

Definition blockDelimiters : list jsstring := [js "/*"; js "/**"; js "/*!"].

Definition closer : jsstring := js "*/".

Definition jsstring_eqb (a b : jsstring) : bool :=
  match stripPrefix a b with
  | Some [] => true
  | _ => false
  end.

(** A comment text that is empty or is nothing but its delimiter and white
    space: a line delimiter followed by white space, or a block delimiter,
    white space and possibly the closing delimiter. *)
Definition delimiterOnly (t : jsstring) : bool :=
  match t with
  | [] => true
  | _ =>
      existsb (fun d => match stripPrefix d t with
                        | Some rest => forallb isSpace rest
                        | None => false
                        end) lineDelimiters
      || existsb (fun d => match stripPrefix d t with
                           | Some rest =>
                               let tail := dropWhile isSpace rest in
                               jsstring_eqb tail [] || jsstring_eqb tail closer
                           | None => false
                           end) blockDelimiters
  end.

(** Can a match of [r] be empty, and can it begin with [c]?  Both err on the
    side of yes. *)
Fixpoint nullable (r : regex) : bool :=
  match r with
  | Eps | Bol | WordB | Star _ => true
  | Sym _ => false
  | Cat r1 r2 => nullable r1 && nullable r2
  | Alt r1 r2 => nullable r1 || nullable r2
  end.

Fixpoint firstb (r : regex) (c : char) : bool :=
  match r with
  | Eps | Bol | WordB => false
  | Sym cs => in_cset cs c
  | Cat r1 r2 => firstb r1 c || (nullable r1 && firstb r2 c)
  | Alt r1 r2 => firstb r1 c || firstb r2 c
  | Star r1 => firstb r1 c
  end.

(** White space, and the characters [!], [*] and [/] of the delimiters. *)
Definition blankOrDelimiter (c : char) : bool :=
  isSpace c || (c =? 33) || (c =? 42) || (c =? 47).

Definition blankOrSlash (c : char) : bool :=
  isSpace c || (c =? 33) || (c =? 47).

(** Is [d] not empty, and is it made of [p] after its first code unit? *)
Definition delimiterWithin (p : char -> bool) (d : jsstring) : bool :=
  match d with
  | [] => false
  | _ :: d' => forallb p d'
  end.

Definition opensBlock (d : jsstring) : bool :=
  match stripPrefix [47; 42] d with
  | Some _ => true
  | None => false
  end.

Definition spaces : list char :=
  [9; 10; 11; 12; 13; 32; 160; 5760; 8192; 8193; 8194; 8195; 8196; 8197;
   8198; 8199; 8200; 8201; 8202; 8232; 8233; 8239; 8287; 12288; 65279].

(* ================================================================== *)
(** * Sample trees and a sample engine *)
(* ================================================================== *)

(** Trees as the grammars of tree-sitter shape them, for the inputs of the
    test suite; the properties below are instantiated on them. *)
Module Samples.

Definition span (l1 c1 l2 c2 : N) : Range.t :=
  Range.mk (Pos.mk l1 c1 0) (Pos.mk l2 c2 0).

(** An anonymous token. *)
Definition token (t : string) (l col : N) : SgNode :=
  Node t false None (js t)
       (span l col l (col + N.of_nat (String.length t))) [].

(** A named leaf. *)
Definition leaf (k : string) (f : option string) (t : string) (l col : N)
    : SgNode :=
  Node k true f (js t)
       (span l col l (col + N.of_nat (String.length t))) [].

(** [console.<method>(e)] as an expression statement at column [col]. *)
Definition consoleCall (method : string) (l col : N) : SgNode :=
  let t := str ["console."; method; "(e)"] in
  let len := N.of_nat (String.length t) in
  Node "expression_statement" true None (js t) (span l col l (col + len))
    [Node "call_expression" true None (js t) (span l col l (col + len))
       [Node "member_expression" true (Some "function")
             (js (str ["console."; method]))
             (span l col l (col + len - 3))
             [leaf "identifier" (Some "object") "console" l col;
              token "." l (col + 7);
              leaf "property_identifier" (Some "property") method l
                   (col + 8)];
        Node "arguments" true (Some "arguments") (js "(e)")
             (span l (col + len - 3) l (col + len))
             [token "(" l (col + len - 3);
              leaf "identifier" None "e" l (col + len - 2);
              token ")" l (col + len - 1)]]].

(** The block [{ stmts }] of a catch clause. *)
Definition catchBody (stmts : list SgNode) : SgNode :=
  Node "statement_block" true (Some "body") (js "{...}") (span 0 22 0 60)
       ([token "{" 0 22] ++ stmts ++ [token "}" 0 59]).

(** [catch (e) { stmts }] on line 0, column 12, with source text [t]. *)
Definition catchClause (stmts : list SgNode) (t : string) : SgNode :=
  Node "catch_clause" true (Some "handler") (js t) (span 0 12 0 60)
    [token "catch" 0 12; token "(" 0 18;
     leaf "identifier" (Some "parameter") "e" 0 19; token ")" 0 20;
     catchBody stmts].

(** [try { x() } catch ...] *)
Definition tryProgram (handler : SgNode) : SgNode :=
  Node "program" true None (js "try { x() } ...") (span 0 0 0 60)
    [Node "try_statement" true None (js "try { x() } ...") (span 0 0 0 60)
       [token "try" 0 0;
        Node "statement_block" true (Some "body") (js "{ x() }")
             (span 0 4 0 11) [token "{" 0 4; token "}" 0 10];
        handler]].

Definition catchEmpty : SgNode := catchClause [] "catch (e) {}".

Definition catchError : SgNode :=
  catchClause [consoleCall "error" 0 24] "catch (e) { console.error(e) }".

Definition catchLog : SgNode :=
  catchClause [consoleCall "log" 0 24] "catch (e) { console.log(e) }".

Definition catchLogAndError : SgNode :=
  catchClause [consoleCall "log" 0 24; consoleCall "error" 0 40]
              "catch (e) { console.log(e); console.error(e) }".

(** [console.<method>(arg)] as an expression at column [col], with source
    text [t]. *)
Definition consoleCallOn (method : string) (arg : SgNode) (t : string)
    (l col : N) : SgNode :=
  let len := N.of_nat (String.length t) in
  let callee := str ["console."; method] in
  let open := col + N.of_nat (String.length callee) in
  Node "call_expression" true None (js t) (span l col l (col + len))
    [Node "member_expression" true (Some "function") (js callee)
          (span l col l open)
          [leaf "identifier" (Some "object") "console" l col;
           token "." l (col + 7);
           leaf "property_identifier" (Some "property") method l (col + 8)];
     Node "arguments" true (Some "arguments")
          (js (substring (String.length callee)
                         (String.length t - String.length callee) t))
          (span l open l (col + len))
          [token "(" l open; arg; token ")" l (col + len - 1)]].

(** The one statement [console.error(console.log(e))]. *)
Definition errorOfLog : SgNode :=
  Node "expression_statement" true None (js "console.error(console.log(e))")
       (span 0 24 0 53)
    [consoleCallOn "error"
       (consoleCallOn "log" (leaf "identifier" None "e" 0 50)
                      "console.log(e)" 0 38)
       "console.error(console.log(e))" 0 24].

Definition catchErrorOfLog : SgNode :=
  catchClause [errorOfLog] "catch (e) { console.error(console.log(e)) }".

(** [begin; x; rescue; end] of Ruby, on lines 0 to 3: the rescue clause is
    a named node whose one child is the keyword, an anonymous token of the
    same name. *)
Definition rubyRescue : SgNode :=
  Node "rescue" true None (js "rescue") (span 2 0 2 6) [token "rescue" 2 0].

Definition rubyProgram : SgNode :=
  Node "program" true None (js "begin ...") (span 0 0 3 3)
    [Node "begin" true None (js "begin ...") (span 0 0 3 3)
       [token "begin" 0 0; leaf "identifier" None "x" 1 2; rubyRescue;
        token "end" 3 0]].

Definition passBlock : SgNode :=
  Node "block" true None (js "pass") (span 3 4 3 8)
       [leaf "pass_statement" None "pass" 3 4].

(** [except: pass] of [try: x() except: pass], on lines 2 and 3. *)
Definition exceptPass : SgNode :=
  Node "except_clause" true None
       (js "except:" ++ [newline] ++ js "    pass") (span 2 0 3 8)
    [token "except" 2 0; token ":" 2 6; passBlock].

Definition pythonProgram : SgNode :=
  Node "module" true None (js "try: ...") (span 0 0 3 8)
    [Node "try_statement" true None (js "try: ...") (span 0 0 3 8)
       [token "try" 0 0; token ":" 0 3;
        Node "block" true (Some "body") (js "x()") (span 1 4 1 7) [];
        exceptPass]].

(** A comment on line [l], followed by a declaration. *)
Definition commentNode (k : string) (t : jsstring) (l : N) : SgNode :=
  Node k true None t (span l 0 l (N.of_nat (List.length t))) [].

Definition commentProgram (k : string) (t : jsstring) : SgNode :=
  Node "program" true None (t ++ [newline] ++ js "let x;") (span 0 0 1 6)
    [commentNode k t 0; leaf "lexical_declaration" None "let x;" 1 0].

(** A block comment of three lines. *)
Definition bannerText : jsstring :=
  js "/* handle remaining cases similarly" ++ [newline]
  ++ js " * and so on" ++ [newline]
  ++ js " */".

(** The pattern [console.log($$$ARGS)] on trees of the TypeScript and
    JavaScript grammars: a call whose callee is the member [log] of the
    identifier [console], whatever the arguments. *)
Definition isConsoleLogCall (n : SgNode) : bool :=
  String.eqb (kind n) "call_expression"
  && match field "function" n with
     | Some f =>
         String.eqb (kind f) "member_expression"
         && match field "object" f, field "property" f with
            | Some o, Some p =>
                String.eqb (kind o) "identifier"
                && jsstring_eqb (text o) (js "console")
                && String.eqb (kind p) "property_identifier"
                && jsstring_eqb (text p) (js "log")
            | _, _ => false
            end
     | None => false
     end
  && match field "arguments" n with
     | Some a => String.eqb (kind a) "arguments"
     | None => false
     end.

(** An engine whose parser answers [root] whatever the source. *)
Definition engineOf (root : SgNode) : AstGrep :=
  {| parse := fun _ _ => root;
     matchesPattern := fun p n =>
       String.eqb p "console.log($$$ARGS)" && isConsoleLogCall n |}.

End Samples.

(* ================================================================== *)
(** * The two programs *)
(* ================================================================== *)

(** The repository carries its rule tables in two revisions: the files at
    [src/rules/comments.ts] and [src/rules/error-handling.ts], and the later
    ones that the bundled build is made from. *)
Inductive revision : Type :=
| src_tree
| bundled.

Definition errorHandlingRulesOf `{AstGrep} (rev : revision) : list Rule.t :=
  match rev with
  | src_tree => errorHandlingRules
  | bundled => errorHandlingRules_bundle
  end.

Module Program.
Section WithEngine.

Context `{AstGrep}.
Variable rev : revision.

Definition KEEPER_PATTERN : regex :=
  match rev with
  | src_tree => comments_ts.KEEPER_PATTERN
  | bundled => comments_rev.KEEPER_PATTERN
  end.

Definition commentRules : list Rule.t :=
  match rev with
  | src_tree => comments_ts.commentRules
  | bundled => comments_rev.commentRules
  end.

Definition errorHandlingRules : list Rule.t := errorHandlingRulesOf rev.

Definition shouldKeep := shouldKeep KEEPER_PATTERN.

Definition scanSource := scanSource commentRules errorHandlingRules.

Definition scanHits := scanHits commentRules errorHandlingRules.

Definition astRules := astRules commentRules errorHandlingRules.

(** Each comment rule next to the pattern test that its [check] ends
    with. *)
Definition classifiers : list (Rule.t * (jsstring -> bool)) :=
  let K := KEEPER_PATTERN in
  [(obviousComment K, test OBVIOUS_VERBS);
   (narratorComment K, test NARRATOR_PATTERN);
   (stepComment K, test STEP_PATTERN);
   (sectionDivider K,
    fun text => existsb (fun p => test p text) DIVIDER_PATTERNS)]
  ++ match rev with
     | src_tree => []
     | bundled =>
         [(placeholderComment K, test PLACEHOLDER_PATTERN);
          (apologeticComment K, test APOLOGETIC_PATTERN);
          (aiSpecificComment K, test AI_SPECIFIC_PATTERN)]
     end.

End WithEngine.
End Program.

(** Is some node of the subtree a call [console.log(...)]? *)
Definition hasConsoleLog `{AstGrep} (node : SgNode) : bool :=
  existsb (matchesPattern "console.log($$$ARGS)") (dfs node).

(** The languages that the TypeScript and JavaScript rules are for. *)
Definition isScript (lang : LanguageConfig.t) : bool :=
  String.eqb (LanguageConfig.lang lang) Lang.TypeScript
  || String.eqb (LanguageConfig.lang lang) Lang.JavaScript.

(* ================================================================== *)
(** * More notions for the patterns *)
(* ================================================================== *)

(** Equality of two texts up to the case of ASCII letters. *)
Fixpoint eqI (a b : jsstring) : bool :=
  match a, b with
  | [], [] => true
  | x :: a', y :: b' => (canonicalize x =? canonicalize y) && eqI a' b'
  | _, _ => false
  end.

(** [stripPrefix] up to the case of ASCII letters. *)
Fixpoint stripPrefixI (w s : jsstring) : option jsstring :=
  match w, s with
  | [], _ => Some s
  | _ :: _, [] => None
  | a :: w', b :: s' =>
      if canonicalize b =? canonicalize a then stripPrefixI w' s' else None
  end.

Definition isLetter (c : char) : bool := isUpper c || isLower c.

(** Is [\b] absent from [r]? *)
Fixpoint wordBfree (r : regex) : bool :=
  match r with
  | WordB => false
  | Eps | Sym _ | Bol => true
  | Cat r1 r2 | Alt r1 r2 => wordBfree r1 && wordBfree r2
  | Star r1 => wordBfree r1
  end.

(** The texts that [(?:\/\/|#|\/\*\*?)] matches. *)
Definition openerTexts : list jsstring :=
  [js "//"; js "#"; js "/*"; js "/**"].

(** The patterns of the comment rules of the later revision. *)
Definition classifierPatterns : list regex :=
  [OBVIOUS_VERBS; NARRATOR_PATTERN; STEP_PATTERN; PLACEHOLDER_PATTERN;
   APOLOGETIC_PATTERN; AI_SPECIFIC_PATTERN] ++ DIVIDER_PATTERNS.

(** The texts that [(?:\/\/|#)] matches. *)
Definition lineOpenerTexts : list jsstring := [js "//"; js "#"].

(** Does [t] contain one of the words [ws] somewhere, in any letter case? *)
Definition containsWordI (ws : list string) (t : jsstring) : Prop :=
  exists w pre mid post,
    In w ws /\ t = pre ++ mid ++ post /\ eqI mid (js w) = true.

(** Does [t] contain one of the words [ws] somewhere, as written? *)
Definition containsWord (ws : list string) (t : jsstring) : Prop :=
  exists w pre post, In w ws /\ t = pre ++ js w ++ post.

(** What the step pattern asks of a text: a delimiter, any white space, the
    word [step] in any letter case, white space, and a digit. *)
Definition isStepText (t : jsstring) : Prop :=
  exists d ws1 w ws2 x rest,
    In d openerTexts
    /\ t = d ++ ws1 ++ w ++ ws2 ++ x :: rest
    /\ forallb isSpace ws1 = true
    /\ eqI w (js "step") = true
    /\ ws2 <> [] /\ forallb isSpace ws2 = true
    /\ isDigit x = true.

(* ================================================================== *)
(** * More notions for the structural rules *)
(* ================================================================== *)

(** The languages that some structural rule of the revision lists. *)
Definition structuralLanguages (rev : revision) : list string :=
  ["TypeScript"; "JavaScript"; "java"; "python"]
  ++ match rev with
     | src_tree => []
     | bundled => ["ruby"]
     end.

(** Has the except clause no child that names an exception type? *)
Definition isBareExcept (node : SgNode) : bool :=
  negb (existsb (fun c => String.eqb (kind c) "identifier"
                          || String.eqb (kind c) "as_pattern")
                (children node)).

(** Is the first block of the except clause a single pass statement? *)
Definition isPassOnly (node : SgNode) : bool :=
  match find (fun c => String.eqb (kind c) "block") (children node) with
  | Some body =>
      match namedChildren body with
      | [s] => String.eqb (kind s) "pass_statement"
      | _ => false
      end
  | None => false
  end.

(** Has the rescue clause no [then] child, or has the first one no named
    child? *)
Definition isEmptyRescue (node : SgNode) : bool :=
  match find (fun c => String.eqb (kind c) "then") (children node) with
  | None => true
  | Some body =>
      match namedChildren body with
      | [] => true
      | _ :: _ => false
      end
  end.


(** The same diagnostic under another file name. *)
Definition withFile (filename : string) (d : Diagnostic.t) : Diagnostic.t :=
  Diagnostic.mk (Diagnostic.rule d) (Diagnostic.message d)
                (Diagnostic.note d) filename (Diagnostic.line d)
                (Diagnostic.column d) (Diagnostic.text d).

(** Distinctness of the members of a list of string literals. *)
Ltac nodup_strings :=
  repeat (constructor; [cbn [In]; intuition discriminate|]); constructor.

(* ================================================================== *)
(** * src/languages.ts: the registry of each revision *)
(* ================================================================== *)

Definition LANGUAGES_of (rev : revision)
    : list (string * LanguageConfig.t) :=
  match rev with
  | src_tree => LANGUAGES
  | bundled => LANGUAGES_bundle
  end.

(** [languageForExtension] over the registry of the revision; for
    [src_tree] it is [languageForExtension] itself. *)
Definition languageForExtensionOf (rev : revision) (ext : string)
    : option LanguageConfig.t :=
  find (fun l => includes (LanguageConfig.extensions l) ext)
       (map snd (LANGUAGES_of rev)).

(* ================================================================== *)
(** * src/formatter.ts *)
(* ================================================================== *)

Definition ESC : char := 27.

Definition RESET : jsstring := ESC :: js "[0m".
Definition BOLD : jsstring := ESC :: js "[1m".
Definition DIM : jsstring := ESC :: js "[2m".
Definition YELLOW : jsstring := ESC :: js "[33m".
Definition CYAN : jsstring := ESC :: js "[36m".
Definition GRAY : jsstring := ESC :: js "[90m".

Module Palette.
Record t : Type := mk {
  reset : jsstring;
  bold : jsstring;
  dim : jsstring;
  yellow : jsstring;
  cyan : jsstring;
  gray : jsstring
}.
End Palette.

(** The object [c] of [formatDiagnostics]. *)
Definition palette (color : bool) : Palette.t :=
  if color then Palette.mk RESET BOLD DIM YELLOW CYAN GRAY
  else Palette.mk [] [] [] [] [] [].

(** A [Map<string, Diagnostic[]>]: the entries in the order of their
    insertion. *)
Definition FileMap : Type := list (string * list Diagnostic.t).

(** [byFile.get(key)] *)
Fixpoint mapGet (m : FileMap) (key : string)
    : option (list Diagnostic.t) :=
  match m with
  | [] => None
  | (k, v) :: m' => if String.eqb k key then Some v else mapGet m' key
  end.

(** [byFile.set(key, value)]: the value of an existing key is replaced
    where the key stands, a new key goes to the end. *)
Fixpoint mapSet (m : FileMap) (key : string) (value : list Diagnostic.t)
    : FileMap :=
  match m with
  | [] => [(key, value)]
  | (k, v) :: m' =>
      if String.eqb k key then (k, value) :: m'
      else (k, v) :: mapSet m' key value
  end.

(** The first loop of [formatDiagnostics]. *)
Definition groupByFile (diagnostics : list Diagnostic.t) : FileMap :=
  fold_left
    (fun byFile d =>
       let list :=
         match mapGet byFile (Diagnostic.file d) with
         | Some l => l
         | None => []
         end in
       let list := push list d in
       mapSet byFile (Diagnostic.file d) list)
    diagnostics [].

(** A number in a template literal.  The numbers printed are line numbers,
    column numbers and a length, all integers far below the size at which
    JavaScript changes to the exponent notation. *)
Definition decimal (n : N) : jsstring :=
  js (NilZero.string_of_uint (N.to_uint n)).

(** [lines.join(sep)] *)
Definition joinLines (sep : jsstring) (lines : list jsstring) : jsstring :=
  match lines with
  | [] => []
  | l :: ls => l ++ flat_map (fun x => sep ++ x) ls
  end.

(** The code unit of the warning sign, U+26A0. *)
Definition warningSign : char := 9888.

(** The code units of a string whose bytes are UTF-8.  The messages of the
    rules are literals of this file, which is in UTF-8, and have a dash
    outside ASCII; a file name is taken to be well-formed UTF-8 likewise.
    A character beyond U+FFFF gives a surrogate pair; a sequence that is
    cut short gives U+FFFD. *)
Fixpoint fromUtf8 (bytes : list N) : jsstring :=
  match bytes with
  | [] => []
  | b :: rest =>
      if b <? 128 then b :: fromUtf8 rest
      else if b <? 224 then
        match rest with
        | b1 :: rest' => ((b - 192) * 64 + (b1 - 128)) :: fromUtf8 rest'
        | _ => [65533]
        end
      else if b <? 240 then
        match rest with
        | b1 :: b2 :: rest' =>
            ((b - 224) * 4096 + (b1 - 128) * 64 + (b2 - 128))
            :: fromUtf8 rest'
        | _ => [65533]
        end
      else
        match rest with
        | b1 :: b2 :: b3 :: rest' =>
            let point :=
              (b - 240) * 262144 + (b1 - 128) * 4096 + (b2 - 128) * 64
              + (b3 - 128) in
            let v := point - 65536 in
            (55296 + v / 1024) :: (56320 + v mod 1024) :: fromUtf8 rest'
        | _ => [65533]
        end
  end.

Definition jsOf (s : string) : jsstring := fromUtf8 (js s).

(** The template literals of [formatDiagnostics]. *)
Definition headerLine (c : Palette.t) (file : string) : jsstring :=
  Palette.bold c ++ jsOf file ++ Palette.reset c.

Definition warningLine (c : Palette.t) (d : Diagnostic.t) : jsstring :=
  let loc :=
    Palette.gray c ++ decimal (Diagnostic.line d) ++ js ":"
    ++ decimal (Diagnostic.column d) ++ Palette.reset c in
  let rule := Palette.cyan c ++ jsOf (Diagnostic.rule d) ++ Palette.reset c in
  js "  " ++ loc ++ js "  " ++ Palette.yellow c ++ js "warning"
  ++ Palette.reset c ++ js "  " ++ jsOf (Diagnostic.message d) ++ js "  "
  ++ rule.

Definition textLine (c : Palette.t) (d : Diagnostic.t) : jsstring :=
  js "  " ++ Palette.gray c ++ js "> " ++ Diagnostic.text d
  ++ Palette.reset c.

Definition summaryLine (c : Palette.t) (count : nat) : jsstring :=
  Palette.yellow c ++ Palette.bold c ++ [warningSign] ++ js " "
  ++ decimal (N.of_nat count) ++ js " problem"
  ++ (if (count =? 1)%nat then [] else js "s") ++ Palette.reset c.

(** The body of the inner loop. *)
Definition pushDiagnostic (c : Palette.t) (lines : list jsstring)
    (d : Diagnostic.t) : list jsstring :=
  let lines := push lines (warningLine c d) in
  match Diagnostic.text d with
  | [] => lines
  | _ :: _ => push lines (textLine c d)
  end.

(** [formatDiagnostics(diagnostics, color)]; the default of [color] is for
    the caller to fill in. *)
Definition formatDiagnostics (diagnostics : list Diagnostic.t)
    (color : bool) : jsstring :=
  if (List.length diagnostics =? 0)%nat then []
  else
    let c := palette color in
    let byFile := groupByFile diagnostics in
    let lines :=
      fold_left
        (fun lines entry =>
           let '(file, diags) := entry in
           let lines := push lines [] in
           let lines := push lines (headerLine c file) in
           fold_left (pushDiagnostic c) diags lines)
        byFile [] in
    let lines := push lines [] in
    let count := List.length diagnostics in
    let lines := push lines (summaryLine c count) in
    joinLines [newline] lines.

(** ** The report, said without loops *)

(** The members of a list, each once, in the order of their first
    occurrence. *)
Fixpoint distinct (l : list string) : list string :=
  match l with
  | [] => []
  | x :: l' => x :: filter (fun y => negb (String.eqb y x)) (distinct l')
  end.

(** The diagnostics of one file, in the order given. *)
Definition diagnosticsOf (file : string) (diagnostics : list Diagnostic.t)
    : list Diagnostic.t :=
  filter (fun d => String.eqb (Diagnostic.file d) file) diagnostics.

Definition entryLines (c : Palette.t) (d : Diagnostic.t) : list jsstring :=
  warningLine c d
  :: match Diagnostic.text d with
     | [] => []
     | _ :: _ => [textLine c d]
     end.

Definition sectionLines (c : Palette.t) (diagnostics : list Diagnostic.t)
    (file : string) : list jsstring :=
  [] :: headerLine c file
  :: flat_map (entryLines c) (diagnosticsOf file diagnostics).

(** Has a diagnostic the escape character in none of its fields? *)
Definition plain (d : Diagnostic.t) : bool :=
  forallb (fun x => negb (x =? ESC))
          (jsOf (Diagnostic.file d) ++ jsOf (Diagnostic.message d)
           ++ jsOf (Diagnostic.rule d) ++ Diagnostic.text d).

(* ================================================================== *)
(** * src/cli.ts *)
(* ================================================================== *)

(** What [readdirSync(dir, { withFileTypes: true })] lists.  The file
    system is a tree that stands still while the program runs: a directory
    entry carries the listing that [readdirSync] gives of it.  An entry
    that is neither a regular file nor a directory (a symbolic link, a
    socket) answers neither [isFile()] nor [isDirectory()]. *)
#[warnings="-register-all"]
Inductive Dirent : Type :=
| DFile (name : string)
| DDir (name : string) (entries : list Dirent)
| DOther (name : string).

(** What [statSync(path, { throwIfNoEntry: false })] finds, when it finds
    something. *)
Inductive Stats : Type :=
| StFile
| StDir (entries : list Dirent)
| StOther.

(** What the program takes from Node: the functions of [path] and [fs]
    that it imports, and [process.stdout.isTTY].  The calls are taken to
    answer; a run in which one of them throws is not described. *)
Module Host.
Record t : Type := mk {
  resolve : string -> string;
  join : string -> string -> string;
  extname : string -> string;
  statSync : string -> option Stats;
  readFileSync : string -> jsstring;
  isTTY : option bool
}.

Definition withReadFileSync (host : t) (read : string -> jsstring) : t :=
  mk (resolve host) (join host) (extname host) (statSync host) read
     (isTTY host).
End Host.

(** What a run writes, and how it ends: with [process.exit(code)], or by
    coming to the end of [main]. *)
Module Run.
Record t : Type := mk {
  stderr : list string;
  stdout : list jsstring;
  exit : option N
}.
End Run.

Definition usage : Run.t :=
  Run.mk ["Usage: sloplint <path> [path...]";
          EmptyString;
          "Scan files or directories for AI slop patterns.";
          EmptyString;
          "Examples:";
          "  sloplint src/";
          "  sloplint main.ts utils.py";
          "  sloplint ."]
         [] (Some 1).

Definition SKIP : list string :=
  ["node_modules"; ".git"; "dist"; "build"; "out"; ".next";
   "vendor"; "target"; "__pycache__"; ".venv"; "venv"].

(** The two [continue] of [walkDir]. *)
Definition skipped (name : string) : bool :=
  (String.prefix "." name && negb (String.eqb name "."))
  || includes SKIP name.

(** [s.slice(1)] *)
Definition slice1 (s : string) : string :=
  match s with
  | EmptyString => EmptyString
  | String _ s' => s'
  end.

(** Induction on an entry, with the property at hand for the entries of
    a directory. *)
Fixpoint Dirent_induction (P : Dirent -> Prop)
    (Hfile : forall name, P (DFile name))
    (Hdir : forall name entries, Forall P entries -> P (DDir name entries))
    (Hother : forall name, P (DOther name))
    (entry : Dirent) : P entry :=
  match entry with
  | DFile name => Hfile name
  | DDir name entries =>
      Hdir name entries
        ((fix all (l : list Dirent) : Forall P l :=
            match l with
            | [] => Forall_nil P
            | e :: l' =>
                Forall_cons e (Dirent_induction P Hfile Hdir Hother e)
                            (all l')
            end) entries)
  | DOther name => Hother name
  end.

Section Cli.

Context `{AstGrep}.
Variable rev : revision.
Variable host : Host.t.

(** The body of the loop of [walkDir], for the entry [entry] of the
    directory [dir]. *)
Fixpoint walkEntry (dir : string) (files : list string) (entry : Dirent)
    : list string :=
  match entry with
  | DFile name =>
      if skipped name then files
      else push files (Host.join host dir name)
  | DDir name entries =>
      if skipped name then files
      else
        let full := Host.join host dir name in
        fold_left (fun files entry => walkEntry full files entry)
                  entries files
  | DOther name => files
  end.

(** [walkDir(dir, files)], where [entries] is what [readdirSync] lists of
    [dir]; the answer is [files] after the call. *)
Definition walkDir (dir : string) (entries : list Dirent)
    (files : list string) : list string :=
  fold_left (walkEntry dir) entries files.

(** [collectFiles(paths)]: the files, and what was written to the error
    stream. *)
Definition collectFiles (paths : list string)
    : list string * list string :=
  fold_left
    (fun state p =>
       let '(files, errors) := state in
       let resolved := Host.resolve host p in
       match Host.statSync host resolved with
       | None =>
           (files,
            push errors
                 (str ["sloplint: "; p; ": No such file or directory"]))
       | Some StFile => (push files resolved, errors)
       | Some (StDir entries) => (walkDir resolved entries files, errors)
       | Some StOther => (files, errors)
       end)
    paths ([], []).

(** The body of the loop of [main]. *)
Definition scanFile (allDiagnostics : list Diagnostic.t) (file : string)
    : list Diagnostic.t :=
  let ext := slice1 (Host.extname host file) in
  match languageForExtensionOf rev ext with
  | None => allDiagnostics
  | Some lang =>
      let source := Host.readFileSync host file in
      let diagnostics := Program.scanSource rev source lang file in
      allDiagnostics ++ diagnostics
  end.

(** [main()], with [args] for [process.argv.slice(2)]. *)
Definition main (args : list string) : Run.t :=
  if (List.length args =? 0)%nat then usage
  else
    let '(files, errors) := collectFiles args in
    if (List.length files =? 0)%nat then
      Run.mk (push errors "sloplint: no matching files found") [] (Some 0)
    else
      let allDiagnostics := fold_left scanFile files [] in
      if (0 <? List.length allDiagnostics)%nat then
        let color :=
          match Host.isTTY host with
          | Some b => b
          | None => false
          end in
        Run.mk errors [formatDiagnostics allDiagnostics color] (Some 1)
      else Run.mk errors [] None.

(** ** What the walk reaches *)

(** [Reaches dir entry p]: the walk of the directory [dir] comes by way of
    its entry [entry] to the file of path [p]. *)
Inductive Reaches : string -> Dirent -> string -> Prop :=
| reach_file (dir name : string) :
    skipped name = false ->
    Reaches dir (DFile name) (Host.join host dir name)
| reach_dir (dir name : string) (entries : list Dirent) (entry : Dirent)
    (p : string) :
    skipped name = false ->
    In entry entries ->
    Reaches (Host.join host dir name) entry p ->
    Reaches dir (DDir name entries) p.

(** The files that an argument of the command line stands for. *)
Definition standsFor (p file : string) : Prop :=
  match Host.statSync host (Host.resolve host p) with
  | Some StFile => file = Host.resolve host p
  | Some (StDir entries) =>
      exists entry,
        In entry entries /\ Reaches (Host.resolve host p) entry file
  | _ => False
  end.

(** The files and the message of one argument. *)
Definition filesOfPath (p : string) : list string :=
  match Host.statSync host (Host.resolve host p) with
  | Some StFile => [Host.resolve host p]
  | Some (StDir entries) => walkDir (Host.resolve host p) entries []
  | _ => []
  end.

Definition isMissing (p : string) : bool :=
  match Host.statSync host (Host.resolve host p) with
  | None => true
  | Some _ => false
  end.

(** Is the file one that [main] scans? *)
Definition isSupported (file : string) : bool :=
  match languageForExtensionOf rev (slice1 (Host.extname host file)) with
  | Some _ => true
  | None => false
  end.

(** The diagnostics of a collected file. *)
Definition diagnosticsOfFile (file : string) : list Diagnostic.t :=
  scanFile [] file.

End Cli.

(** The identifiers that a scan of a TypeScript file consisting of the one
    comment [t] reports, in the later revision. *)
Definition reported (t : string) : list string :=
  map Diagnostic.rule
      (@Program.scanSource
         (Samples.engineOf (Samples.commentProgram "comment" (js t)))
         bundled (js t) typescript "a.ts").

(* ================================================================== *)
(** * The matcher *)
(* ================================================================== *)

Lemma searchFrom_Bol (r : regex) (s : jsstring) (c : char) :
  searchFrom (Bol ;; r) (Some c) s = false.
Proof.
  revert c. induction s as [|x s IH]; intros c; simpl; auto.
Qed.

(** A pattern that begins with [^] is tried at the start of the text only. *)
Lemma test_anchored (r : regex) (s : jsstring) :
  test (Bol ;; r) s = matchRe r None s accept.
Proof.
  unfold test. destruct s as [|x s]; simpl.
  - destruct (matchRe r None [] accept); reflexivity.
  - rewrite searchFrom_Bol. destruct (matchRe r None (x :: s) accept); reflexivity.
Qed.

(** A match is empty, and then the pattern is nullable, or it begins with a
    code unit that the pattern can begin with. *)
Lemma matchRe_first (r : regex) :
  forall p s k,
    matchRe r p s k = true ->
    (nullable r = true /\ k p s = true)
    \/ (exists x s0, s = x :: s0 /\ firstb r x = true).
Proof.
  induction r as [| cs | | | r1 IH1 r2 IH2 | r1 IH1 r2 IH2 | r IH];
    intros p s k Hm; simpl in Hm.
  - left; auto.
  - destruct s as [|x s0]; [discriminate|].
    destruct (in_cset cs x) eqn:E; [|discriminate].
    right; exists x, s0; auto.
  - destruct p; [discriminate|]. left; auto.
  - destruct (xorb _ _); [|discriminate]. left; auto.
  - apply IH1 in Hm. destruct Hm as [[N1 Hk]|(x & s0 & -> & F)].
    + apply IH2 in Hk. destruct Hk as [[N2 Hk]|(x & s0 & -> & F)].
      * left; simpl; rewrite N1, N2; auto.
      * right; exists x, s0; simpl; rewrite N1, F, orb_true_r; auto.
    + right; exists x, s0; simpl; rewrite F; auto.
  - destruct (matchRe r1 p s k) eqn:E1.
    + apply IH1 in E1. destruct E1 as [[N1 Hk]|(x & s0 & -> & F)].
      * left; simpl; rewrite N1; auto.
      * right; exists x, s0; simpl; rewrite F; auto.
    + apply IH2 in Hm. destruct Hm as [[N2 Hk]|(x & s0 & -> & F)].
      * left; simpl; rewrite N2, orb_true_r; auto.
      * right; exists x, s0; simpl; rewrite F, orb_true_r; auto.
  - simpl. remember (List.length s) as fuel eqn:Hf. clear Hf.
    revert p s Hm. induction fuel as [|fuel IHf]; intros p s Hm; simpl in Hm.
    + left; auto.
    + match type of Hm with (if ?b then _ else _) = _ => destruct b eqn:E end.
      * apply IH in E. destruct E as [[_ Hk]|(x & s0 & -> & F)].
        -- rewrite Nat.ltb_irrefl in Hk. discriminate.
        -- right; exists x, s0; auto.
      * left; auto.
Qed.

(** The continuation of a match runs on a suffix of the input, a proper one
    when the pattern is not nullable. *)
Lemma matchRe_suffix (r : regex) :
  forall p s k,
    matchRe r p s k = true ->
    exists p' w s',
      s = w ++ s' /\ k p' s' = true /\ (nullable r = false -> w <> []).
Proof.
  induction r as [| cs | | | r1 IH1 r2 IH2 | r1 IH1 r2 IH2 | r IH];
    intros p s k Hm; simpl in Hm.
  - exists p, [], s; simpl; repeat split; auto; discriminate.
  - destruct s as [|x s0]; [discriminate|].
    destruct (in_cset cs x); [|discriminate].
    exists (Some x), [x], s0; repeat split; auto; discriminate.
  - destruct p; [discriminate|].
    exists None, [], s; simpl; repeat split; auto; discriminate.
  - destruct (xorb _ _); [|discriminate].
    exists p, [], s; simpl; repeat split; auto; discriminate.
  - apply IH1 in Hm. destruct Hm as (p1 & w1 & s1 & -> & Hk & P1).
    apply IH2 in Hk. destruct Hk as (p2 & w2 & s2 & -> & Hk & P2).
    exists p2, (w1 ++ w2), s2. rewrite app_assoc. repeat split; auto.
    simpl. intros Hn. apply andb_false_iff in Hn. intros Heq.
    apply app_eq_nil in Heq. destruct Heq as [E1 E2].
    destruct Hn as [Hn|Hn]; [apply P1 in Hn|apply P2 in Hn]; contradiction.
  - destruct (matchRe r1 p s k) eqn:E1.
    + apply IH1 in E1. destruct E1 as (p1 & w1 & s1 & -> & Hk & P1).
      exists p1, w1, s1; repeat split; auto.
      simpl; intros Hn; apply orb_false_iff in Hn; tauto.
    + apply IH2 in Hm. destruct Hm as (p1 & w1 & s1 & -> & Hk & P1).
      exists p1, w1, s1; repeat split; auto.
      simpl; intros Hn; apply orb_false_iff in Hn; tauto.
  - remember (List.length s) as fuel eqn:Hf. clear Hf.
    revert p s Hm. induction fuel as [|fuel IHf]; intros p s Hm; simpl in Hm.
    + exists p, [], s; simpl; repeat split; auto; discriminate.
    + match type of Hm with (if ?b then _ else _) = _ => destruct b eqn:E end.
      * apply IH in E. destruct E as (p1 & w1 & s1 & -> & Hk & _).
        destruct (_ <? _)%nat; [|discriminate].
        apply IHf in Hk. destruct Hk as (p2 & w2 & s2 & -> & Hk & _).
        exists p2, (w1 ++ w2), s2. rewrite app_assoc.
        repeat split; auto; discriminate.
      * exists p, [], s; simpl; repeat split; auto; discriminate.
Qed.

Lemma matchRe_Cat (r1 r2 : regex) p s k :
  matchRe (r1 ;; r2) p s k
  = matchRe r1 p s (fun p' s' => matchRe r2 p' s' k).
Proof. reflexivity. Qed.

(** The shape of every classifier pattern: [^], a delimiter, [\s*] and a
    body.  On a text whose code units after the first are all outside what
    the body can begin with, it fails. *)
Lemma anchored_body_fails (op body : regex) (X : char -> bool)
    (c0 : char) (t' : jsstring) :
  nullable op = false ->
  nullable body = false ->
  forallb X t' = true ->
  (forall x, X x = true -> firstb body x = false) ->
  test (Bol ;; op ;; Star sp ;; body) (c0 :: t') = false.
Proof.
  intros Nop Nbody HX Hfirst.
  rewrite test_anchored.
  destruct (matchRe _ None (c0 :: t') accept) eqn:E; [exfalso|reflexivity].
  rewrite matchRe_Cat in E.
  apply matchRe_suffix in E. destruct E as (p1 & w1 & s1 & Hs & K1 & P1).
  rewrite matchRe_Cat in K1.
  apply matchRe_suffix in K1. destruct K1 as (p2 & w2 & s2 & -> & K2 & _).
  apply matchRe_first in K2.
  destruct K2 as [[N _]|(x & s0 & -> & F)]; [congruence|].
  destruct w1 as [|a w1]; [now apply P1|].
  simpl in Hs. injection Hs as _ ->.
  rewrite forallb_forall in HX.
  rewrite Hfirst in F; [discriminate|].
  apply HX. rewrite !in_app_iff. right; right; left; reflexivity.
Qed.

(** An anchored pattern whose delimiter is not nullable fails on the empty
    text. *)
Lemma anchored_fails_on_empty (op rest : regex) :
  nullable op = false ->
  test (Bol ;; op ;; rest) [] = false.
Proof.
  intros Nop. rewrite test_anchored.
  destruct (matchRe _ None [] accept) eqn:E; [exfalso|reflexivity].
  rewrite matchRe_Cat in E.
  apply matchRe_first in E.
  destruct E as [[N _]|(x & s0 & Hs & _)]; congruence.
Qed.

Lemma isSpace_spaces (x : char) : isSpace x = true -> In x spaces.
Proof.
  unfold isSpace, spaces.
  rewrite !orb_true_iff, !andb_true_iff, !N.leb_le, !N.eqb_eq.
  simpl In. lia.
Qed.

Lemma blankOrDelimiter_enum (x : char) :
  blankOrDelimiter x = true -> In x (33 :: 42 :: 47 :: spaces).
Proof.
  unfold blankOrDelimiter.
  rewrite !orb_true_iff, !N.eqb_eq.
  intros [[[H|H]|H]|H];
    [do 3 right; now apply isSpace_spaces|left|right; left|do 2 right; left];
    auto.
Qed.

Lemma blankOrSlash_enum (x : char) :
  blankOrSlash x = true -> In x (33 :: 47 :: spaces).
Proof.
  unfold blankOrSlash.
  rewrite !orb_true_iff, !N.eqb_eq.
  intros [[H|H]|H]; [do 2 right; now apply isSpace_spaces|left|right; left];
    auto.
Qed.

(** A check on finitely many code units settles what a body can begin
    with. *)
Lemma excluded_by_enum (body : regex) (X : char -> bool) (l : list char) :
  (forall x, X x = true -> In x l) ->
  forallb (fun x => negb (firstb body x)) l = true ->
  forall x, X x = true -> firstb body x = false.
Proof.
  intros Henum Hall x Hx.
  rewrite forallb_forall in Hall.
  specialize (Hall x (Henum x Hx)).
  now apply negb_true_iff in Hall.
Qed.

(* ================================================================== *)
(** * Strings *)
(* ================================================================== *)

Lemma stripPrefix_app (w s rest : jsstring) :
  stripPrefix w s = Some rest -> s = w ++ rest.
Proof.
  revert s. induction w as [|a w IH]; intros s Hs; simpl in Hs.
  - now injection Hs as ->.
  - destruct s as [|b s]; [discriminate|].
    destruct (b =? a) eqn:E; [|discriminate].
    apply N.eqb_eq in E. subst b. simpl. f_equal. auto.
Qed.

Lemma stripPrefix_app_eq (w rest : jsstring) :
  stripPrefix w (w ++ rest) = Some rest.
Proof.
  induction w as [|a w IH]; simpl; auto. now rewrite N.eqb_refl.
Qed.

Lemma jsstring_eqb_eq (a b : jsstring) : jsstring_eqb a b = true -> a = b.
Proof.
  unfold jsstring_eqb. destruct (stripPrefix a b) as [[|x r]|] eqn:E;
    try discriminate.
  intros _. apply stripPrefix_app in E. now rewrite app_nil_r in E.
Qed.

Lemma dropWhile_split (p : char -> bool) (s : jsstring) :
  exists ws, s = ws ++ dropWhile p s /\ forallb p ws = true.
Proof.
  induction s as [|x s (ws & Hs & Hws)]; simpl.
  - exists []; auto.
  - destruct (p x) eqn:E.
    + exists (x :: ws); simpl. rewrite E, Hws. split; [f_equal|]; auto.
    + exists []; auto.
Qed.

Lemma forallb_weaken (p q : char -> bool) (s : jsstring) :
  (forall x, p x = true -> q x = true) ->
  forallb p s = true -> forallb q s = true.
Proof.
  intros Hpq. rewrite !forallb_forall. auto.
Qed.

Lemma isSpace_blankOrDelimiter x : isSpace x = true -> blankOrDelimiter x = true.
Proof. unfold blankOrDelimiter. now intros ->. Qed.

Lemma isSpace_blankOrSlash x : isSpace x = true -> blankOrSlash x = true.
Proof. unfold blankOrSlash. now intros ->. Qed.

(** The two ways in which a text is delimiter-only. *)
Lemma delimiterOnly_cases (t : jsstring) :
  delimiterOnly t = true ->
  t = []
  \/ (exists d rest,
        In d lineDelimiters /\ t = d ++ rest /\ forallb isSpace rest = true)
  \/ (exists d ws tail,
        In d blockDelimiters /\ t = d ++ ws ++ tail
        /\ forallb isSpace ws = true /\ (tail = [] \/ tail = closer)).
Proof.
  intros H. destruct t as [|c0 t]; [now left|right].
  unfold delimiterOnly in H. apply orb_true_iff in H.
  destruct H as [H|H]; apply existsb_exists in H; destruct H as (d & Hd & H);
    destruct (stripPrefix d (c0 :: t)) as [rest|] eqn:E; try discriminate;
    apply stripPrefix_app in E.
  - left. exists d, rest. auto.
  - right. destruct (dropWhile_split isSpace rest) as (ws & Hs & Hws).
    exists d, ws, (dropWhile isSpace rest). repeat split; auto.
    + now rewrite <- Hs.
    + apply orb_true_iff in H.
      destruct H as [H|H]; apply jsstring_eqb_eq in H; auto.
Qed.

Lemma delimiterWithin_app (p : char -> bool) (d rest : jsstring) :
  delimiterWithin p d = true ->
  forallb p rest = true ->
  exists c0 t', d ++ rest = c0 :: t' /\ forallb p t' = true.
Proof.
  destruct d as [|a d]; [discriminate|]. simpl. intros Hd Hr.
  exists a, (d ++ rest). split; [reflexivity|].
  now rewrite forallb_app, Hd, Hr.
Qed.

(** What a delimiter-only text looks like to a pattern with the delimiter
    [(?:\/\/|#|\/\*\*?)]: after its first code unit there is nothing but
    white space, [!], [*] and [/]. *)
Lemma delimiterOnly_shape (t : jsstring) :
  delimiterOnly t = true ->
  t = [] \/ exists c0 t', t = c0 :: t' /\ forallb blankOrDelimiter t' = true.
Proof.
  intros H. apply delimiterOnly_cases in H.
  destruct H as [->|[(d & rest & Hd & -> & Hr)
                    |(d & ws & tail & Hd & -> & Hws & Htail)]];
    [now left|right|right].
  - assert (Hall : forallb (delimiterWithin blankOrDelimiter) lineDelimiters
                   = true) by reflexivity.
    rewrite forallb_forall in Hall.
    apply delimiterWithin_app; [now apply Hall|].
    exact (forallb_weaken _ _ _ isSpace_blankOrDelimiter Hr).
  - assert (Hall : forallb (delimiterWithin blankOrDelimiter) blockDelimiters
                   = true) by reflexivity.
    rewrite forallb_forall in Hall.
    apply delimiterWithin_app; [now apply Hall|].
    rewrite forallb_app.
    rewrite (forallb_weaken _ _ _ isSpace_blankOrDelimiter Hws).
    destruct Htail as [->| ->]; reflexivity.
Qed.

(** The same text as a divider pattern sees it, whose delimiter is
    [(?:\/\/|#)]: it opens a block comment, or after its first code unit
    there is nothing but white space, [!] and [/]. *)
Lemma delimiterOnly_line_shape (t : jsstring) :
  delimiterOnly t = true ->
  t = []
  \/ (exists rest, t = 47 :: 42 :: rest)
  \/ (exists c0 t', t = c0 :: t' /\ forallb blankOrSlash t' = true).
Proof.
  intros H. apply delimiterOnly_cases in H.
  destruct H as [->|[(d & rest & Hd & -> & Hr)
                    |(d & ws & tail & Hd & -> & Hws & Htail)]];
    [now left|right; right|right; left].
  - assert (Hall : forallb (delimiterWithin blankOrSlash) lineDelimiters
                   = true) by reflexivity.
    rewrite forallb_forall in Hall.
    apply delimiterWithin_app; [now apply Hall|].
    exact (forallb_weaken _ _ _ isSpace_blankOrSlash Hr).
  - assert (Hall : forallb opensBlock blockDelimiters = true) by reflexivity.
    rewrite forallb_forall in Hall. specialize (Hall d Hd).
    unfold opensBlock in Hall.
    destruct (stripPrefix [47; 42] d) as [d'|] eqn:E; [|discriminate].
    apply stripPrefix_app in E. subst d.
    eexists. reflexivity.
Qed.

(** The line delimiters do not open a block comment. *)
Lemma lineOpener_not_block (rest : jsstring) (k : cont) :
  matchRe lineOpener None (47 :: 42 :: rest) k = false
  /\ matchRe lineOpenerCs None (47 :: 42 :: rest) k = false.
Proof. split; reflexivity. Qed.

(** ** No classifier pattern matches a delimiter-only text *)

Ltac on_delimiter_text :=
  let H := fresh "H" in
  intros H; apply delimiterOnly_shape in H;
  destruct H as [->|(c0 & t' & -> & H)];
  [ apply anchored_fails_on_empty; reflexivity
  | apply anchored_body_fails with (X := blankOrDelimiter);
    [ reflexivity | reflexivity | exact H
    | apply excluded_by_enum with (l := 33 :: 42 :: 47 :: spaces);
      [ exact blankOrDelimiter_enum | vm_compute; reflexivity ] ] ].

Ltac on_delimiter_text_line :=
  let H := fresh "H" in
  intros H; apply delimiterOnly_line_shape in H;
  destruct H as [->|[(rest & ->)|(c0 & t' & -> & H)]];
  [ apply anchored_fails_on_empty; reflexivity
  | rewrite test_anchored, matchRe_Cat;
    apply lineOpener_not_block
  | apply anchored_body_fails with (X := blankOrSlash);
    [ reflexivity | reflexivity | exact H
    | apply excluded_by_enum with (l := 33 :: 47 :: spaces);
      [ exact blankOrSlash_enum | vm_compute; reflexivity ] ] ].

Lemma obvious_needs_content t :
  delimiterOnly t = true -> test OBVIOUS_VERBS t = false.
Proof. unfold OBVIOUS_VERBS. on_delimiter_text. Qed.

Lemma narrator_needs_content t :
  delimiterOnly t = true -> test NARRATOR_PATTERN t = false.
Proof. unfold NARRATOR_PATTERN. on_delimiter_text. Qed.

Lemma step_needs_content t :
  delimiterOnly t = true -> test STEP_PATTERN t = false.
Proof. unfold STEP_PATTERN. on_delimiter_text. Qed.

Lemma placeholder_needs_content t :
  delimiterOnly t = true -> test PLACEHOLDER_PATTERN t = false.
Proof. unfold PLACEHOLDER_PATTERN. on_delimiter_text. Qed.

Lemma apologetic_needs_content t :
  delimiterOnly t = true -> test APOLOGETIC_PATTERN t = false.
Proof. unfold APOLOGETIC_PATTERN. on_delimiter_text. Qed.

Lemma ai_specific_needs_content t :
  delimiterOnly t = true -> test AI_SPECIFIC_PATTERN t = false.
Proof. unfold AI_SPECIFIC_PATTERN. on_delimiter_text. Qed.

Lemma divider_needs_content t :
  delimiterOnly t = true ->
  existsb (fun p => test p t) DIVIDER_PATTERNS = false.
Proof.
  intros H. unfold DIVIDER_PATTERNS. cbv beta iota delta [existsb].
  rewrite !orb_false_iff. repeat split; revert H.
  - on_delimiter_text_line.
  - on_delimiter_text_line.
  - on_delimiter_text_line.
Qed.

(* ================================================================== *)
(** * The marker pattern *)
(* ================================================================== *)

Lemma lastOpt_cons (p : option char) (a : char) (w : jsstring) :
  lastOpt p (a :: w) = lastOpt (Some a) w.
Proof.
  unfold lastOpt. simpl. destruct (rev w); reflexivity.
Qed.

Lemma lastOpt_app (p : option char) (u w : jsstring) :
  lastOpt p (u ++ w) = lastOpt (lastOpt p u) w.
Proof.
  revert p. induction u as [|a u IH]; intros p; simpl; [reflexivity|].
  now rewrite !lastOpt_cons, IH.
Qed.

(** A run of pattern characters matches exactly itself. *)
Lemma matchRe_seqOf_CChar (w : jsstring) :
  forall p s k,
    matchRe (seqOf CChar w) p s k
    = match stripPrefix w s with
      | Some rest => k (lastOpt p w) rest
      | None => false
      end.
Proof.
  induction w as [|a w IH]; intros p s k; [reflexivity|].
  rewrite lastOpt_cons.
  destruct w as [|b w].
  - simpl. destruct s as [|x s]; [reflexivity|].
    destruct (x =? a) eqn:E; [|reflexivity].
    apply N.eqb_eq in E. now subst.
  - change (seqOf CChar (a :: b :: w))
      with (Sym (CChar a) ;; seqOf CChar (b :: w))%re.
    rewrite matchRe_Cat.
    destruct s as [|x s]; [reflexivity|].
    cbn [matchRe in_cset stripPrefix].
    destruct (x =? a) eqn:E; [|reflexivity].
    apply N.eqb_eq in E. subst. apply IH.
Qed.

Lemma matchRe_alts (rs : list regex) p s k :
  matchRe (alts rs) p s k = existsb (fun r => matchRe r p s k) rs.
Proof.
  induction rs as [|r rs IH].
  - simpl. destruct s; reflexivity.
  - destruct rs as [|r' rs].
    + simpl. now rewrite orb_false_r.
    + change (alts (r :: r' :: rs)) with (r <|> alts (r' :: rs))%re.
      cbn [matchRe existsb]. rewrite IH.
      destruct (matchRe r p s k); reflexivity.
Qed.

(** [test] finds a match at some position of the text. *)
Lemma searchFrom_spec (r : regex) (s : jsstring) :
  forall p,
    searchFrom r p s = true <->
    exists pre post,
      s = pre ++ post /\ matchRe r (lastOpt p pre) post accept = true.
Proof.
  induction s as [|x s IH]; intros p; simpl.
  - split.
    + destruct (matchRe r p [] accept) eqn:E; [|discriminate].
      intros _. exists [], []. auto.
    + intros (pre & post & Hs & Hm). symmetry in Hs.
      apply app_eq_nil in Hs. destruct Hs as [-> ->]. simpl in Hm.
      change (lastOpt p []) with p in Hm. now rewrite Hm.
  - split.
    + destruct (matchRe r p (x :: s) accept) eqn:E.
      * intros _. exists [], (x :: s). auto.
      * intros H. apply IH in H. destruct H as (pre & post & -> & Hm).
        exists (x :: pre), post. rewrite lastOpt_cons. auto.
    + intros (pre & post & Hs & Hm).
      destruct pre as [|y pre].
      * simpl in Hs. subst post. change (lastOpt p []) with p in Hm.
        now rewrite Hm.
      * simpl in Hs. injection Hs as <- ->. rewrite lastOpt_cons in Hm.
        destruct (matchRe r p _ accept); [reflexivity|].
        apply IH. eauto.
Qed.

(** Every marker begins and ends with a word character. *)
Lemma markers_are_words (w : string) :
  In w MARKERS ->
  exists a w', js w = a :: w' /\ isWord a = true
               /\ forall p, isWordAt (lastOpt p (js w)) = true.
Proof.
  intros Hin.
  assert (Hall : forallb markerShape MARKERS = true) by reflexivity.
  rewrite forallb_forall in Hall. specialize (Hall w Hin).
  unfold markerShape in Hall.
  destruct (js w) as [|a w'] eqn:E; [discriminate|].
  apply andb_true_iff in Hall. destruct Hall as [Ha Hl].
  exists a, w'. repeat split; auto.
  intros p. rewrite lastOpt_cons in *. exact Hl.
Qed.

(** One alternative of the marker pattern of the later revision. *)
Lemma matchRe_marker (w : string) (p : option char) (s : jsstring) :
  In w MARKERS ->
  matchRe (WordB ;; lit w ;; WordB) p s accept = true <->
  exists post,
    s = js w ++ post /\ isWordAt p = false
    /\ isWordAt (hd_error post) = false.
Proof.
  intros Hin. destruct (markers_are_words w Hin) as (a & w' & Hw & Ha & Hl).
  rewrite !matchRe_Cat. cbn [matchRe]. unfold lit.
  split.
  - destruct (xorb (isWordAt p) (isWordAt (hd_error s))) eqn:B1;
      [|discriminate].
    rewrite matchRe_seqOf_CChar.
    destruct (stripPrefix (js w) s) as [post|] eqn:E; [|discriminate].
    apply stripPrefix_app in E. subst s.
    rewrite Hl. intros B2.
    exists post. split; [reflexivity|].
    rewrite Hw in B1. simpl in B1. rewrite Ha in B1.
    destruct (isWordAt p); [discriminate|].
    destruct (isWordAt (hd_error post)); [discriminate|]. auto.
  - intros (post & -> & Hp & Hpost).
    rewrite Hp. rewrite Hw at 1. simpl hd_error. cbn [isWordAt].
    rewrite Ha. simpl xorb.
    rewrite matchRe_seqOf_CChar, stripPrefix_app_eq, Hl, Hpost.
    reflexivity.
Qed.

(** The marker pattern of the later revision decides what the
    specification says of the marker ground. *)
Lemma keeper_rev_spec (t : jsstring) :
  test comments_rev.KEEPER_PATTERN t = true <-> containsMarker t.
Proof.
  unfold test, comments_rev.KEEPER_PATTERN, containsMarker.
  rewrite searchFrom_spec. split.
  - intros (pre & post & -> & Hm).
    rewrite matchRe_alts in Hm. apply existsb_exists in Hm.
    destruct Hm as (r & Hr & Hm). apply in_map_iff in Hr.
    destruct Hr as (w & <- & Hin).
    apply (matchRe_marker w _ _ Hin) in Hm.
    destruct Hm as (post' & -> & Hp & Hpost).
    exists w, pre, post'. auto.
  - intros (w & pre & post & Hin & -> & Hp & Hpost).
    exists pre, (js w ++ post). split; [reflexivity|].
    rewrite matchRe_alts. apply existsb_exists.
    exists (WordB ;; lit w ;; WordB)%re. split.
    + apply in_map_iff. exists w. auto.
    + apply (matchRe_marker w _ _ Hin). eauto.
Qed.

(* ================================================================== *)
(** * The scanner, loop by loop *)
(* ================================================================== *)

Section ScannerFacts.

Context `{AstGrep}.
Variables (C E : list Rule.t).
Variables (lang : LanguageConfig.t) (filename : string).

(** The innermost loop appends the diagnostics of the visit. *)
Lemma checkNode_block (rules : list Rule.t) (node : SgNode) :
  forall diagnostics,
    checkNode rules lang filename diagnostics node
    = diagnostics ++ block rules lang filename node.
Proof.
  unfold checkNode, block, firing.
  induction rules as [|r rules IH]; intros diagnostics; simpl.
  - now rewrite app_nil_r.
  - rewrite IH. destruct (Rule.check r node lang); simpl; [|reflexivity].
    unfold push. now rewrite <- app_assoc.
Qed.

Lemma fold_checkNode (rules : list Rule.t) (nodes : list SgNode) :
  forall diagnostics,
    fold_left (checkNode rules lang filename) nodes diagnostics
    = diagnostics ++ flat_map (block rules lang filename) nodes.
Proof.
  induction nodes as [|n nodes IH]; intros diagnostics; simpl.
  - now rewrite app_nil_r.
  - now rewrite IH, checkNode_block, <- app_assoc.
Qed.

Lemma findAll_kind (k : string) (root : SgNode) :
  findAll (KindRule k) root = filter (hasKind k) (dfs root).
Proof. reflexivity. Qed.

(** A pass appends the diagnostics of its visits, in their order. *)
Lemma scanKinds_visits (kinds : list string) (rules : list Rule.t)
    (root : SgNode) :
  forall diagnostics,
    scanKinds kinds rules root lang filename diagnostics
    = diagnostics
        ++ flat_map (block rules lang filename) (visits kinds root).
Proof.
  unfold scanKinds, visits.
  induction kinds as [|k kinds IH]; intros diagnostics; simpl.
  - now rewrite app_nil_r.
  - rewrite IH, fold_checkNode, findAll_kind, flat_map_app.
    now rewrite <- app_assoc.
Qed.

Lemma block_no_rules (nodes : list SgNode) :
  flat_map (block [] lang filename) nodes = [].
Proof. induction nodes; simpl; auto. Qed.

(** The scan is the diagnostics of the visits of pass A followed by those
    of the visits of pass B. *)
Lemma scanSource_visits (source : jsstring) :
  scanSource C E source lang filename
  = flat_map (block C lang filename)
      (visits (LanguageConfig.commentKinds lang)
              (parse (LanguageConfig.lang lang) source))
    ++ flat_map (block (astRules C E lang) lang filename)
         (visits (astRuleKinds (LanguageConfig.lang lang))
                 (parse (LanguageConfig.lang lang) source)).
Proof.
  unfold scanSource, astRules, rulesForLanguage. cbn [snd].
  destruct (filter (appliesTo lang) E) as [|r rs] eqn:Ef;
    cbn [List.length Nat.ltb Nat.leb];
    rewrite !scanKinds_visits, ?block_no_rules, ?app_nil_r;
    reflexivity.
Qed.

Lemma block_hitsOn (rules : list Rule.t) (nodes : list SgNode) :
  flat_map (block rules lang filename) nodes
  = map (fun h => makeDiagnostic (fst h) (snd h) filename)
        (flat_map (hitsOn rules lang) nodes).
Proof.
  induction nodes as [|n nodes IH]; simpl; [reflexivity|].
  rewrite map_app, IH. f_equal.
  unfold block, hitsOn. now rewrite map_map.
Qed.

(** Every diagnostic of the scan is made from a hit, in the order of the
    hits. *)
Lemma scanSource_hits (source : jsstring) :
  scanSource C E source lang filename
  = map (fun h => makeDiagnostic (fst h) (snd h) filename)
        (scanHits C E source lang).
Proof.
  rewrite scanSource_visits. unfold scanHits, commentHits, astHits.
  now rewrite map_app, !block_hitsOn.
Qed.

Lemma in_visits (kinds : list string) (root node : SgNode) :
  In node (visits kinds root)
  <-> In node (dfs root) /\ isNamed node = true /\ In (kind node) kinds.
Proof.
  unfold visits, hasKind. rewrite in_flat_map. split.
  - intros (k & Hk & Hn). apply filter_In in Hn.
    destruct Hn as [Hn He]. apply andb_true_iff in He.
    destruct He as [Hnamed He]. apply String.eqb_eq in He. subst. auto.
  - intros (Hn & Hnamed & Hk). exists (kind node). split; [exact Hk|].
    apply filter_In. split; [exact Hn|].
    now rewrite Hnamed, String.eqb_refl.
Qed.

Lemma in_hitsOn (rules : list Rule.t) (r : Rule.t) (node n : SgNode) :
  In (r, node) (hitsOn rules lang n)
  <-> n = node /\ In r rules /\ Rule.check r node lang = true.
Proof.
  unfold hitsOn, firing. rewrite in_map_iff. split.
  - intros (r' & Heq & Hr). injection Heq as -> ->.
    apply filter_In in Hr. tauto.
  - intros (-> & Hr & Hc). exists r. split; [reflexivity|].
    apply filter_In. auto.
Qed.

(** A hit of pass A: a rule of the comment table that answers on a named
    node of a comment kind. *)
Lemma in_commentHits (source : jsstring) (r : Rule.t) (node : SgNode) :
  In (r, node) (commentHits C source lang)
  <-> In node (dfs (parse (LanguageConfig.lang lang) source))
      /\ isNamed node = true
      /\ In (kind node) (LanguageConfig.commentKinds lang)
      /\ In r C /\ Rule.check r node lang = true.
Proof.
  unfold commentHits. rewrite in_flat_map. split.
  - intros (n & Hn & Hh). apply in_hitsOn in Hh.
    destruct Hh as (-> & Hr & Hc). apply in_visits in Hn. tauto.
  - intros (Hn & Hnamed & Hk & Hr & Hc). exists node. split.
    + apply in_visits. auto.
    + apply in_hitsOn. auto.
Qed.

(** A hit of pass B: an applicable rule of the structural table that
    answers on a named node of a kind listed for the language. *)
Lemma in_astHits (source : jsstring) (r : Rule.t) (node : SgNode) :
  In (r, node) (astHits C E source lang)
  <-> In node (dfs (parse (LanguageConfig.lang lang) source))
      /\ isNamed node = true
      /\ In (kind node) (astRuleKinds (LanguageConfig.lang lang))
      /\ In r E /\ appliesTo lang r = true
      /\ Rule.check r node lang = true.
Proof.
  unfold astHits, astRules, rulesForLanguage. cbn [snd].
  rewrite in_flat_map. split.
  - intros (n & Hn & Hh). apply in_hitsOn in Hh.
    destruct Hh as (-> & Hr & Hc). apply in_visits in Hn.
    apply filter_In in Hr. tauto.
  - intros (Hn & Hnamed & Hk & Hr & Ha & Hc). exists node. split.
    + apply in_visits. auto.
    + apply in_hitsOn. repeat split; auto. apply filter_In. auto.
Qed.

End ScannerFacts.

(* ================================================================== *)
(** * The rules *)
(* ================================================================== *)

Lemma commentCheck_true (K : regex) (m : jsstring -> bool)
    (node : SgNode) (lang : LanguageConfig.t) :
  commentCheck K m node lang = true
  <-> isComment node lang = true
      /\ shouldKeep K (commentText node) lang = false
      /\ m (commentText node) = true.
Proof.
  unfold commentCheck.
  destruct (isComment node lang), (shouldKeep K (commentText node) lang),
    (m (commentText node)); simpl; intuition congruence.
Qed.

Lemma classifiers_rules (rev : revision) :
  map fst (Program.classifiers rev) = Program.commentRules rev.
Proof. destruct rev; reflexivity. Qed.

(** The [check] of a comment rule is the shared body over its pattern. *)
Lemma classifier_check (rev : revision) (r : Rule.t) (m : jsstring -> bool) :
  In (r, m) (Program.classifiers rev) ->
  Rule.check r = commentCheck (Program.KEEPER_PATTERN rev) m.
Proof.
  destruct rev; cbn [Program.classifiers app In];
    intros Hin;
    repeat (destruct Hin as [Hin|Hin];
            [injection Hin as <- <-; reflexivity|]);
    contradiction.
Qed.

Lemma comment_rule_classifier (rev : revision) (r : Rule.t) :
  In r (Program.commentRules rev) ->
  exists m, In (r, m) (Program.classifiers rev).
Proof.
  rewrite <- classifiers_rules, in_map_iff.
  intros ([r' m] & <- & Hin). exists m. exact Hin.
Qed.

(** A comment rule answers on comment nodes that the filter does not keep,
    and on no other. *)
Lemma comment_rule_answers (rev : revision) (r : Rule.t)
    (node : SgNode) (lang : LanguageConfig.t) :
  In r (Program.commentRules rev) ->
  Rule.check r node lang = true ->
  isComment node lang = true
  /\ Program.shouldKeep rev (commentText node) lang = false.
Proof.
  intros Hr Hc. destruct (comment_rule_classifier rev r Hr) as (m & Hm).
  rewrite (classifier_check rev r m Hm) in Hc.
  apply commentCheck_true in Hc. unfold Program.shouldKeep. tauto.
Qed.

(** A structural rule answers on handler nodes only. *)
Lemma structural_rule_answers `{AstGrep} (rev : revision) (r : Rule.t)
    (node : SgNode) (lang : LanguageConfig.t) :
  In r (Program.errorHandlingRules rev) ->
  Rule.check r node lang = true ->
  In (kind node) handlerKindNames.
Proof.
  intros Hr Hc.
  assert (Hall : In r errorHandlingRules_bundle).
  { destruct rev; [|exact Hr].
    unfold errorHandlingRules_bundle. apply in_or_app. left. exact Hr. }
  clear Hr. unfold errorHandlingRules_bundle, errorHandlingRules in Hall.
  cbn [app In] in Hall. unfold handlerKindNames.
  repeat (destruct Hall as [<-|Hall]); try contradiction;
    cbn [Rule.check emptyCatchTS emptyCatchJava bareExceptPython
         passInExceptPython consoleLogInCatchTS emptyRescueRuby] in Hc;
    match type of Hc with
    | context [String.eqb (kind node) ?k] =>
        destruct (String.eqb (kind node) k) eqn:Ek;
        [apply String.eqb_eq in Ek; rewrite Ek; simpl; tauto
        |discriminate]
    end.
Qed.

(** The comment kinds of the registered languages. *)
Lemma registry_comment_kinds (lang : LanguageConfig.t) (node : SgNode) :
  In lang registry ->
  isComment node lang = true ->
  In (kind node) commentKindNames.
Proof.
  unfold registry, LANGUAGES_bundle, LANGUAGES. cbn [app map snd In].
  unfold isComment, includes, commentKindNames.
  intros Hl Hc.
  repeat (destruct Hl as [<-|Hl]); try contradiction;
    cbn [LanguageConfig.commentKinds typescript javascript python go rust c
         cpp java ruby existsb] in Hc;
    rewrite ?orb_false_r in Hc;
    repeat (apply orb_true_iff in Hc; destruct Hc as [Hc|Hc]);
    apply String.eqb_eq in Hc; rewrite Hc; simpl; tauto.
Qed.

Lemma comment_kind_not_handler (k : string) :
  In k commentKindNames -> ~ In k handlerKindNames.
Proof.
  unfold commentKindNames, handlerKindNames. simpl.
  intros [<-|[<-|[<-|[]]]]; intuition discriminate.
Qed.

(** No structural rule answers on a comment node of a registered
    language. *)
Lemma no_structural_hit_on_comment `{AstGrep} (rev : revision)
    (source : jsstring) (lang : LanguageConfig.t) (node : SgNode)
    (r : Rule.t) :
  In lang registry ->
  isComment node lang = true ->
  ~ In (r, node)
       (astHits (Program.commentRules rev) (Program.errorHandlingRules rev)
                source lang).
Proof.
  intros Hl Hc Hin. apply in_astHits in Hin.
  destruct Hin as (_ & _ & _ & Hr & _ & Hcheck).
  apply (comment_kind_not_handler (kind node)).
  - now apply registry_comment_kinds with (lang := lang).
  - now apply structural_rule_answers with (rev := rev) (r := r) (lang := lang).
Qed.

(* ================================================================== *)
(** * Suppression *)
(* ================================================================== *)

(** C1.  Suppression precedence.  Let [node] be a comment node of a file in
    a registered language whose trimmed text contains a marker of the
    revision's marker pattern or matches the tool-directive pattern of the
    language.  Then no rule of the comment table answers on it, and the
    scan, which is made hit by hit from [scanHits], has no hit on that node
    in either pass: no diagnostic is emitted for it, whatever classifier
    patterns its text matches. *)
Theorem suppression_precedence `{AstGrep} (rev : revision)
    (source : jsstring) (lang : LanguageConfig.t) (filename : string)
    (node : SgNode) :
  In lang registry ->
  isComment node lang = true ->
  test (Program.KEEPER_PATTERN rev) (commentText node) = true
  \/ isToolDirective (commentText node) lang = true ->
  (forall r, In r (Program.commentRules rev) ->
             Rule.check r node lang = false)
  /\ Program.scanSource rev source lang filename
     = map (fun h => makeDiagnostic (fst h) (snd h) filename)
           (Program.scanHits rev source lang)
  /\ forall r, ~ In (r, node) (Program.scanHits rev source lang).
Proof.
  intros Hl Hc Hkeep.
  assert (Hk : Program.shouldKeep rev (commentText node) lang = true).
  { unfold Program.shouldKeep, shouldKeep. apply orb_true_iff. exact Hkeep. }
  assert (Hrules : forall r, In r (Program.commentRules rev) ->
                             Rule.check r node lang = false).
  { intros r Hr. destruct (Rule.check r node lang) eqn:E; [|reflexivity].
    destruct (comment_rule_answers rev r node lang Hr E) as [_ Hn].
    congruence. }
  split; [exact Hrules|]. split; [apply scanSource_hits|].
  intros r Hin. unfold Program.scanHits, scanHits in Hin.
  apply in_app_or in Hin. destruct Hin as [Hin|Hin].
  - apply in_commentHits in Hin. destruct Hin as (_ & _ & _ & Hr & Hcheck).
    rewrite (Hrules r Hr) in Hcheck. discriminate.
  - exact (no_structural_hit_on_comment rev source lang node r Hl Hc Hin).
Qed.

(** The instance of C1 on the comment [// Step 1: TODO validate] of a
    TypeScript file, which the step pattern matches. *)
Lemma suppression_precedence_witness :
  let node := Samples.commentNode "comment" (js "// Step 1: TODO validate") 0 in
  let engine := Samples.engineOf
                  (Samples.commentProgram "comment"
                     (js "// Step 1: TODO validate")) in
  test STEP_PATTERN (commentText node) = true
  /\ (forall r, In r (Program.commentRules bundled) ->
                Rule.check r node typescript = false)
  /\ @Program.scanSource engine bundled [] typescript "a.ts"
     = map (fun h => makeDiagnostic (fst h) (snd h) "a.ts")
           (@Program.scanHits engine bundled [] typescript)
  /\ forall r, ~ In (r, node) (@Program.scanHits engine bundled [] typescript).
Proof.
  intros node engine. split; [reflexivity|].
  apply (@suppression_precedence engine bundled [] typescript "a.ts" node).
  - left; reflexivity.
  - reflexivity.
  - left; reflexivity.
Defined.

(** No classifier of either revision matches a delimiter-only text. *)
Lemma classifiers_need_content (rev : revision) (t : jsstring) :
  delimiterOnly t = true ->
  forall r m, In (r, m) (Program.classifiers rev) -> m t = false.
Proof.
  intros Ht r m Hin.
  destruct rev; cbn [Program.classifiers app In] in Hin;
    repeat (destruct Hin as [Hin|Hin];
            [injection Hin as <- <-;
             first [ exact (obvious_needs_content t Ht)
                   | exact (narrator_needs_content t Ht)
                   | exact (step_needs_content t Ht)
                   | exact (divider_needs_content t Ht)
                   | exact (placeholder_needs_content t Ht)
                   | exact (apologetic_needs_content t Ht)
                   | exact (ai_specific_needs_content t Ht) ]|]);
    contradiction.
Qed.

(** C7.  Let [node] be a comment node of a file in a registered language
    whose text, once trimmed, is empty or is only a comment delimiter and
    white space.  Then the pattern of no classifier rule matches the text, no
    rule of the comment table answers on the node, and the scan has no hit
    on it, so no diagnostic is emitted for it. *)
Theorem bare_delimiter_never_flagged `{AstGrep} (rev : revision)
    (source : jsstring) (lang : LanguageConfig.t) (filename : string)
    (node : SgNode) :
  In lang registry ->
  isComment node lang = true ->
  delimiterOnly (commentText node) = true ->
  (forall r m, In (r, m) (Program.classifiers rev) ->
               m (commentText node) = false)
  /\ (forall r, In r (Program.commentRules rev) ->
                Rule.check r node lang = false)
  /\ Program.scanSource rev source lang filename
     = map (fun h => makeDiagnostic (fst h) (snd h) filename)
           (Program.scanHits rev source lang)
  /\ forall r, ~ In (r, node) (Program.scanHits rev source lang).
Proof.
  intros Hl Hc Ht.
  assert (Hpat : forall r m, In (r, m) (Program.classifiers rev) ->
                             m (commentText node) = false)
    by (apply classifiers_need_content; exact Ht).
  assert (Hrules : forall r, In r (Program.commentRules rev) ->
                             Rule.check r node lang = false).
  { intros r Hr. destruct (comment_rule_classifier rev r Hr) as (m & Hm).
    rewrite (classifier_check rev r m Hm).
    destruct (commentCheck _ m node lang) eqn:E; [|reflexivity].
    apply commentCheck_true in E. rewrite (Hpat r m Hm) in E.
    destruct E as (_ & _ & E). discriminate. }
  split; [exact Hpat|]. split; [exact Hrules|].
  split; [apply scanSource_hits|].
  intros r Hin. unfold Program.scanHits, scanHits in Hin.
  apply in_app_or in Hin. destruct Hin as [Hin|Hin].
  - apply in_commentHits in Hin. destruct Hin as (_ & _ & _ & Hr & Hcheck).
    rewrite (Hrules r Hr) in Hcheck. discriminate.
  - exact (no_structural_hit_on_comment rev source lang node r Hl Hc Hin).
Qed.

(** The instance of C7 on a Python comment that is [#] and three blanks. *)
Lemma bare_delimiter_never_flagged_witness :
  let node := Samples.commentNode "comment" (js "#   ") 0 in
  let engine := Samples.engineOf
                  (Samples.commentProgram "comment" (js "#   ")) in
  commentText node = js "#"
  /\ (forall r m, In (r, m) (Program.classifiers bundled) ->
                  m (commentText node) = false)
  /\ (forall r, In r (Program.commentRules bundled) ->
                Rule.check r node python = false)
  /\ @Program.scanSource engine bundled [] python "a.py"
     = map (fun h => makeDiagnostic (fst h) (snd h) "a.py")
           (@Program.scanHits engine bundled [] python)
  /\ forall r, ~ In (r, node) (@Program.scanHits engine bundled [] python).
Proof.
  intros node engine. split; [reflexivity|].
  apply (@bare_delimiter_never_flagged engine bundled [] python "a.py" node).
  - right; right; left; reflexivity.
  - reflexivity.
  - reflexivity.
Defined.

(* ================================================================== *)
(** * The marker ground *)
(* ================================================================== *)

(** In the later revision a marker in lower case, or inside a longer word,
    does not suppress. *)
Lemma keeper_rev_lowercase_embedded :
  test comments_rev.KEEPER_PATTERN (js "// todo: fix the notebook") = false
  /\ test comments_rev.KEEPER_PATTERN (js "// Initialize the debug logger")
     = false
  /\ test comments_rev.KEEPER_PATTERN (js "// TODOS and BUGS") = false
  /\ test comments_rev.KEEPER_PATTERN (js "// TODO: optimize later") = true.
Proof. repeat split; reflexivity. Qed.

(** C2.  The marker pattern of the later revision is true of a text exactly
    when the text contains a marker in the sense of the specification, in
    capitals and between word boundaries.  The pattern at
    [src/rules/comments.ts] is not: the text [// Initialize the debug
    logger] contains no marker, the letters [bug] being in lower case and
    inside the word [debug], yet that pattern matches it, the filter keeps
    the comment, and the scan of a file that consists of this comment
    reports nothing, although the pattern of the obvious-comment rule
    matches; the later revision reports it. *)
Theorem keeper_revisions_disagree :
  let t := js "// Initialize the debug logger" in
  let engine := Samples.engineOf (Samples.commentProgram "comment" t) in
  (forall text,
     test (Program.KEEPER_PATTERN bundled) text = true
     <-> containsMarker text)
  /\ ~ containsMarker t
  /\ test (Program.KEEPER_PATTERN src_tree) t = true
  /\ Program.shouldKeep src_tree t typescript = true
  /\ isToolDirective t typescript = false
  /\ test OBVIOUS_VERBS t = true
  /\ @Program.scanSource engine src_tree t typescript "a.ts" = []
  /\ map Diagnostic.rule
         (@Program.scanSource engine bundled t typescript "a.ts")
     = ["obvious-comment"].
Proof.
  intros t engine. split; [exact keeper_rev_spec|]. split.
  - intros Hm. apply keeper_rev_spec in Hm. discriminate Hm.
  - repeat split; reflexivity.
Qed.

(* ================================================================== *)
(** * One diagnostic for each rule that matches *)
(* ================================================================== *)

Lemma isComment_kind (node : SgNode) (lang : LanguageConfig.t) :
  isComment node lang = true ->
  In (kind node) (LanguageConfig.commentKinds lang).
Proof.
  unfold isComment, includes. intros H. apply existsb_exists in H.
  destruct H as (k & Hk & He). apply String.eqb_eq in He. now subst.
Qed.

Lemma filter_map_fst {A B : Type} (p : A -> bool) (l : list (A * B)) :
  filter p (map fst l) = map fst (filter (fun x => p (fst x)) l).
Proof.
  induction l as [|x l IH]; simpl; [reflexivity|].
  destruct (p (fst x)); simpl; now rewrite IH.
Qed.

(** The diagnostics of a visit stand in the scan as one run. *)
Lemma visit_in_scan `{AstGrep} (C E : list Rule.t) (source : jsstring)
    (lang : LanguageConfig.t) (filename : string) (node : SgNode) :
  In node (dfs (parse (LanguageConfig.lang lang) source)) ->
  isNamed node = true ->
  In (kind node) (LanguageConfig.commentKinds lang) ->
  exists before after,
    scanSource C E source lang filename
    = before ++ block C lang filename node ++ after.
Proof.
  intros Hn Hnamed Hk. rewrite scanSource_visits.
  assert (Hv : In node (visits (LanguageConfig.commentKinds lang)
                               (parse (LanguageConfig.lang lang) source)))
    by (apply in_visits; auto).
  apply in_split in Hv. destruct Hv as (l1 & l2 & ->).
  rewrite flat_map_app. cbn [flat_map].
  exists (flat_map (block C lang filename) l1).
  eexists. rewrite <- !app_assoc. reflexivity.
Qed.

(** C3.  Multi-rule independence.  Let [node] be a comment node of the tree,
    a named node as the comment nodes of the grammars are, that the filter
    does not keep.  The diagnostics of its visit are one for
    each classifier whose pattern matches its trimmed text, in the order of
    the table and each with the identifier of its rule; they stand in the
    result of the scan as one run.  Nothing selects a best match among
    them. *)
Theorem multi_rule_independence `{AstGrep} (rev : revision)
    (source : jsstring) (lang : LanguageConfig.t) (filename : string)
    (node : SgNode) :
  In node (dfs (parse (LanguageConfig.lang lang) source)) ->
  isNamed node = true ->
  isComment node lang = true ->
  Program.shouldKeep rev (commentText node) lang = false ->
  let matching :=
    filter (fun rm => snd rm (commentText node)) (Program.classifiers rev) in
  let emitted := block (Program.commentRules rev) lang filename node in
  emitted = map (fun rm => makeDiagnostic (fst rm) node filename) matching
  /\ map Diagnostic.rule emitted = map (fun rm => Rule.id (fst rm)) matching
  /\ List.length emitted = List.length matching
  /\ exists before after,
       Program.scanSource rev source lang filename
       = before ++ emitted ++ after.
Proof.
  intros Hn Hnamed Hc Hk matching emitted.
  assert (He : emitted
               = map (fun rm => makeDiagnostic (fst rm) node filename)
                     matching).
  { unfold emitted, matching, block, firing.
    rewrite <- classifiers_rules, filter_map_fst, map_map.
    f_equal. apply filter_ext_in. intros [r m] Hin. cbn [fst snd].
    rewrite (classifier_check rev r m Hin). unfold commentCheck.
    unfold Program.shouldKeep in Hk. rewrite Hc, Hk. cbn [negb].
    destruct (m (commentText node)); reflexivity. }
  split; [exact He|]. split; [|split].
  - rewrite He, map_map. reflexivity.
  - rewrite He. apply length_map.
  - apply visit_in_scan; [exact Hn|exact Hnamed|now apply isComment_kind].
Qed.

(** The instance of C3 on the comment [// handle remaining cases similarly]
    of a TypeScript file: an imperative opener and a placeholder at once. *)
Lemma multi_rule_independence_witness :
  let t := js "// handle remaining cases similarly" in
  let node := Samples.commentNode "comment" t 0 in
  let engine := Samples.engineOf (Samples.commentProgram "comment" t) in
  let matching :=
    filter (fun rm => snd rm (commentText node))
           (Program.classifiers bundled) in
  let emitted :=
    block (Program.commentRules bundled) typescript "a.ts" node in
  map (fun rm => Rule.id (fst rm)) matching
  = ["obvious-comment"; "placeholder-comment"]
  /\ emitted
     = map (fun rm => makeDiagnostic (fst rm) node "a.ts") matching
  /\ map Diagnostic.rule emitted = map (fun rm => Rule.id (fst rm)) matching
  /\ List.length emitted = List.length matching
  /\ exists before after,
       @Program.scanSource engine bundled t typescript "a.ts"
       = before ++ emitted ++ after.
Proof.
  intros t node engine. split; [vm_compute; reflexivity|].
  apply (@multi_rule_independence engine bundled t typescript "a.ts" node).
  - right; left; reflexivity.
  - reflexivity.
  - reflexivity.
  - vm_compute; reflexivity.
Defined.

(* ================================================================== *)
(** * The order of the diagnostics *)
(* ================================================================== *)

Lemma flat_map_visits {A : Type} (f : SgNode -> list A)
    (kinds : list string) (root : SgNode) :
  flat_map f (visits kinds root)
  = flat_map
      (fun k => flat_map f (filter (hasKind k) (dfs root))) kinds.
Proof.
  unfold visits. induction kinds as [|k kinds IH]; simpl; [reflexivity|].
  now rewrite flat_map_app, IH.
Qed.

(** C4.  Ordering.  The result of a scan is the diagnostics of pass A
    followed by those of pass B.  A pass goes through its node kinds in the
    order of their list; for each kind it goes through the nodes that
    [findAll] selects, the named nodes of that kind, in the order in which
    the pre-order walk of the tree meets them, and for each node through
    the rules in the order of the table.  Nothing else orders the
    result. *)
Theorem scan_order `{AstGrep} (C E : list Rule.t) (source : jsstring)
    (lang : LanguageConfig.t) (filename : string) :
  let root := parse (LanguageConfig.lang lang) source in
  let ofKind k := filter (hasKind k) (dfs root) in
  let passA :=
    flat_map (fun k => flat_map (block C lang filename) (ofKind k))
             (LanguageConfig.commentKinds lang) in
  let passB :=
    flat_map
      (fun k => flat_map (block (astRules C E lang) lang filename) (ofKind k))
      (astRuleKinds (LanguageConfig.lang lang)) in
  scanSource C E source lang filename = passA ++ passB.
Proof.
  intros root ofKind passA passB.
  rewrite scanSource_visits, !flat_map_visits. reflexivity.
Qed.

(* ================================================================== *)
(** * Language isolation *)
(* ================================================================== *)

Lemma comment_rule_languages (rev : revision) (r : Rule.t) :
  In r (Program.commentRules rev) -> Rule.languages r = None.
Proof.
  destruct rev; cbn [Program.commentRules comments_ts.commentRules
                     comments_rev.commentRules In];
    intros Hin; repeat (destruct Hin as [<-|Hin]; [reflexivity|]);
    contradiction.
Qed.

(** C5.  Language isolation.  A rule whose list of languages does not
    include the language of the file has no hit in the scan of that file, on
    any node, whatever the kinds of the nodes; and the diagnostics of the
    scan are made from its hits. *)
Theorem language_isolation `{AstGrep} (rev : revision) (source : jsstring)
    (lang : LanguageConfig.t) (filename : string)
    (r : Rule.t) (ls : list string) :
  Rule.languages r = Some ls ->
  includes ls (LanguageConfig.lang lang) = false ->
  (forall node, ~ In (r, node) (Program.scanHits rev source lang))
  /\ Program.scanSource rev source lang filename
     = map (fun h => makeDiagnostic (fst h) (snd h) filename)
           (Program.scanHits rev source lang).
Proof.
  intros Hls Hnot. split; [|apply scanSource_hits].
  intros node Hin. unfold Program.scanHits, scanHits in Hin.
  apply in_app_or in Hin. destruct Hin as [Hin|Hin].
  - apply in_commentHits in Hin. destruct Hin as (_ & _ & _ & Hr & _).
    apply comment_rule_languages in Hr. congruence.
  - apply in_astHits in Hin. destruct Hin as (_ & _ & _ & _ & Ha & _).
    unfold appliesTo in Ha. rewrite Hls in Ha. congruence.
Qed.

(** The instance of C5 on the bare-except rule of Python and a TypeScript
    file, even if the tree of the file had an [except_clause] in it. *)
Lemma language_isolation_witness :
  let engine := Samples.engineOf Samples.pythonProgram in
  In Samples.exceptPass (dfs (@parse engine "TypeScript" []))
  /\ Rule.check bareExceptPython Samples.exceptPass typescript = true
  /\ (forall node,
        ~ In (bareExceptPython, node)
             (@Program.scanHits engine bundled [] typescript))
  /\ @Program.scanSource engine bundled [] typescript "a.ts"
     = map (fun h => makeDiagnostic (fst h) (snd h) "a.ts")
           (@Program.scanHits engine bundled [] typescript).
Proof.
  intros engine. split; [|split; [reflexivity|]].
  - vm_compute. right; right; right; right; right; left. reflexivity.
  - apply (@language_isolation engine bundled [] typescript "a.ts"
             bareExceptPython ["python"]); reflexivity.
Defined.

(* ================================================================== *)
(** * The position and the text of a diagnostic *)
(* ================================================================== *)

(** The first piece of [split] is the text up to the first separator. *)
Lemma split_first (sep : char) (s : jsstring) :
  exists rest,
    s = nth 0 (split sep s) [] ++ rest
    /\ ~ In sep (nth 0 (split sep s) [])
    /\ (rest = [] \/ hd_error rest = Some sep).
Proof.
  induction s as [|x s (rest & Hs & Hnot & Hrest)]; simpl.
  - exists []. auto.
  - destruct (x =? sep) eqn:E.
    + apply N.eqb_eq in E. subst x. exists (sep :: s). simpl. auto.
    + apply N.eqb_neq in E.
      destruct (split sep s) as [|piece pieces]; simpl in *.
      * exists rest. repeat split; auto.
        -- now rewrite Hs at 1.
        -- intros [H|[]]. congruence.
      * exists rest. repeat split; auto.
        -- now rewrite Hs at 1.
        -- intros [H|H]; [congruence|contradiction].
Qed.

(** C8.  Every diagnostic of a scan is made by [makeDiagnostic] from a rule
    and the node that the rule matched: a named node of the tree, of a
    kind that the pass of the rule visits, on which the check of the rule
    answers.  Its line and its column are the 0-indexed line and column of
    the start of the range of that node plus one, and its text is the text
    of that node up to, and without, the first newline. *)
Theorem diagnostic_position `{AstGrep} (C E : list Rule.t)
    (source : jsstring) (lang : LanguageConfig.t) (filename : string)
    (d : Diagnostic.t) :
  In d (scanSource C E source lang filename) ->
  exists r node,
    In node (dfs (parse (LanguageConfig.lang lang) source))
    /\ isNamed node = true
    /\ (In r C /\ In (kind node) (LanguageConfig.commentKinds lang)
        \/ In r E /\ appliesTo lang r = true
           /\ In (kind node) (astRuleKinds (LanguageConfig.lang lang)))
    /\ Rule.check r node lang = true
    /\ d = makeDiagnostic r node filename
    /\ Diagnostic.rule d = Rule.id r
    /\ Diagnostic.line d = Pos.line (Range.start (range node)) + 1
    /\ Diagnostic.column d = Pos.column (Range.start (range node)) + 1
    /\ Diagnostic.text d = nth 0 (split newline (text node)) []
    /\ ~ In newline (Diagnostic.text d)
    /\ exists rest,
         text node = Diagnostic.text d ++ rest
         /\ (rest = [] \/ hd_error rest = Some newline).
Proof.
  rewrite scanSource_hits, in_map_iff.
  intros ([r node] & <- & Hin). cbn [fst snd].
  exists r, node.
  assert (Hfrom :
    In node (dfs (parse (LanguageConfig.lang lang) source))
    /\ isNamed node = true
    /\ (In r C /\ In (kind node) (LanguageConfig.commentKinds lang)
        \/ In r E /\ appliesTo lang r = true
           /\ In (kind node) (astRuleKinds (LanguageConfig.lang lang)))
    /\ Rule.check r node lang = true).
  { unfold scanHits in Hin. apply in_app_or in Hin.
    destruct Hin as [Hin|Hin].
    - apply in_commentHits in Hin. tauto.
    - apply in_astHits in Hin. tauto. }
  destruct Hfrom as (Hn & Hnamed & Hr & Hc).
  destruct (split_first newline (text node)) as (rest & Hs & Hnot & Hrest).
  repeat split; auto.
  exists rest. auto.
Qed.

(** The instance of C8 on a block comment of three lines that begins at
    line 0, column 0: the diagnostics are at line 1, column 1, and carry the
    first line. *)
Lemma diagnostic_position_witness :
  let t := Samples.bannerText in
  let engine := Samples.engineOf (Samples.commentProgram "comment" t) in
  let d := makeDiagnostic (obviousComment comments_rev.KEEPER_PATTERN)
                          (Samples.commentNode "comment" t 0) "a.ts" in
  (Diagnostic.line d, Diagnostic.column d) = (1, 1)
  /\ Diagnostic.text d = js "/* handle remaining cases similarly"
  /\ exists r node,
       In node (dfs (@parse engine "TypeScript" t))
       /\ isNamed node = true
       /\ (In r comments_rev.commentRules
           /\ In (kind node) (LanguageConfig.commentKinds typescript)
           \/ In r (@errorHandlingRules_bundle engine)
              /\ appliesTo typescript r = true
              /\ In (kind node) (astRuleKinds "TypeScript"))
       /\ Rule.check r node typescript = true
       /\ d = makeDiagnostic r node "a.ts"
       /\ Diagnostic.rule d = Rule.id r
       /\ Diagnostic.line d = Pos.line (Range.start (range node)) + 1
       /\ Diagnostic.column d = Pos.column (Range.start (range node)) + 1
       /\ Diagnostic.text d = nth 0 (split newline (text node)) []
       /\ ~ In newline (Diagnostic.text d)
       /\ exists rest,
            text node = Diagnostic.text d ++ rest
            /\ (rest = [] \/ hd_error rest = Some newline).
Proof.
  intros t engine d. split; [reflexivity|]. split; [reflexivity|].
  apply (@diagnostic_position engine comments_rev.commentRules
           (@errorHandlingRules_bundle engine) t typescript "a.ts" d).
  vm_compute. left. reflexivity.
Defined.

(* ================================================================== *)
(** * The structural rules *)
(* ================================================================== *)

(** The structural rules that apply to TypeScript and JavaScript. *)
Lemma astRules_script `{AstGrep} (rev : revision) (lang : LanguageConfig.t) :
  isScript lang = true ->
  Program.astRules rev lang = [emptyCatchTS; consoleLogInCatchTS].
Proof.
  unfold isScript, Lang.TypeScript, Lang.JavaScript.
  intros Hl. apply orb_true_iff in Hl.
  unfold Program.astRules, astRules, rulesForLanguage, appliesTo. cbn [snd].
  destruct Hl as [Hl|Hl]; apply String.eqb_eq in Hl;
    destruct rev; cbn; rewrite Hl; reflexivity.
Qed.

(** The structural rules that apply to Python. *)
Lemma astRules_python `{AstGrep} (rev : revision) (lang : LanguageConfig.t) :
  LanguageConfig.lang lang = "python" ->
  Program.astRules rev lang = [bareExceptPython; passInExceptPython].
Proof.
  intros Hl.
  unfold Program.astRules, astRules, rulesForLanguage, appliesTo. cbn [snd].
  destruct rev; cbn; rewrite Hl; reflexivity.
Qed.

Lemma consoleLog_check `{AstGrep} (node : SgNode) (lang : LanguageConfig.t) :
  kind node = "catch_clause" ->
  Rule.check consoleLogInCatchTS node lang = hasConsoleLog node.
Proof.
  intros Hk. cbn [Rule.check consoleLogInCatchTS]. rewrite Hk.
  cbn [String.eqb Ascii.eqb Bool.eqb negb]. unfold findAll, hasConsoleLog.
  induction (dfs node) as [|n l IH]; [reflexivity|].
  cbn [filter existsb matchNode].
  destruct (matchesPattern "console.log($$$ARGS)" n); [reflexivity|].
  exact IH.
Qed.

Lemma emptyCatchTS_check (node body : SgNode) (lang : LanguageConfig.t) :
  kind node = "catch_clause" ->
  field "body" node = Some body ->
  Rule.check emptyCatchTS node lang
  = match namedChildren body with [] => true | _ => false end.
Proof.
  intros Hk Hb. cbn [Rule.check emptyCatchTS]. rewrite Hk, Hb.
  cbn [String.eqb Ascii.eqb Bool.eqb negb].
  destruct (namedChildren body); reflexivity.
Qed.

(** The diagnostics of a visit of pass B stand in the scan as one run. *)
Lemma handler_visit_in_scan `{AstGrep} (C E : list Rule.t)
    (source : jsstring) (lang : LanguageConfig.t) (filename : string)
    (node : SgNode) :
  In node (dfs (parse (LanguageConfig.lang lang) source)) ->
  isNamed node = true ->
  In (kind node) (astRuleKinds (LanguageConfig.lang lang)) ->
  exists before after,
    scanSource C E source lang filename
    = before ++ block (astRules C E lang) lang filename node ++ after.
Proof.
  intros Hn Hnamed Hk. rewrite scanSource_visits.
  assert (Hv : In node (visits (astRuleKinds (LanguageConfig.lang lang))
                               (parse (LanguageConfig.lang lang) source)))
    by (apply in_visits; auto).
  apply in_split in Hv. destruct Hv as (l1 & l2 & ->).
  rewrite flat_map_app. cbn [flat_map].
  exists (flat_map (block C lang filename)
            (visits (LanguageConfig.commentKinds lang)
                    (parse (LanguageConfig.lang lang) source))
          ++ flat_map (block (astRules C E lang) lang filename) l1).
  eexists. rewrite <- !app_assoc. reflexivity.
Qed.

Lemma script_lang (lang : LanguageConfig.t) :
  In lang [typescript; javascript] ->
  isScript lang = true
  /\ astRuleKinds (LanguageConfig.lang lang) = ["catch_clause"]
  /\ LanguageConfig.commentKinds lang = ["comment"].
Proof.
  intros [<-|[<-|[]]]; repeat split; reflexivity.
Qed.

(** C6.  In a TypeScript or JavaScript file, let [empty] be a catch clause
    of the tree, a named node as the grammar has it, whose body has no
    named child, and [handled] a catch clause
    whose body has one named child and whose subtree has no call
    [console.log(...)], as when the one statement calls [console.error].
    The visit of [empty] yields exactly one diagnostic with the identifier
    empty-error-handler; it is the only diagnostic of the visit when the
    clause has no call [console.log(...)] in it, and it stands in the
    result of the scan.  The visit of [handled] yields no diagnostic, and no
    scan has a hit on it. *)
Theorem catch_empty_or_handled `{AstGrep} (rev : revision)
    (source : jsstring) (lang : LanguageConfig.t) (filename : string)
    (empty emptyBody handled handledBody stmt : SgNode) :
  In lang [typescript; javascript] ->
  In empty (dfs (parse (LanguageConfig.lang lang) source)) ->
  isNamed empty = true ->
  kind empty = "catch_clause" ->
  field "body" empty = Some emptyBody ->
  namedChildren emptyBody = [] ->
  kind handled = "catch_clause" ->
  field "body" handled = Some handledBody ->
  namedChildren handledBody = [stmt] ->
  hasConsoleLog handled = false ->
  let visit := block (Program.astRules rev lang) lang filename in
  let d := makeDiagnostic emptyCatchTS empty filename in
  Diagnostic.rule d = "empty-error-handler"
  /\ filter (fun x => String.eqb (Diagnostic.rule x) "empty-error-handler")
            (visit empty) = [d]
  /\ (hasConsoleLog empty = false -> visit empty = [d])
  /\ (exists before after,
        Program.scanSource rev source lang filename
        = before ++ visit empty ++ after)
  /\ visit handled = []
  /\ forall src r, ~ In (r, handled) (Program.scanHits rev src lang).
Proof.
  intros Hl Hin Hnamed Hk Hb Hnone Hk' Hb' Hone Hlog visit d.
  destruct (script_lang lang Hl) as (Hs & Hkinds & Hck).
  assert (Hrules := astRules_script rev lang Hs).
  assert (He : visit empty
               = d :: if hasConsoleLog empty
                      then [makeDiagnostic consoleLogInCatchTS empty filename]
                      else []).
  { unfold visit, block, firing. rewrite Hrules. cbn [filter].
    rewrite (emptyCatchTS_check empty emptyBody lang Hk Hb), Hnone.
    rewrite (consoleLog_check empty lang Hk).
    destruct (hasConsoleLog empty); reflexivity. }
  assert (Hh : visit handled = []).
  { unfold visit, block, firing. rewrite Hrules. cbn [filter].
    rewrite (emptyCatchTS_check handled handledBody lang Hk' Hb'), Hone.
    rewrite (consoleLog_check handled lang Hk'), Hlog. reflexivity. }
  split; [reflexivity|]. split; [|split; [|split; [|split]]].
  - rewrite He. destruct (hasConsoleLog empty); reflexivity.
  - intros Hnolog. rewrite He, Hnolog. reflexivity.
  - apply handler_visit_in_scan; [exact Hin|exact Hnamed|].
    rewrite Hkinds, Hk. left; reflexivity.
  - exact Hh.
  - intros src r Hhit. unfold Program.scanHits, scanHits in Hhit.
    apply in_app_or in Hhit. destruct Hhit as [Hhit|Hhit].
    + apply in_commentHits in Hhit. destruct Hhit as (_ & _ & Hc & _).
      rewrite Hck, Hk' in Hc. destruct Hc as [Hc|[]]. discriminate.
    + apply in_astHits in Hhit. destruct Hhit as (_ & _ & _ & Hr & Ha & Hc).
      assert (Hf : In r (firing (Program.astRules rev lang) lang handled)).
      { unfold firing. apply filter_In. split; [|exact Hc].
        unfold Program.astRules, astRules, rulesForLanguage. cbn [snd].
        apply filter_In. auto. }
      unfold visit, block in Hh. apply map_eq_nil in Hh.
      rewrite Hh in Hf. exact Hf.
Qed.

(** The instance of C6 on [try { x() } catch (e) {}] and on
    [catch (e) { console.error(e) }]. *)
Lemma catch_empty_or_handled_witness :
  let engine := Samples.engineOf (Samples.tryProgram Samples.catchEmpty) in
  let visit := block (@Program.astRules engine bundled typescript)
                     typescript "a.ts" in
  let d := makeDiagnostic emptyCatchTS Samples.catchEmpty "a.ts" in
  @Program.scanSource engine bundled [] typescript "a.ts" = [d]
  /\ Diagnostic.rule d = "empty-error-handler"
  /\ filter (fun x => String.eqb (Diagnostic.rule x) "empty-error-handler")
            (visit Samples.catchEmpty) = [d]
  /\ (@hasConsoleLog engine Samples.catchEmpty = false ->
      visit Samples.catchEmpty = [d])
  /\ (exists before after,
        @Program.scanSource engine bundled [] typescript "a.ts"
        = before ++ visit Samples.catchEmpty ++ after)
  /\ visit Samples.catchError = []
  /\ forall src r,
       ~ In (r, Samples.catchError)
            (@Program.scanHits engine bundled src typescript).
Proof.
  intros engine visit d. split; [vm_compute; reflexivity|].
  apply (@catch_empty_or_handled engine bundled [] typescript "a.ts"
           Samples.catchEmpty
           (Samples.catchBody [])
           Samples.catchError
           (Samples.catchBody [Samples.consoleCall "error" 0 24])
           (Samples.consoleCall "error" 0 24)).
  - left; reflexivity.
  - vm_compute. do 6 right. left. reflexivity.
  - reflexivity.
  - reflexivity.
  - reflexivity.
  - reflexivity.
  - reflexivity.
  - reflexivity.
  - reflexivity.
  - vm_compute; reflexivity.
Defined.

(** The counterexample to C6 without the hypothesis on [console.log]: the
    body of [catch (e) { console.error(console.log(e)) }] is one statement,
    a call of [console.error], and the scan of the file reports the clause
    as log-in-error-handler. *)
Lemma catch_error_of_log_reported :
  let handled := Samples.catchErrorOfLog in
  let engine := Samples.engineOf (Samples.tryProgram handled) in
  kind handled = "catch_clause"
  /\ field "body" handled = Some (Samples.catchBody [Samples.errorOfLog])
  /\ namedChildren (Samples.catchBody [Samples.errorOfLog])
     = [Samples.errorOfLog]
  /\ (exists call callee,
        children Samples.errorOfLog = [call]
        /\ kind call = "call_expression"
        /\ field "function" call = Some callee
        /\ text callee = js "console.error")
  /\ @hasConsoleLog engine handled = true
  /\ block (@Program.astRules engine src_tree typescript) typescript "a.ts"
           handled
     = [makeDiagnostic (@consoleLogInCatchTS engine) handled "a.ts"]
  /\ map Diagnostic.rule
         (@Program.scanSource engine src_tree [] typescript "a.ts")
     = ["log-in-error-handler"].
Proof.
  intros handled engine.
  split; [reflexivity|]. split; [reflexivity|]. split; [reflexivity|].
  split.
  - eexists. eexists. repeat split; reflexivity.
  - split; [vm_compute; reflexivity|].
    split; vm_compute; reflexivity.
Qed.

(** C9.  In a Python file, let [node] be an except clause of the tree, a
    named node as the grammar has it, that has no child of kind [identifier] or [as_pattern] and whose block has
    exactly one named child, a pass statement.  Its visit yields two
    diagnostics for that one node, the first with the identifier
    empty-error-handler and the second with silent-exception, and they stand
    in the result of the scan. *)
Theorem bare_except_pass_flagged_twice `{AstGrep} (rev : revision)
    (source : jsstring) (lang : LanguageConfig.t) (filename : string)
    (node body stmt : SgNode) :
  LanguageConfig.lang lang = "python" ->
  In node (dfs (parse (LanguageConfig.lang lang) source)) ->
  isNamed node = true ->
  kind node = "except_clause" ->
  existsb (fun c => String.eqb (kind c) "identifier"
                    || String.eqb (kind c) "as_pattern") (children node)
  = false ->
  find (fun c => String.eqb (kind c) "block") (children node) = Some body ->
  namedChildren body = [stmt] ->
  kind stmt = "pass_statement" ->
  let emitted := block (Program.astRules rev lang) lang filename node in
  emitted = [makeDiagnostic bareExceptPython node filename;
             makeDiagnostic passInExceptPython node filename]
  /\ map Diagnostic.rule emitted = ["empty-error-handler"; "silent-exception"]
  /\ exists before after,
       Program.scanSource rev source lang filename
       = before ++ emitted ++ after.
Proof.
  intros Hl Hin Hnamed Hk Hbare Hb Hone Hpass emitted.
  assert (He : emitted
               = [makeDiagnostic bareExceptPython node filename;
                  makeDiagnostic passInExceptPython node filename]).
  { unfold emitted, block, firing. rewrite (astRules_python rev lang Hl).
    cbn [filter Rule.check bareExceptPython passInExceptPython].
    rewrite Hk, Hbare, Hb, Hone. cbn [nth_error]. rewrite Hpass.
    reflexivity. }
  split; [exact He|]. split; [rewrite He; reflexivity|].
  apply handler_visit_in_scan; [exact Hin|exact Hnamed|].
  rewrite Hl, Hk. left; reflexivity.
Qed.

(** The instance of C9 on [try: x() except: pass]. *)
Lemma bare_except_pass_flagged_twice_witness :
  let engine := Samples.engineOf Samples.pythonProgram in
  let emitted := block (@Program.astRules engine src_tree python)
                       python "a.py" Samples.exceptPass in
  map Diagnostic.rule (@Program.scanSource engine src_tree [] python "a.py")
  = ["empty-error-handler"; "silent-exception"]
  /\ emitted = [makeDiagnostic bareExceptPython Samples.exceptPass "a.py";
                makeDiagnostic passInExceptPython Samples.exceptPass "a.py"]
  /\ map Diagnostic.rule emitted = ["empty-error-handler"; "silent-exception"]
  /\ exists before after,
       @Program.scanSource engine src_tree [] python "a.py"
       = before ++ emitted ++ after.
Proof.
  intros engine emitted. split; [vm_compute; reflexivity|].
  apply (@bare_except_pass_flagged_twice engine src_tree [] python "a.py"
           Samples.exceptPass Samples.passBlock
           (Samples.leaf "pass_statement" None "pass" 3 4)).
  - reflexivity.
  - vm_compute. do 5 right. left. reflexivity.
  - reflexivity.
  - reflexivity.
  - reflexivity.
  - reflexivity.
  - reflexivity.
  - reflexivity.
Defined.

Lemma existsb_In {A : Type} (p : A -> bool) (l : list A) (x : A) :
  In x l -> p x = true -> existsb p l = true.
Proof. intros Hx Hp. apply existsb_exists. eauto. Qed.

(** C10.  Let [node] be a catch clause of the tree of a TypeScript or
    JavaScript file, a named node as the grammar has it, and let some node of its subtree be a call
    [console.log(...)].  Then the log-in-error-handler rule answers on the
    clause, its diagnostic is among those of the visit and in the result of
    the scan.  Nothing is asked of the rest of the clause: what else its
    body calls, and how many statements it has, play no part. *)
Theorem console_log_anywhere_in_catch `{AstGrep} (rev : revision)
    (source : jsstring) (lang : LanguageConfig.t) (filename : string)
    (node call : SgNode) :
  isScript lang = true ->
  In node (dfs (parse (LanguageConfig.lang lang) source)) ->
  isNamed node = true ->
  kind node = "catch_clause" ->
  In call (dfs node) ->
  matchesPattern "console.log($$$ARGS)" call = true ->
  let d := makeDiagnostic consoleLogInCatchTS node filename in
  Rule.check consoleLogInCatchTS node lang = true
  /\ Diagnostic.rule d = "log-in-error-handler"
  /\ In d (block (Program.astRules rev lang) lang filename node)
  /\ In d (Program.scanSource rev source lang filename).
Proof.
  intros Hs Hin Hnamed Hk Hcall Hm d.
  assert (Hc : Rule.check consoleLogInCatchTS node lang = true).
  { rewrite (consoleLog_check node lang Hk). unfold hasConsoleLog.
    now apply existsb_In with (x := call). }
  assert (Hb : In d (block (Program.astRules rev lang) lang filename node)).
  { unfold block, firing. rewrite (astRules_script rev lang Hs).
    apply (in_map (fun r => makeDiagnostic r node filename)).
    apply filter_In. split; [|exact Hc].
    right; left; reflexivity. }
  split; [exact Hc|]. split; [reflexivity|]. split; [exact Hb|].
  destruct (handler_visit_in_scan (Program.commentRules rev)
              (Program.errorHandlingRules rev) source lang filename node Hin
              Hnamed)
    as (before & after & Hscan).
  - unfold isScript, Lang.TypeScript, Lang.JavaScript in Hs.
    apply orb_true_iff in Hs.
    destruct Hs as [Hs|Hs]; apply String.eqb_eq in Hs; rewrite Hs, Hk;
      left; reflexivity.
  - unfold Program.scanSource. rewrite Hscan.
    apply in_or_app. right. apply in_or_app. left. exact Hb.
Qed.

(** The instance of C10 on
    [catch (e) { console.log(e); console.error(e) }]. *)
Lemma console_log_anywhere_in_catch_witness :
  let node := Samples.catchLogAndError in
  let engine := Samples.engineOf (Samples.tryProgram node) in
  let d := makeDiagnostic (@consoleLogInCatchTS engine) node "a.js" in
  List.length (namedChildren (Samples.catchBody
                 [Samples.consoleCall "log" 0 24;
                  Samples.consoleCall "error" 0 40])) = 2%nat
  /\ Rule.check (@consoleLogInCatchTS engine) node javascript = true
  /\ Diagnostic.rule d = "log-in-error-handler"
  /\ In d (block (@Program.astRules engine bundled javascript)
                 javascript "a.js" node)
  /\ In d (@Program.scanSource engine bundled [] javascript "a.js").
Proof.
  intros node engine d. split; [reflexivity|].
  apply (@console_log_anywhere_in_catch engine bundled [] javascript "a.js"
           node
           (hd node (children (Samples.consoleCall "log" 0 24)))).
  - reflexivity.
  - vm_compute. do 6 right. left. reflexivity.
  - reflexivity.
  - reflexivity.
  - vm_compute. do 8 right. left. reflexivity.
  - vm_compute; reflexivity.
Defined.

(* ================================================================== *)
(** * The scenarios of the specification *)
(* ================================================================== *)

Example scenario_obvious :
  reported "// Initialize the counter" = ["obvious-comment"].
Proof. vm_compute; reflexivity. Qed.

Example scenario_narrator :
  reported "// This function handles the request" = ["narrator-comment"].
Proof. vm_compute; reflexivity. Qed.

Example scenario_step :
  reported "// Step 1: validate input" = ["step-comment"].
Proof. vm_compute; reflexivity. Qed.

Example scenario_todo : reported "// TODO: optimize later" = [].
Proof. vm_compute; reflexivity. Qed.

Example scenario_divider_with_hedge :
  reported "// --- quick hack ---" = ["section-divider"].
Proof. vm_compute; reflexivity. Qed.

(** With two comment kinds, pass A lists every line comment before any
    block comment, wherever they stand in the file: the order of the tree
    holds within a kind. *)
Example rust_kinds_before_positions :
  let root :=
    Node "source_file" true None [] (Samples.span 0 0 1 24)
      [Samples.commentNode "block_comment" (js "/* Step 1: parse */") 0;
       Samples.commentNode "line_comment" (js "// Step 2: transform") 1] in
  map (fun d => (Diagnostic.rule d, Diagnostic.line d))
      (@Program.scanSource (Samples.engineOf root) bundled [] rust "a.rs")
  = [("step-comment", 2); ("step-comment", 1)].
Proof. vm_compute; reflexivity. Qed.

(** A catch clause of a Java file is flagged by the Java variant of the
    rule, not by the TypeScript one, although both look at [catch_clause]
    nodes. *)
Example java_catch_flagged_by_java_rule :
  map (fun h => Rule.languages (fst h))
      (@Program.scanHits
         (Samples.engineOf (Samples.tryProgram Samples.catchEmpty))
         bundled [] java)
  = [Some ["java"]].
Proof. vm_compute; reflexivity. Qed.

(* ================================================================== *)
(** * The matcher on runs of characters and on classes *)
(* ================================================================== *)

Lemma stripPrefixI_spec (w s rest : jsstring) :
  stripPrefixI w s = Some rest
  <-> exists m, s = m ++ rest /\ eqI m w = true.
Proof.
  revert s. induction w as [|a w IH]; intros s; simpl.
  - split.
    + intros E. injection E as ->. exists []. auto.
    + intros (m & -> & E). destruct m; [reflexivity|discriminate].
  - destruct s as [|b s].
    + split; [discriminate|].
      intros (m & Hs & E). destruct m; simpl in *; discriminate.
    + destruct (canonicalize b =? canonicalize a) eqn:Eb.
      * rewrite IH. split.
        -- intros (m & -> & E). exists (b :: m). simpl. now rewrite Eb, E.
        -- intros (m & Hs & E). destruct m as [|x m]; [discriminate|].
           simpl in Hs. injection Hs as <- ->. simpl in E.
           apply andb_true_iff in E. exists m. tauto.
      * split; [discriminate|].
        intros (m & Hs & E). destruct m as [|x m]; [discriminate|].
        simpl in Hs. injection Hs as <- ->. simpl in E.
        rewrite Eb in E. discriminate.
Qed.

Lemma eqI_length (a b : jsstring) :
  eqI a b = true -> List.length a = List.length b.
Proof.
  revert b. induction a as [|x a IH]; intros [|y b] E; simpl in *;
    try discriminate; auto.
  apply andb_true_iff in E. f_equal. apply IH. tauto.
Qed.

Lemma eqI_refl (a : jsstring) : eqI a a = true.
Proof. induction a; simpl; auto. now rewrite N.eqb_refl. Qed.

(** A text without letters is equal up to case to itself only. *)
Lemma eqI_no_letter (m w : jsstring) :
  forallb (fun c => negb (isLetter c)) w = true ->
  eqI m w = true -> m = w.
Proof.
  revert w. induction m as [|x m IH]; intros [|y w] Hw E; simpl in *;
    try discriminate; auto.
  apply andb_true_iff in Hw. destruct Hw as [Hy Hw].
  apply andb_true_iff in E. destruct E as [Exy E].
  f_equal; [|now apply IH].
  apply N.eqb_eq in Exy. apply negb_true_iff in Hy.
  unfold isLetter in Hy. apply orb_false_iff in Hy. destruct Hy as [Hu Hl].
  unfold canonicalize in Exy. rewrite Hl in Exy.
  destruct (isLower x) eqn:Hx; [|exact Exy].
  exfalso. unfold isLower in Hx. unfold isUpper in Hu.
  apply andb_true_iff in Hx. rewrite !N.leb_le in Hx.
  apply andb_false_iff in Hu. rewrite !N.leb_gt in Hu. lia.
Qed.

(** A run of pattern characters under the [i] flag matches itself up to
    case. *)
Lemma matchRe_seqOf_CCharI (w : jsstring) :
  forall p s k,
    matchRe (seqOf CCharI w) p s k
    = match stripPrefixI w s with
      | Some rest => k (lastOpt p (firstn (List.length w) s)) rest
      | None => false
      end.
Proof.
  induction w as [|a w IH]; intros p s k; [reflexivity|].
  destruct w as [|b w].
  - simpl. destruct s as [|x s]; [reflexivity|].
    destruct (canonicalize x =? canonicalize a); reflexivity.
  - change (seqOf CCharI (a :: b :: w))
      with (Sym (CCharI a) ;; seqOf CCharI (b :: w))%re.
    rewrite matchRe_Cat.
    destruct s as [|x s]; [reflexivity|].
    cbn [matchRe in_cset stripPrefixI].
    destruct (canonicalize x =? canonicalize a); [|reflexivity].
    rewrite IH. cbn [List.length firstn]. now rewrite lastOpt_cons.
Qed.

Lemma matchRe_Sym_nil (cs : cset) (p : option char) (k : cont) :
  matchRe (Sym cs) p [] k = false.
Proof. reflexivity. Qed.

Lemma matchRe_Sym_cons (cs : cset) (p : option char) (x : char)
    (s : jsstring) (k : cont) :
  matchRe (Sym cs) p (x :: s) k
  = if in_cset cs x then k (Some x) s else false.
Proof. reflexivity. Qed.

Lemma matchRe_Alt (r1 r2 : regex) p s k :
  matchRe (r1 <|> r2) p s k
  = if matchRe r1 p s k then true else matchRe r2 p s k.
Proof. reflexivity. Qed.

Lemma matchRe_Eps p s k : matchRe Eps p s k = k p s.
Proof. reflexivity. Qed.

(** [c*] for a class [c]: a run of members of the class, of any length. *)
Lemma matchRe_Star_Sym (cs : cset) (p : option char) (s : jsstring)
    (k : cont) :
  matchRe (Star (Sym cs)) p s k = true
  <-> exists ws rest,
        s = ws ++ rest /\ forallb (in_cset cs) ws = true
        /\ k (lastOpt p ws) rest = true.
Proof.
  cbn [matchRe].
  assert (G : forall fuel p s,
             (List.length s <= fuel)%nat ->
             starLoop (matchRe (Sym cs)) k fuel p s = true
             <-> exists ws rest,
                   s = ws ++ rest /\ forallb (in_cset cs) ws = true
                   /\ k (lastOpt p ws) rest = true).
  { clear p s. induction fuel as [|fuel IH]; intros p s Hlen.
    - destruct s; [|simpl in Hlen; lia]. simpl. split.
      + intros Hk. exists [], []. repeat split; exact Hk.
      + intros (ws & rest & Hs & _ & Hk). symmetry in Hs.
        apply app_eq_nil in Hs. destruct Hs as [-> ->]. exact Hk.
    - cbn [starLoop]. destruct s as [|x s].
      + rewrite matchRe_Sym_nil. split.
        * intros Hk. exists [], []. repeat split; exact Hk.
        * intros (ws & rest & Hs & _ & Hk). symmetry in Hs.
          apply app_eq_nil in Hs. destruct Hs as [-> ->]. exact Hk.
      + simpl in Hlen. rewrite matchRe_Sym_cons.
        assert (Hlt : (List.length s <? List.length (x :: s))%nat = true)
          by (apply Nat.ltb_lt; simpl; lia).
        rewrite Hlt. split.
        * destruct (in_cset cs x) eqn:Ex.
          -- destruct (starLoop (matchRe (Sym cs)) k fuel (Some x) s) eqn:El.
             ++ intros _. apply IH in El; [|lia].
                destruct El as (ws & rest & -> & Hws & Hk).
                exists (x :: ws), rest. simpl. rewrite Ex, Hws, lastOpt_cons.
                repeat split; auto.
             ++ intros Hk. exists [], (x :: s). repeat split; exact Hk.
          -- intros Hk. exists [], (x :: s). repeat split; exact Hk.
        * intros (ws & rest & Hs & Hws & Hk).
          destruct ws as [|y ws].
          -- simpl in Hs. subst rest. change (lastOpt p []) with p in Hk.
             rewrite Hk. destruct (in_cset cs x); [|reflexivity].
             destruct (starLoop _ _ _ _ _); reflexivity.
          -- simpl in Hs. injection Hs as <- ->. simpl in Hws.
             apply andb_true_iff in Hws. destruct Hws as [Ex Hws].
             rewrite Ex. rewrite lastOpt_cons in Hk.
             assert (El : starLoop (matchRe (Sym cs)) k fuel (Some x)
                                   (ws ++ rest) = true).
             { apply IH; [lia|]. exists ws, rest. auto. }
             now rewrite El. }
  apply G. lia.
Qed.

(** [c+] for a class [c]: a run of at least one member. *)
Lemma matchRe_Plus_Sym (cs : cset) (p : option char) (s : jsstring)
    (k : cont) :
  matchRe (Plus (Sym cs)) p s k = true
  <-> exists ws rest,
        s = ws ++ rest /\ ws <> [] /\ forallb (in_cset cs) ws = true
        /\ k (lastOpt p ws) rest = true.
Proof.
  unfold Plus. rewrite matchRe_Cat. cbn [matchRe]. split.
  - destruct s as [|x s]; [discriminate|].
    destruct (in_cset cs x) eqn:Ex; [|discriminate].
    intros Hm. apply (matchRe_Star_Sym cs (Some x) s k) in Hm.
    destruct Hm as (ws & rest & -> & Hws & Hk).
    exists (x :: ws), rest. simpl. rewrite Ex, Hws, lastOpt_cons.
    repeat split; auto. discriminate.
  - intros (ws & rest & -> & Hne & Hws & Hk).
    destruct ws as [|x ws]; [contradiction|].
    simpl in Hws. apply andb_true_iff in Hws. destruct Hws as [Ex Hws].
    simpl. rewrite Ex.
    apply (matchRe_Star_Sym cs (Some x) (ws ++ rest) k).
    exists ws, rest. rewrite lastOpt_cons in Hk. auto.
Qed.

(** The delimiter of the classifier patterns matches exactly its four
    texts. *)
Lemma matchRe_opener (p : option char) (s : jsstring) (k : cont) :
  matchRe opener p s k = true
  <-> exists d rest,
        In d openerTexts /\ s = d ++ rest /\ k (lastOpt p d) rest = true.
Proof.
  unfold opener, liti, Opt, openerTexts. rewrite matchRe_alts. cbn [existsb].
  rewrite !orb_true_iff, matchRe_Cat, !matchRe_seqOf_CCharI.
  change (js "//") with [47; 47]. change (js "#") with [35].
  change (js "/**") with [47; 42; 42].
  change (js "/*") with [47; 42]. change (js "*") with [42].
  assert (Hstrip : forall w rest,
            forallb (fun c => negb (isLetter c)) w = true ->
            stripPrefixI w s = Some rest <-> s = w ++ rest).
  { intros w rest Hw. rewrite stripPrefixI_spec. split.
    - intros (m & -> & E). now rewrite (eqI_no_letter m w Hw E).
    - intros ->. exists w. split; [reflexivity|apply eqI_refl]. }
  split.
  - intros [H|[H|[H|H]]]; [| | |discriminate].
    + destruct (stripPrefixI [47; 47] s) as [rest|] eqn:E; [|discriminate].
      apply Hstrip in E; [|reflexivity]. subst s.
      exists [47; 47], rest. simpl. auto.
    + destruct (stripPrefixI [35] s) as [rest|] eqn:E; [|discriminate].
      apply Hstrip in E; [|reflexivity]. subst s.
      exists [35], rest. simpl. auto.
    + destruct (stripPrefixI [47; 42] s) as [rest|] eqn:E; [|discriminate].
      apply Hstrip in E; [|reflexivity]. subst s.
      change (seqOf CCharI [42]) with (Sym (CCharI 42)) in H.
      cbn [List.length firstn app] in H.
      change (lastOpt p [47; 42]) with (Some 42) in H.
      rewrite matchRe_Alt, matchRe_Eps in H.
      destruct rest as [|x rest].
      * rewrite matchRe_Sym_nil in H.
        exists [47; 42], [].
        split; [simpl; tauto|split; [reflexivity|exact H]].
      * rewrite matchRe_Sym_cons in H. cbn [in_cset] in H.
        destruct (canonicalize x =? canonicalize 42) eqn:Ex.
        -- assert (Hx : [x] = [42]).
           { apply eqI_no_letter; [reflexivity|]. simpl. now rewrite Ex. }
           injection Hx as ->.
           destruct (k (@Some char 42) rest) eqn:Ek.
           ++ exists [47; 42; 42], rest.
              split; [simpl; tauto|split; [reflexivity|exact Ek]].
           ++ exists [47; 42], (42 :: rest).
              split; [simpl; tauto|split; [reflexivity|exact H]].
        -- exists [47; 42], (x :: rest).
           split; [simpl; tauto|split; [reflexivity|exact H]].
  - intros (d & rest & Hd & -> & Hk). simpl in Hd.
    destruct Hd as [<-|[<-|[<-|[<-|[]]]]].
    + left. now rewrite (proj2 (Hstrip [47; 47] rest eq_refl) eq_refl).
    + right; left.
      now rewrite (proj2 (Hstrip [35] rest eq_refl) eq_refl).
    + right; right; left.
      rewrite (proj2 (Hstrip [47; 42] rest eq_refl) eq_refl).
      change (seqOf CCharI [42]) with (Sym (CCharI 42)).
      cbn [List.length firstn app].
      change (lastOpt p [47; 42]) with (Some 42) in *.
      rewrite matchRe_Alt, matchRe_Eps.
      destruct rest as [|x rest];
        [rewrite matchRe_Sym_nil; exact Hk|].
      rewrite matchRe_Sym_cons. cbn [in_cset].
      destruct (canonicalize x =? canonicalize 42).
      * destruct (k (Some x) rest); [reflexivity|exact Hk].
      * exact Hk.
    + right; right; left.
      rewrite (proj2 (Hstrip [47; 42] (42 :: rest) eq_refl) eq_refl).
      change (seqOf CCharI [42]) with (Sym (CCharI 42)).
      rewrite matchRe_Alt, matchRe_Sym_cons. cbn [in_cset].
      change (canonicalize 42 =? canonicalize 42) with true. cbv iota.
      change (lastOpt p [47; 42; 42]) with (@Some char 42) in Hk.
      destruct (k (@Some char 42) rest); [reflexivity|discriminate].
Qed.

(* ================================================================== *)
(** * Patterns that are lists of words *)
(* ================================================================== *)

(** An alternation of words under the [i] flag, not anchored, is true of
    the texts that contain one of the words in any letter case. *)
Lemma test_words (ws : list string) (t : jsstring) :
  test (words ws) t = true <-> containsWordI ws t.
Proof.
  unfold test, words, containsWordI. rewrite searchFrom_spec. split.
  - intros (pre & post & -> & Hm).
    rewrite matchRe_alts in Hm. apply existsb_exists in Hm.
    destruct Hm as (r & Hr & Hm). apply in_map_iff in Hr.
    destruct Hr as (w & <- & Hw). unfold liti in Hm.
    rewrite matchRe_seqOf_CCharI in Hm.
    destruct (stripPrefixI (js w) post) as [rest|] eqn:E; [|discriminate].
    apply stripPrefixI_spec in E. destruct E as (mid & -> & E).
    exists w, pre, mid, rest. auto.
  - intros (w & pre & mid & post & Hw & -> & E).
    exists pre, (mid ++ post). split; [reflexivity|].
    rewrite matchRe_alts. apply existsb_exists.
    exists (liti w). split; [now apply in_map|].
    unfold liti. rewrite matchRe_seqOf_CCharI.
    assert (Hs : stripPrefixI (js w) (mid ++ post) = Some post)
      by (apply stripPrefixI_spec; eauto).
    now rewrite Hs.
Qed.

(** The same without the [i] flag. *)
Lemma test_words_cs (ws : list string) (t : jsstring) :
  test (alts (map lit ws)) t = true <-> containsWord ws t.
Proof.
  unfold test, containsWord. rewrite searchFrom_spec. split.
  - intros (pre & post & -> & Hm).
    rewrite matchRe_alts in Hm. apply existsb_exists in Hm.
    destruct Hm as (r & Hr & Hm). apply in_map_iff in Hr.
    destruct Hr as (w & <- & Hw). unfold lit in Hm.
    rewrite matchRe_seqOf_CChar in Hm.
    destruct (stripPrefix (js w) post) as [rest|] eqn:E; [|discriminate].
    apply stripPrefix_app in E. subst post.
    exists w, pre, rest. auto.
  - intros (w & pre & post & Hw & ->).
    exists pre, (js w ++ post). split; [reflexivity|].
    rewrite matchRe_alts. apply existsb_exists.
    exists (lit w). split; [now apply in_map|].
    unfold lit. now rewrite matchRe_seqOf_CChar, stripPrefix_app_eq.
Qed.

(** X1.  In the revision at [src/rules/comments.ts] the marker pattern is
    true of a text exactly when the text contains one of the markers
    somewhere, in any letter case: inside a longer word as well as on its
    own. *)
Theorem keeper_src_tree_any_case (t : jsstring) :
  test (Program.KEEPER_PATTERN src_tree) t = true
  <-> containsWordI MARKERS t.
Proof. apply test_words. Qed.

(** X2.  For a language whose tool-directive pattern is a list of words
    under the [i] flag (TypeScript, JavaScript, Go, C, C++, Java, Ruby), the
    test is true exactly when the text contains one of the words somewhere,
    in any letter case; a comment whose trimmed text does, be it inside
    another word, is answered by no comment rule. *)
Theorem tool_directive_any_case (rev : revision) (lang : LanguageConfig.t)
    (ws : list string) (node : SgNode) :
  LanguageConfig.toolDirectives lang = words ws ->
  (forall t, isToolDirective t lang = true <-> containsWordI ws t)
  /\ (containsWordI ws (commentText node) ->
      forall r, In r (Program.commentRules rev) ->
                Rule.check r node lang = false).
Proof.
  intros Hws.
  assert (Htest : forall t,
             isToolDirective t lang = true <-> containsWordI ws t).
  { intros t. unfold isToolDirective. rewrite Hws. apply test_words. }
  split; [exact Htest|].
  intros Hc r Hr. apply Htest in Hc.
  destruct (Rule.check r node lang) eqn:E; [|reflexivity].
  destruct (comment_rule_answers rev r node lang Hr E) as [_ Hk].
  unfold Program.shouldKeep, shouldKeep in Hk. rewrite Hc in Hk.
  rewrite orb_true_r in Hk. discriminate.
Qed.

(** The instance of X2 on the TypeScript comment [// Initialize the majestic
    counter], which contains [jest]. *)
Lemma tool_directive_any_case_witness :
  let ws := ["eslint"; "prettier"; "@ts-"; "istanbul"; "c8"; "vitest";
             "jest"; "biome"; "oxlint"] in
  let node := Samples.commentNode "comment"
                (js "// Initialize the majestic counter") 0 in
  test OBVIOUS_VERBS (commentText node) = true
  /\ containsWordI ws (commentText node)
  /\ (forall t, isToolDirective t typescript = true <-> containsWordI ws t)
  /\ (containsWordI ws (commentText node) ->
      forall r, In r (Program.commentRules bundled) ->
                Rule.check r node typescript = false).
Proof.
  intros ws node. split; [vm_compute; reflexivity|]. split.
  - exists "jest", (js "// Initialize the ma"), (js "jest"), (js "ic counter").
    split; [simpl; tauto|split; reflexivity].
  - apply (tool_directive_any_case bundled typescript ws node).
    reflexivity.
Defined.

(** X3.  The tool-directive pattern of Rust has no [i] flag: the test is
    true exactly when the text contains one of its words as written, be it
    inside another word; such a comment is answered by no comment rule. *)
Theorem tool_directive_rust (rev : revision) (node : SgNode) :
  let ws := ["clippy"; "allow"; "deny"; "forbid"; "expect"; "cfg";
             "rustfmt"; "SAFETY"; "safety"] in
  (forall t, isToolDirective t rust = true <-> containsWord ws t)
  /\ (containsWord ws (commentText node) ->
      forall r, In r (Program.commentRules rev) ->
                Rule.check r node rust = false).
Proof.
  intros ws.
  assert (Htest : forall t,
             isToolDirective t rust = true <-> containsWord ws t).
  { intros t. unfold isToolDirective. apply test_words_cs. }
  split; [exact Htest|].
  intros Hc r Hr. apply Htest in Hc.
  destruct (Rule.check r node rust) eqn:E; [|reflexivity].
  destruct (comment_rule_answers rev r node rust Hr E) as [_ Hk].
  unfold Program.shouldKeep, shouldKeep in Hk. rewrite Hc in Hk.
  rewrite orb_true_r in Hk. discriminate.
Qed.

(* ================================================================== *)
(** * What the classifier patterns ask of a text *)
(* ================================================================== *)

(** X4.  The step pattern is true of a text exactly when the text is a
    delimiter ([//], [#], [/*] or [/**]), any white space, the word [step]
    in any letter case, at least one white space and a digit, followed by
    anything.  A step that is spelled out, or a digit that follows [step]
    immediately, does not count. *)
Theorem step_pattern_spec (t : jsstring) :
  test STEP_PATTERN t = true <-> isStepText t.
Proof.
  unfold STEP_PATTERN, isStepText, sp. rewrite test_anchored. split.
  - intros Hm. rewrite matchRe_Cat in Hm. apply matchRe_opener in Hm.
    destruct Hm as (d & r1 & Hd & -> & Hm). cbv beta in Hm.
    rewrite matchRe_Cat in Hm. apply matchRe_Star_Sym in Hm.
    destruct Hm as (ws1 & r2 & -> & Hws1 & Hm). cbv beta in Hm.
    rewrite matchRe_Cat in Hm. unfold liti in Hm.
    rewrite matchRe_seqOf_CCharI in Hm.
    destruct (stripPrefixI (js "step") r2) as [r3|] eqn:E; [|discriminate].
    apply stripPrefixI_spec in E. destruct E as (w & -> & Ew).
    rewrite matchRe_Cat in Hm. apply matchRe_Plus_Sym in Hm.
    destruct Hm as (ws2 & r4 & -> & Hne & Hws2 & Hm). cbv beta in Hm.
    destruct r4 as [|x rest]; [discriminate|].
    rewrite matchRe_Sym_cons in Hm. cbn [in_cset] in Hm.
    destruct (isDigit x) eqn:Ex; [|discriminate].
    exists d, ws1, w, ws2, x, rest. repeat split; auto.
  - intros (d & ws1 & w & ws2 & x & rest & Hd & -> & Hws1 & Ew & Hne & Hws2
            & Ex).
    rewrite matchRe_Cat.
    apply matchRe_opener. exists d, (ws1 ++ w ++ ws2 ++ x :: rest).
    split; [exact Hd|]. split; [reflexivity|].
    rewrite matchRe_Cat. apply matchRe_Star_Sym.
    exists ws1, (w ++ ws2 ++ x :: rest).
    split; [reflexivity|]. split; [exact Hws1|].
    rewrite matchRe_Cat. unfold liti. rewrite matchRe_seqOf_CCharI.
    assert (Hs : stripPrefixI (js "step") (w ++ ws2 ++ x :: rest)
                 = Some (ws2 ++ x :: rest))
      by (apply stripPrefixI_spec; eauto).
    rewrite Hs, matchRe_Cat. apply matchRe_Plus_Sym.
    exists ws2, (x :: rest).
    split; [reflexivity|]. split; [exact Hne|]. split; [exact Hws2|].
    rewrite matchRe_Sym_cons. cbn [in_cset]. now rewrite Ex.
Qed.

(** The delimiter of the divider patterns matches its two texts only. *)
Lemma matchRe_lineOpener (p : option char) (s : jsstring) (k : cont) :
  matchRe lineOpener p s k = true \/ matchRe lineOpenerCs p s k = true ->
  exists d rest, In d lineOpenerTexts /\ s = d ++ rest.
Proof.
  unfold lineOpener, lineOpenerCs, liti, lit, lineOpenerTexts.
  rewrite !matchRe_alts. cbn [existsb map].
  rewrite !orb_true_iff, !matchRe_seqOf_CCharI, !matchRe_seqOf_CChar.
  assert (HI : forall w rest,
            forallb (fun c => negb (isLetter c)) w = true ->
            stripPrefixI w s = Some rest -> s = w ++ rest).
  { intros w rest Hw E. apply stripPrefixI_spec in E.
    destruct E as (m & -> & E). now rewrite (eqI_no_letter m w Hw E). }
  intros [[H|[H|H]]|[H|[H|H]]]; try discriminate.
  - destruct (stripPrefixI (js "//") s) as [rest|] eqn:E; [|discriminate].
    apply HI in E; [|reflexivity]. exists (js "//"), rest. simpl. auto.
  - destruct (stripPrefixI (js "#") s) as [rest|] eqn:E; [|discriminate].
    apply HI in E; [|reflexivity]. exists (js "#"), rest. simpl. auto.
  - destruct (stripPrefix (js "//") s) as [rest|] eqn:E; [|discriminate].
    apply stripPrefix_app in E. exists (js "//"), rest. simpl. auto.
  - destruct (stripPrefix (js "#") s) as [rest|] eqn:E; [|discriminate].
    apply stripPrefix_app in E. exists (js "#"), rest. simpl. auto.
Qed.

Lemma anchored_opener (rest : regex) (t : jsstring) :
  test (Bol ;; opener ;; rest) t = true ->
  exists d u, In d openerTexts /\ t = d ++ u.
Proof.
  rewrite test_anchored, matchRe_Cat. intros Hm.
  apply matchRe_opener in Hm. destruct Hm as (d & u & Hd & -> & _). eauto.
Qed.

Lemma anchored_lineOpener (rest : regex) (t : jsstring) :
  test (Bol ;; lineOpener ;; rest) t = true
  \/ test (Bol ;; lineOpenerCs ;; rest) t = true ->
  exists d u, In d lineOpenerTexts /\ t = d ++ u.
Proof.
  rewrite !test_anchored, !matchRe_Cat. apply matchRe_lineOpener.
Qed.

(** A divider pattern matches only texts that begin with [//] or [#]. *)
Lemma divider_begins_line_comment (t : jsstring) :
  existsb (fun p => test p t) DIVIDER_PATTERNS = true ->
  exists d u, In d lineOpenerTexts /\ t = d ++ u.
Proof.
  unfold DIVIDER_PATTERNS. cbn [existsb]. rewrite !orb_true_iff.
  intros [H|[H|[H|H]]]; [| | |discriminate];
    eapply anchored_lineOpener; eauto.
Qed.

Lemma lineOpenerTexts_openerTexts (d : jsstring) :
  In d lineOpenerTexts -> In d openerTexts.
Proof. simpl. tauto. Qed.

(** The pattern test of every classifier is anchored at a delimiter. *)
Lemma classifier_begins_with_delimiter (rev : revision) (r : Rule.t)
    (m : jsstring -> bool) (t : jsstring) :
  In (r, m) (Program.classifiers rev) ->
  m t = true ->
  exists d u, In d openerTexts /\ t = d ++ u.
Proof.
  intros Hin Hm.
  assert (Hdiv : existsb (fun p => test p t) DIVIDER_PATTERNS = true ->
                 exists d u, In d openerTexts /\ t = d ++ u).
  { intros H. apply divider_begins_line_comment in H.
    destruct H as (d & u & Hd & ->).
    eauto using lineOpenerTexts_openerTexts. }
  destruct rev; cbn [Program.classifiers app In] in Hin;
    repeat (destruct Hin as [Hin|Hin];
            [injection Hin as <- <-;
             first [ exact (Hdiv Hm)
                   | exact (anchored_opener _ t Hm) ]|]);
    contradiction.
Qed.

(** X5.  A comment rule answers only on comments whose trimmed text begins
    with [//], [#] or [/*]: every hit of pass A is on such a node.  A
    comment written with any other delimiter is never reported. *)
Theorem reported_comments_begin_with_delimiter `{AstGrep} (rev : revision)
    (source : jsstring) (lang : LanguageConfig.t) (r : Rule.t)
    (node : SgNode) :
  In (r, node) (commentHits (Program.commentRules rev) source lang) ->
  exists d u,
    In d [js "//"; js "#"; js "/*"] /\ commentText node = d ++ u.
Proof.
  intros Hin. apply in_commentHits in Hin.
  destruct Hin as (_ & _ & _ & Hr & Hc).
  destruct (comment_rule_classifier rev r Hr) as (m & Hm).
  rewrite (classifier_check rev r m Hm) in Hc.
  apply commentCheck_true in Hc. destruct Hc as (_ & _ & Hc).
  destruct (classifier_begins_with_delimiter rev r m _ Hm Hc)
    as (d & u & Hd & Ht).
  simpl in Hd. destruct Hd as [<-|[<-|[<-|[<-|[]]]]].
  - exists (js "//"), u. simpl. auto.
  - exists (js "#"), u. simpl. auto.
  - exists (js "/*"), u. simpl. auto.
  - exists (js "/*"), (42 :: u). simpl. auto.
Qed.

(** The instance of X5 on the scan of [// Step 1: validate input]. *)
Lemma reported_comments_begin_with_delimiter_witness :
  let t := js "// Step 1: validate input" in
  let node := Samples.commentNode "comment" t 0 in
  let engine := Samples.engineOf (Samples.commentProgram "comment" t) in
  exists d u,
    In d [js "//"; js "#"; js "/*"] /\ commentText node = d ++ u.
Proof.
  intros t node engine.
  apply (@reported_comments_begin_with_delimiter engine bundled t typescript
           (stepComment comments_rev.KEEPER_PATTERN) node).
  vm_compute. left. reflexivity.
Defined.

(** X6.  The section-divider rule answers only on comments whose trimmed
    text begins with [//] or [#]: a banner that is written as a block
    comment is never reported. *)
Theorem divider_needs_line_comment (rev : revision) (node : SgNode)
    (lang : LanguageConfig.t) :
  Rule.check (sectionDivider (Program.KEEPER_PATTERN rev)) node lang = true ->
  exists d u, In d [js "//"; js "#"] /\ commentText node = d ++ u.
Proof.
  intros Hc. cbn [Rule.check sectionDivider] in Hc.
  apply commentCheck_true in Hc. destruct Hc as (_ & _ & Hc).
  now apply divider_begins_line_comment.
Qed.

(** The instance of X6 on [// ============], beside the block comment
    [/* ============ */] on which the rule does not answer. *)
Lemma divider_needs_line_comment_witness :
  let node := Samples.commentNode "comment" (js "// ============") 0 in
  let banner := Samples.commentNode "comment" (js "/* ============ */") 0 in
  Rule.check (sectionDivider (Program.KEEPER_PATTERN bundled)) banner
             typescript = false
  /\ exists d u, In d [js "//"; js "#"] /\ commentText node = d ++ u.
Proof.
  intros node banner. split; [vm_compute; reflexivity|].
  apply (divider_needs_line_comment bundled node typescript).
  vm_compute; reflexivity.
Defined.

(* ================================================================== *)
(** * A pattern is decided by the beginning of the text *)
(* ================================================================== *)

(** A match of a pattern without [\b] stays a match when text is added at
    the end of the input. *)
Lemma matchRe_extend (r : regex) :
  wordBfree r = true ->
  forall p s k u k',
    (forall p' s', k p' s' = true -> k' p' (s' ++ u) = true) ->
    matchRe r p s k = true ->
    matchRe r p (s ++ u) k' = true.
Proof.
  induction r as [| cs | | | r1 IH1 r2 IH2 | r1 IH1 r2 IH2 | r IH];
    intros Hfree p s k u k' Hk Hm; cbn [wordBfree] in Hfree.
  - rewrite matchRe_Eps in *. auto.
  - destruct s as [|x s]; [discriminate|].
    rewrite matchRe_Sym_cons in Hm. change ((x :: s) ++ u) with (x :: s ++ u).
    rewrite matchRe_Sym_cons. destruct (in_cset cs x); [auto|discriminate].
  - destruct p; [discriminate|]. cbn [matchRe] in *. auto.
  - discriminate.
  - apply andb_true_iff in Hfree. destruct Hfree as [F1 F2].
    rewrite matchRe_Cat in *.
    apply (IH1 F1 p s (fun p' s' => matchRe r2 p' s' k) u
             (fun p' s' => matchRe r2 p' s' k')); [|exact Hm].
    intros p' s' H2. apply (IH2 F2 p' s' k u k' Hk H2).
  - apply andb_true_iff in Hfree. destruct Hfree as [F1 F2].
    rewrite matchRe_Alt in *.
    destruct (matchRe r1 p s k) eqn:E1.
    + now rewrite (IH1 F1 p s k u k' Hk E1).
    + apply (IH2 F2 p s k u k' Hk) in Hm. rewrite Hm.
      destruct (matchRe r1 p (s ++ u) k'); reflexivity.
  - cbn [matchRe] in *.
    assert (G : forall f f' p s,
               (f <= f')%nat ->
               starLoop (matchRe r) k f p s = true ->
               starLoop (matchRe r) k' f' p (s ++ u) = true).
    { clear p s Hm. induction f as [|f IHf]; intros f' p s Hle Hm.
      - cbn [starLoop] in Hm. apply Hk in Hm.
        destruct f' as [|f']; cbn [starLoop]; [exact Hm|].
        rewrite Hm. destruct (matchRe r p (s ++ u) _); reflexivity.
      - destruct f' as [|f']; [lia|]. cbn [starLoop] in *.
        match type of Hm with
        | (if ?b then _ else _) = _ => destruct b eqn:Eb
        end.
        + apply (IH Hfree p s _ u
                   (fun p' s'' =>
                      if (List.length s'' <? List.length (s ++ u))%nat
                      then starLoop (matchRe r) k' f' p' s''
                      else false)) in Eb.
          * match goal with
            | |- (if ?b then _ else _) = _ =>
                assert (Hb : b = true) by exact Eb; rewrite Hb; reflexivity
            end.
          * intros p' s' H1.
            destruct (List.length s' <? List.length s)%nat eqn:El;
              [|discriminate].
            apply Nat.ltb_lt in El.
            assert (El' : (List.length (s' ++ u)
                           <? List.length (s ++ u))%nat = true)
              by (apply Nat.ltb_lt; rewrite !length_app; lia).
            rewrite El'. apply IHf; [lia|exact H1].
        + apply Hk in Hm. rewrite Hm.
          destruct (matchRe r p (s ++ u) _); reflexivity. }
    apply (G (List.length s) (List.length (s ++ u))); [|exact Hm].
    rewrite length_app. lia.
Qed.

Lemma test_extend (r : regex) (t u : jsstring) :
  wordBfree r = true ->
  test r t = true -> test r (t ++ u) = true.
Proof.
  unfold test. intros Hfree Hm. apply searchFrom_spec in Hm.
  destruct Hm as (pre & post & -> & Hm). apply searchFrom_spec.
  exists pre, (post ++ u). split; [now rewrite app_assoc|].
  apply (matchRe_extend r Hfree _ post accept u accept); auto.
Qed.

(** The pattern test of every classifier is stable under extension. *)
Lemma classifier_extend (rev : revision) (r : Rule.t)
    (m : jsstring -> bool) (t u : jsstring) :
  In (r, m) (Program.classifiers rev) ->
  m t = true -> m (t ++ u) = true.
Proof.
  intros Hin Hm.
  assert (Hdiv : existsb (fun p => test p t) DIVIDER_PATTERNS = true ->
                 existsb (fun p => test p (t ++ u)) DIVIDER_PATTERNS = true).
  { intros H. apply existsb_exists in H. destruct H as (P & HP & Ht).
    apply existsb_exists. exists P. split; [exact HP|].
    apply test_extend; [|exact Ht].
    assert (Hall : forallb wordBfree DIVIDER_PATTERNS = true)
      by (vm_compute; reflexivity).
    rewrite forallb_forall in Hall. auto. }
  destruct rev; cbn [Program.classifiers app In] in Hin;
    repeat (destruct Hin as [Hin|Hin];
            [injection Hin as <- <-;
             first [ exact (Hdiv Hm)
                   | apply test_extend; [vm_compute; reflexivity|exact Hm] ]
            |]);
    contradiction.
Qed.

(** X7.  A comment rule looks at how the comment begins and at nothing
    else: when it answers on a node, it answers on every comment node of
    the language whose trimmed text extends that text, unless the
    suppression filter keeps the longer text. *)
Theorem longer_comment_still_flagged (rev : revision) (r : Rule.t)
    (lang : LanguageConfig.t) (node longer : SgNode) (u : jsstring) :
  In r (Program.commentRules rev) ->
  Rule.check r node lang = true ->
  isComment longer lang = true ->
  commentText longer = commentText node ++ u ->
  Program.shouldKeep rev (commentText longer) lang = false ->
  Rule.check r longer lang = true.
Proof.
  intros Hr Hc Hcl Ht Hk.
  destruct (comment_rule_classifier rev r Hr) as (m & Hm).
  rewrite (classifier_check rev r m Hm) in *.
  apply commentCheck_true in Hc. destruct Hc as (_ & _ & Hc).
  apply commentCheck_true. repeat split; auto.
  rewrite Ht. now apply classifier_extend with (rev := rev) (r := r).
Qed.

(** The instance of X7 on [// Initialize the counter] and the longer
    [// Initialize the counter because the parser starts at one]. *)
Lemma longer_comment_still_flagged_witness :
  let node := Samples.commentNode "comment"
                (js "// Initialize the counter") 0 in
  let longer := Samples.commentNode "comment"
                  (js "// Initialize the counter because the parser starts at one") 0 in
  Rule.check (obviousComment comments_rev.KEEPER_PATTERN) longer typescript
  = true.
Proof.
  intros node longer.
  apply (longer_comment_still_flagged bundled
           (obviousComment comments_rev.KEEPER_PATTERN) typescript node
           longer (js " because the parser starts at one")).
  - left; reflexivity.
  - vm_compute; reflexivity.
  - reflexivity.
  - vm_compute; reflexivity.
  - vm_compute; reflexivity.
Defined.

(* ================================================================== *)
(** * The structural rules, language by language *)
(* ================================================================== *)

Lemma block_ids `{AstGrep} (rules : list Rule.t) (lang : LanguageConfig.t)
    (filename : string) (node : SgNode) :
  map Diagnostic.rule (block rules lang filename node)
  = map Rule.id (firing rules lang node).
Proof. unfold block. rewrite map_map. reflexivity. Qed.

(** X8.  In a Python file the two rules on except clauses answer
    independently of one another.  The diagnostics of the visit of an
    except clause are empty-error-handler when the clause names no
    exception type, whatever its body, followed by silent-exception when
    its first block is a single pass statement, whatever the clause
    catches. *)
Theorem python_rules_independent `{AstGrep} (rev : revision)
    (lang : LanguageConfig.t) (filename : string) (node : SgNode) :
  LanguageConfig.lang lang = "python" ->
  kind node = "except_clause" ->
  block (Program.astRules rev lang) lang filename node
  = (if isBareExcept node
     then [makeDiagnostic bareExceptPython node filename] else [])
    ++ (if isPassOnly node
        then [makeDiagnostic passInExceptPython node filename] else []).
Proof.
  intros Hl Hk. unfold block, firing. rewrite (astRules_python rev lang Hl).
  cbn [filter Rule.check bareExceptPython passInExceptPython].
  rewrite Hk. cbn [String.eqb Ascii.eqb Bool.eqb negb].
  unfold isBareExcept, isPassOnly.
  destruct (existsb _ (children node)); cbn [negb];
    destruct (find _ (children node)) as [body|]; try reflexivity;
    destruct (namedChildren body) as [|s [|s' l]]; try reflexivity;
    cbn [List.length Nat.eqb andb nth_error];
    destruct (String.eqb (kind s) "pass_statement"); reflexivity.
Qed.

(** The instance of X8 on [except Exception: pass]: silent-exception
    alone. *)
Lemma python_rules_independent_witness :
  let typed :=
    Node "except_clause" true None (js "except Exception: pass")
         (Samples.span 2 0 3 8)
         [Samples.token "except" 2 0;
          Samples.leaf "identifier" None "Exception" 2 7;
          Samples.token ":" 2 16; Samples.passBlock] in
  let engine := Samples.engineOf Samples.pythonProgram in
  map Diagnostic.rule
      (block (@Program.astRules engine src_tree python) python "a.py" typed)
  = ["silent-exception"].
Proof.
  intros typed engine.
  rewrite (@python_rules_independent engine src_tree python "a.py" typed);
    reflexivity.
Defined.

(** The structural rules that apply to Java. *)
Lemma astRules_java `{AstGrep} (rev : revision) (lang : LanguageConfig.t) :
  LanguageConfig.lang lang = "java" ->
  Program.astRules rev lang = [emptyCatchJava].
Proof.
  intros Hl.
  unfold Program.astRules, astRules, rulesForLanguage, appliesTo. cbn [snd].
  destruct rev; cbn; rewrite Hl; reflexivity.
Qed.

(** X9.  In a Java file every hit of pass B is the Java variant of the
    empty-handler rule on a catch clause whose body has no named child.  A
    call [console.log(...)] in a Java catch clause is not reported, and an
    empty Java catch clause is reported once, not once for each rule that
    looks at catch clauses. *)
Theorem java_hits_are_empty_catches `{AstGrep} (rev : revision)
    (source : jsstring) (lang : LanguageConfig.t) (r : Rule.t)
    (node : SgNode) :
  LanguageConfig.lang lang = "java" ->
  In (r, node)
     (astHits (Program.commentRules rev) (Program.errorHandlingRules rev)
              source lang) ->
  r = emptyCatchJava
  /\ kind node = "catch_clause"
  /\ exists body, field "body" node = Some body /\ namedChildren body = [].
Proof.
  intros Hl Hin. unfold astHits in Hin. apply in_flat_map in Hin.
  destruct Hin as (n & _ & Hin). apply in_hitsOn in Hin.
  destruct Hin as (-> & Hr & Hc).
  change (astRules (Program.commentRules rev) (Program.errorHandlingRules rev)
                   lang) with (Program.astRules rev lang) in Hr.
  rewrite (astRules_java rev lang Hl) in Hr.
  destruct Hr as [<-|[]]. split; [reflexivity|].
  cbn [Rule.check emptyCatchJava] in Hc.
  destruct (String.eqb (kind node) "catch_clause") eqn:Ek; [|discriminate].
  apply String.eqb_eq in Ek. split; [exact Ek|].
  cbn [negb] in Hc. destruct (field "body" node) as [body|]; [|discriminate].
  exists body. split; [reflexivity|].
  destruct (namedChildren body); [reflexivity|discriminate].
Qed.

(** The instance of X9 on the Java file [try { x() } catch (e) {}]. *)
Lemma java_hits_are_empty_catches_witness :
  let engine := Samples.engineOf (Samples.tryProgram Samples.catchEmpty) in
  @astHits engine (Program.commentRules bundled)
           (@Program.errorHandlingRules engine bundled) [] java
  = [(emptyCatchJava, Samples.catchEmpty)]
  /\ emptyCatchJava = emptyCatchJava
  /\ kind Samples.catchEmpty = "catch_clause"
  /\ exists body,
       field "body" Samples.catchEmpty = Some body
       /\ namedChildren body = [].
Proof.
  intros engine. split; [vm_compute; reflexivity|].
  apply (@java_hits_are_empty_catches engine bundled [] java emptyCatchJava
           Samples.catchEmpty).
  - reflexivity.
  - vm_compute. left. reflexivity.
Defined.

Lemma includes_app (l1 l2 : list string) (x : string) :
  includes (l1 ++ l2) x = includes l1 x || includes l2 x.
Proof. unfold includes. apply existsb_app. Qed.

(** No structural rule applies to a language that none of them lists. *)
Lemma astRules_unlisted `{AstGrep} (rev : revision)
    (lang : LanguageConfig.t) :
  includes (structuralLanguages rev) (LanguageConfig.lang lang) = false ->
  Program.astRules rev lang = [].
Proof.
  intros Hl.
  unfold Program.astRules, astRules, rulesForLanguage, appliesTo.
  cbn [snd]. unfold structuralLanguages in Hl.
  rewrite includes_app in Hl. apply orb_false_iff in Hl.
  destruct Hl as [Hl Hruby].
  unfold includes in Hl. cbn [existsb] in Hl.
  rewrite !orb_false_iff in Hl.
  destruct Hl as (Hts & Hjs & Hjava & Hpy & _).
  destruct rev; cbn; unfold includes; cbn [existsb];
    rewrite ?Hts, ?Hjs, ?Hjava, ?Hpy; cbn; [reflexivity|].
  unfold includes in Hruby. cbn [existsb] in Hruby.
  rewrite orb_false_r in Hruby. now rewrite Hruby.
Qed.

(** X10.  For a language that no structural rule lists (Go, Rust, C, C++,
    and Ruby in the revision at [src/rules]) no structural rule applies,
    pass B has no hit, and the result of the scan is that of pass A. *)
Theorem no_structural_pass `{AstGrep} (rev : revision) (source : jsstring)
    (lang : LanguageConfig.t) (filename : string) :
  includes (structuralLanguages rev) (LanguageConfig.lang lang) = false ->
  Program.astRules rev lang = []
  /\ astHits (Program.commentRules rev) (Program.errorHandlingRules rev)
             source lang = []
  /\ Program.scanSource rev source lang filename
     = flat_map (block (Program.commentRules rev) lang filename)
         (visits (LanguageConfig.commentKinds lang)
                 (parse (LanguageConfig.lang lang) source)).
Proof.
  intros Hl.
  assert (Hr : Program.astRules rev lang = [])
    by exact (astRules_unlisted rev lang Hl).
  assert (Hh : astHits (Program.commentRules rev)
                 (Program.errorHandlingRules rev) source lang = []).
  { unfold astHits.
    change (astRules (Program.commentRules rev)
              (Program.errorHandlingRules rev) lang)
      with (Program.astRules rev lang).
    rewrite Hr. induction (visits _ _); simpl; auto. }
  split; [exact Hr|]. split; [exact Hh|].
  unfold Program.scanSource. rewrite scanSource_visits.
  change (astRules (Program.commentRules rev) (Program.errorHandlingRules rev)
                   lang) with (Program.astRules rev lang).
  now rewrite Hr, block_no_rules, app_nil_r.
Qed.

(** The instance of X10 on Go, and on Ruby in the revision at
    [src/rules]. *)
Lemma no_structural_pass_witness :
  let engine := Samples.engineOf (Samples.tryProgram Samples.catchEmpty) in
  @Program.astRules engine src_tree ruby = []
  /\ @Program.astRules engine bundled go = []
  /\ @astHits engine (Program.commentRules bundled)
              (@Program.errorHandlingRules engine bundled) [] go = []
  /\ @Program.scanSource engine bundled [] go "a.go"
     = flat_map (block (Program.commentRules bundled) go "a.go")
         (visits (LanguageConfig.commentKinds go) (@parse engine "go" [])).
Proof.
  intros engine. split.
  - apply (@no_structural_pass engine src_tree [] ruby "a.rb"). reflexivity.
  - apply (@no_structural_pass engine bundled [] go "a.go"). reflexivity.
Defined.

(* ================================================================== *)
(** * The scanner and the rule tables together *)
(* ================================================================== *)

Lemma includes_In (l : list string) (x : string) :
  includes l x = true <-> In x l.
Proof.
  unfold includes. rewrite existsb_exists. split.
  - intros (y & Hy & He). apply String.eqb_eq in He. now subst.
  - intros Hx. exists x. split; [exact Hx|apply String.eqb_refl].
Qed.

(** The kinds that pass B walks for a language include the kind of every
    node on which a structural rule of that language answers. *)
Lemma structural_rule_kind_listed `{AstGrep} (rev : revision) (r : Rule.t)
    (node : SgNode) (lang : LanguageConfig.t) :
  In r (Program.errorHandlingRules rev) ->
  appliesTo lang r = true ->
  Rule.check r node lang = true ->
  In (kind node) (astRuleKinds (LanguageConfig.lang lang)).
Proof.
  intros Hr Ha Hc.
  assert (Hall : In r errorHandlingRules_bundle).
  { destruct rev; [|exact Hr].
    unfold errorHandlingRules_bundle. apply in_or_app. left. exact Hr. }
  clear Hr. unfold errorHandlingRules_bundle, errorHandlingRules in Hall.
  cbn [app In] in Hall.
  repeat (destruct Hall as [<-|Hall]); try contradiction;
    unfold appliesTo in Ha;
    cbn [Rule.languages emptyCatchTS emptyCatchJava bareExceptPython
         passInExceptPython consoleLogInCatchTS emptyRescueRuby] in Ha;
    apply includes_In in Ha; cbn [In] in Ha;
    cbn [Rule.check emptyCatchTS emptyCatchJava bareExceptPython
         passInExceptPython consoleLogInCatchTS emptyRescueRuby] in Hc;
    match type of Hc with
    | context [String.eqb (kind node) ?k] =>
        destruct (String.eqb (kind node) k) eqn:Ek;
        [apply String.eqb_eq in Ek; rewrite Ek|discriminate]
    end;
    repeat (destruct Ha as [<-|Ha]); try contradiction;
    vm_compute; tauto.
Qed.

(** X11.  The scan reports every answer of a rule on a named node and
    nothing else: the hits are the pairs of a named node of the tree and a
    rule, of the comment table or of the structural rules applying to the
    language, that answers on the node.  The kinds by which the two passes
    pick the nodes to visit hide no answer on a named node; an anonymous
    token is not visited, whatever a rule would answer on it. *)
Theorem scan_reports_every_answer `{AstGrep} (rev : revision)
    (source : jsstring) (lang : LanguageConfig.t) (r : Rule.t)
    (node : SgNode) :
  In (r, node) (Program.scanHits rev source lang)
  <-> In node (dfs (parse (LanguageConfig.lang lang) source))
      /\ isNamed node = true
      /\ (In r (Program.commentRules rev)
          \/ In r (Program.errorHandlingRules rev)
             /\ appliesTo lang r = true)
      /\ Rule.check r node lang = true.
Proof.
  unfold Program.scanHits, scanHits. rewrite in_app_iff.
  rewrite in_commentHits, in_astHits. split.
  - intros [(Hn & Hnamed & _ & Hr & Hc)|(Hn & Hnamed & _ & Hr & Ha & Hc)];
      repeat split; auto.
  - intros (Hn & Hnamed & [Hr|[Hr Ha]] & Hc).
    + left. repeat split; auto. apply isComment_kind.
      apply (comment_rule_answers rev r node lang Hr). exact Hc.
    + right. repeat split; auto.
      apply (structural_rule_kind_listed rev r node lang Hr Ha Hc).
Qed.

Lemma NoDup_map_filter {X Y : Type} (key : X -> Y) (keep : X -> bool)
    (xs : list X) (Hkeys : NoDup (map key xs)) :
  NoDup (map key (filter keep xs)).
Proof.
  induction xs as [|x xs IH]; cbn [filter map] in *; [constructor|].
  inversion Hkeys as [|y ys Hx Hxs]; subst.
  destruct (keep x); cbn [map]; auto. constructor; auto.
  intros Hin. apply Hx. apply in_map_iff in Hin.
  destruct Hin as (z & Hz & Hin). apply filter_In in Hin.
  apply in_map_iff. exists z. tauto.
Qed.

Lemma commentRules_ids (rev : revision) :
  NoDup (map Rule.id (Program.commentRules rev)).
Proof. destruct rev; vm_compute; nodup_strings. Qed.

Lemma structural_languages_cases (rev : revision) (l : string) :
  includes (structuralLanguages rev) l = false
  \/ In l ["TypeScript"; "JavaScript"; "java"; "python"]
  \/ rev = bundled /\ l = "ruby".
Proof.
  destruct (includes (structuralLanguages rev) l) eqn:E; [right|now left].
  apply includes_In in E. unfold structuralLanguages in E.
  apply in_app_or in E. destruct E as [E|E]; [now left|right].
  destruct rev; cbn [In] in E; [contradiction|]. intuition.
Qed.

Lemma astRules_ids `{AstGrep} (rev : revision) (lang : LanguageConfig.t) :
  NoDup (map Rule.id (Program.astRules rev lang)).
Proof.
  destruct (structural_languages_cases rev (LanguageConfig.lang lang))
    as [Hn|[Hl|[-> Hl]]].
  - rewrite (astRules_unlisted rev lang Hn). constructor.
  - cbn [In] in Hl. destruct Hl as [Hl|[Hl|[Hl|[Hl|[]]]]]; symmetry in Hl.
    + rewrite (astRules_script rev lang);
        [|unfold isScript; rewrite Hl; reflexivity].
      cbn [map Rule.id emptyCatchTS consoleLogInCatchTS]. nodup_strings.
    + rewrite (astRules_script rev lang);
        [|unfold isScript; rewrite Hl; reflexivity].
      cbn [map Rule.id emptyCatchTS consoleLogInCatchTS]. nodup_strings.
    + rewrite (astRules_java rev lang Hl).
      cbn [map Rule.id emptyCatchJava]. nodup_strings.
    + rewrite (astRules_python rev lang Hl).
      cbn [map Rule.id bareExceptPython passInExceptPython]. nodup_strings.
  - unfold Program.astRules, astRules, rulesForLanguage, appliesTo.
    cbn. rewrite Hl. cbn. nodup_strings.
Qed.

(** X12.  Within one visit no rule identifier is reported twice, in
    whatever language and on whatever node: the comment rules have
    distinct identifiers, and of the structural rules that share the
    identifier empty-error-handler at most one applies to a language. *)
Theorem one_diagnostic_per_rule_id `{AstGrep} (rev : revision)
    (lang : LanguageConfig.t) (filename : string) (node : SgNode) :
  NoDup (map Diagnostic.rule
             (block (Program.commentRules rev) lang filename node))
  /\ NoDup (map Diagnostic.rule
                (block (Program.astRules rev lang) lang filename node)).
Proof.
  rewrite !block_ids. unfold firing. split.
  - apply NoDup_map_filter, commentRules_ids.
  - apply NoDup_map_filter, astRules_ids.
Qed.

Lemma withFile_makeDiagnostic (r : Rule.t) (node : SgNode)
    (f1 f2 : string) :
  withFile f2 (makeDiagnostic r node f1) = makeDiagnostic r node f2.
Proof. reflexivity. Qed.

(** X13.  The file name given to [scanSource] is copied into the
    diagnostics and decides nothing: every diagnostic carries it, and the
    scan of the same source under another name is the same list of
    diagnostics with the other name in them. *)
Theorem filename_only_labels `{AstGrep} (rev : revision)
    (source : jsstring) (lang : LanguageConfig.t) (f1 f2 : string) :
  (forall d, In d (Program.scanSource rev source lang f1) ->
             Diagnostic.file d = f1)
  /\ Program.scanSource rev source lang f2
     = map (withFile f2) (Program.scanSource rev source lang f1).
Proof.
  unfold Program.scanSource. rewrite !scanSource_hits. split.
  - intros d Hd. apply in_map_iff in Hd. destruct Hd as (h & <- & _).
    reflexivity.
  - rewrite map_map. apply map_ext. intros h. reflexivity.
Qed.

Lemma astRules_ruby `{AstGrep} (lang : LanguageConfig.t) :
  LanguageConfig.lang lang = "ruby" ->
  Program.astRules src_tree lang = []
  /\ Program.astRules bundled lang = [emptyRescueRuby].
Proof.
  intros Hl. split.
  - apply astRules_unlisted. rewrite Hl. reflexivity.
  - unfold Program.astRules, astRules, rulesForLanguage, appliesTo.
    cbn. rewrite Hl. reflexivity.
Qed.

Lemma emptyRescueRuby_check (node : SgNode) (lang : LanguageConfig.t) :
  Rule.check emptyRescueRuby node lang
  = String.eqb (kind node) "rescue" && isEmptyRescue node.
Proof.
  cbn [Rule.check emptyRescueRuby]. unfold isEmptyRescue.
  destruct (String.eqb (kind node) "rescue"); cbn [negb andb];
    [|reflexivity].
  destruct (find _ (children node)) as [body|]; [|reflexivity].
  destruct (namedChildren body); reflexivity.
Qed.

Lemma rescue_blocks `{AstGrep} (lang : LanguageConfig.t)
    (filename : string) (nodes : list SgNode) :
  flat_map (block [emptyRescueRuby] lang filename)
           (filter (hasKind "rescue") nodes)
  = map (fun node => makeDiagnostic emptyRescueRuby node filename)
        (filter (fun n => hasKind "rescue" n && isEmptyRescue n) nodes).
Proof.
  induction nodes as [|n nodes IH]; [reflexivity|]. cbn [filter].
  destruct (hasKind "rescue" n) eqn:Ek; cbn [andb]; [|exact IH].
  cbn [flat_map]. rewrite IH. unfold block at 1, firing. cbn [filter].
  rewrite emptyRescueRuby_check. unfold hasKind in Ek.
  apply andb_true_iff in Ek. destruct Ek as [_ Ek]. rewrite Ek.
  cbn [andb]. destruct (isEmptyRescue n); reflexivity.
Qed.

(** X14.  The Ruby rule, which only the bundled build has.  In a Ruby file
    the structural pass of that build reports exactly the rescue clauses,
    named nodes of the tree, that have no [then] child at all or whose
    first [then] child has no named child, each once and as
    empty-error-handler, in the order of the walk; the keyword [rescue]
    inside the clause is an anonymous token and is not visited.  With the
    table of [src/rules] the structural pass reports nothing in a Ruby
    file. *)
Theorem ruby_rescue_reported `{AstGrep} (source : jsstring)
    (lang : LanguageConfig.t) (filename : string) :
  LanguageConfig.lang lang = "ruby" ->
  let root := parse (LanguageConfig.lang lang) source in
  let commentPass rev :=
    flat_map (block (Program.commentRules rev) lang filename)
             (visits (LanguageConfig.commentKinds lang) root) in
  Program.scanSource src_tree source lang filename = commentPass src_tree
  /\ Program.scanSource bundled source lang filename
     = commentPass bundled
       ++ map (fun node => makeDiagnostic emptyRescueRuby node filename)
              (filter (fun n => hasKind "rescue" n && isEmptyRescue n)
                      (dfs root))
  /\ forall r node,
       In (r, node)
          (astHits (Program.commentRules bundled)
                   (Program.errorHandlingRules bundled) source lang)
       <-> In node (dfs root)
           /\ isNamed node = true /\ kind node = "rescue"
           /\ isEmptyRescue node = true /\ r = emptyRescueRuby.
Proof.
  intros Hl root commentPass.
  destruct (astRules_ruby lang Hl) as [Hsrc Hbun].
  assert (Hkinds : astRuleKinds (LanguageConfig.lang lang) = ["rescue"])
    by (rewrite Hl; reflexivity).
  split; [|split].
  - unfold Program.scanSource. rewrite scanSource_visits.
    change (astRules (Program.commentRules src_tree)
              (Program.errorHandlingRules src_tree) lang)
      with (Program.astRules src_tree lang).
    now rewrite Hsrc, block_no_rules, app_nil_r.
  - unfold Program.scanSource. rewrite scanSource_visits.
    change (astRules (Program.commentRules bundled)
              (Program.errorHandlingRules bundled) lang)
      with (Program.astRules bundled lang).
    rewrite Hbun, Hkinds. unfold visits at 2. cbn [flat_map].
    rewrite app_nil_r, rescue_blocks. reflexivity.
  - intros r node. unfold astHits.
    change (astRules (Program.commentRules bundled)
              (Program.errorHandlingRules bundled) lang)
      with (Program.astRules bundled lang).
    rewrite Hbun, Hkinds, in_flat_map. split.
    + intros (n & Hn & Hh). apply in_hitsOn in Hh.
      destruct Hh as (-> & [<-|[]] & Hc). apply in_visits in Hn.
      destruct Hn as (Hn & Hnamed & [Hk|[]]).
      rewrite emptyRescueRuby_check in Hc. apply andb_true_iff in Hc.
      destruct Hc as [_ He]. auto.
    + intros (Hn & Hnamed & Hk & He & ->). exists node. split.
      * apply in_visits. rewrite Hk. repeat split; auto. now left.
      * apply in_hitsOn. repeat split; [now left|].
        rewrite emptyRescueRuby_check, Hk, He. reflexivity.
Qed.

(** The instance of X14 on [begin; x; rescue; end]: one diagnostic, on the
    clause, and none on its keyword. *)
Lemma ruby_rescue_reported_witness :
  let engine := Samples.engineOf Samples.rubyProgram in
  let d := makeDiagnostic emptyRescueRuby Samples.rubyRescue "a.rb" in
  @Program.scanSource engine bundled [] ruby "a.rb" = [d]
  /\ (Diagnostic.line d, Diagnostic.column d) = (3, 1)
  /\ @Program.scanSource engine src_tree [] ruby "a.rb"
     = flat_map (block (Program.commentRules src_tree) ruby "a.rb")
                (visits ["comment"] Samples.rubyProgram).
Proof.
  intros engine d. split; [vm_compute; reflexivity|].
  split; [reflexivity|].
  apply (@ruby_rescue_reported engine [] ruby "a.rb"). reflexivity.
Defined.

(* ================================================================== *)
(** * The registry of languages *)
(* ================================================================== *)

Lemma languageForExtensionOf_src_tree (ext : string) :
  languageForExtensionOf src_tree ext = languageForExtension ext.
Proof. reflexivity. Qed.

(** X15.  [languageForExtension] finds the language that lists the
    extension, and there is only one: it answers [l] exactly when [l] is a
    language of the registry whose extensions include [ext], and answers
    nothing exactly when no language of the registry lists [ext], as for
    the empty extension of a file name without a dot.  The comparison is
    that of strings, so that [TS] is not [ts]. *)
Theorem languageForExtension_spec (rev : revision) (ext : string) :
  languageForExtensionOf src_tree ext = languageForExtension ext
  /\ (forall l,
        languageForExtensionOf rev ext = Some l
        <-> In l (map snd (LANGUAGES_of rev))
            /\ In ext (LanguageConfig.extensions l))
  /\ (languageForExtensionOf rev ext = None
      <-> forall l, In l (map snd (LANGUAGES_of rev)) ->
                    ~ In ext (LanguageConfig.extensions l))
  /\ languageForExtensionOf rev "" = None
  /\ languageForExtensionOf rev "TS" = None.
Proof.
  split; [reflexivity|]. split; [|split].
  - intros l. split.
    + intros Hf. unfold languageForExtensionOf in Hf.
      apply find_some in Hf. destruct Hf as [Hl He].
      apply includes_In in He. auto.
    + intros [Hl He].
      destruct rev; cbn [LANGUAGES_of LANGUAGES_bundle LANGUAGES app map snd In]
        in Hl;
        repeat (destruct Hl as [<-|Hl]); try contradiction;
        cbn [LanguageConfig.extensions typescript javascript python go rust
             c cpp java ruby In] in He;
        repeat (destruct He as [<-|He]); try contradiction; reflexivity.
  - split.
    + intros Hn l Hl He. unfold languageForExtensionOf in Hn.
      apply (find_none _ _ Hn) in Hl. apply includes_In in He.
      rewrite He in Hl. discriminate.
    + intros Hn. unfold languageForExtensionOf.
      destruct (find _ _) as [l|] eqn:Hf; [|reflexivity].
      apply find_some in Hf. destruct Hf as [Hl He].
      apply includes_In in He. destruct (Hn l Hl He).
  - destruct rev; split; reflexivity.
Qed.

(* ================================================================== *)
(** * The formatter *)
(* ================================================================== *)

Lemma in_distinct (l : list string) (x : string) :
  In x (distinct l) <-> In x l.
Proof.
  induction l as [|y l IH]; simpl; [tauto|].
  rewrite filter_In, IH. split.
  - intros [->|[Hx _]]; auto.
  - intros [->|Hx]; [now left|].
    destruct (String.eqb x y) eqn:E.
    + apply String.eqb_eq in E. subst. now left.
    + right. split; [exact Hx|reflexivity].
Qed.

Lemma NoDup_filter {A : Type} (p : A -> bool) (l : list A) :
  NoDup l -> NoDup (filter p l).
Proof.
  intros Hn. rewrite <- (map_id (filter p l)).
  apply NoDup_map_filter. now rewrite map_id.
Qed.

Lemma NoDup_distinct (l : list string) : NoDup (distinct l).
Proof.
  induction l as [|x l IH]; simpl; constructor.
  - rewrite filter_In. intros [_ Hx]. now rewrite String.eqb_refl in Hx.
  - now apply NoDup_filter.
Qed.

Lemma distinct_snoc (l : list string) (x : string) :
  distinct (l ++ [x])
  = if includes l x then distinct l else distinct l ++ [x].
Proof.
  induction l as [|y l IH]; [reflexivity|].
  cbn [app distinct]. rewrite IH. unfold includes. cbn [existsb].
  fold (includes l x).
  destruct (String.eqb x y) eqn:Exy; cbn [orb].
  - destruct (includes l x); [reflexivity|].
    rewrite filter_app. cbn [filter]. rewrite Exy. cbn [negb].
    now rewrite app_nil_r.
  - destruct (includes l x); [reflexivity|].
    rewrite filter_app. cbn [filter]. rewrite Exy. reflexivity.
Qed.

Section MapOfKeys.

Variable phi : string -> list Diagnostic.t.

Lemma mapGet_keys (K : list string) (f : string) :
  mapGet (map (fun g => (g, phi g)) K) f
  = if includes K f then Some (phi f) else None.
Proof.
  induction K as [|g K IH]; [reflexivity|].
  cbn [map mapGet]. unfold includes. cbn [existsb]. fold (includes K f).
  rewrite (String.eqb_sym f g).
  destruct (String.eqb g f) eqn:E; cbn [orb]; [|exact IH].
  apply String.eqb_eq in E. now subst.
Qed.

Lemma mapSet_new (K : list string) (f : string) (v : list Diagnostic.t) :
  includes K f = false ->
  mapSet (map (fun g => (g, phi g)) K) f v
  = map (fun g => (g, phi g)) K ++ [(f, v)].
Proof.
  induction K as [|g K IH]; [reflexivity|].
  unfold includes. cbn [existsb]. fold (includes K f).
  rewrite (String.eqb_sym f g). intros Hn.
  apply orb_false_iff in Hn. destruct Hn as [E Hn].
  cbn [map mapSet app]. rewrite E. now rewrite (IH Hn).
Qed.

Lemma mapSet_old (K : list string) (f : string) (v : list Diagnostic.t) :
  NoDup K ->
  includes K f = true ->
  mapSet (map (fun g => (g, phi g)) K) f v
  = map (fun g => (g, if String.eqb g f then v else phi g)) K.
Proof.
  induction K as [|g K IH]; [discriminate|].
  intros Hd Hin. inversion Hd as [|g' K' Hg HK]; subst.
  cbn [map mapSet]. destruct (String.eqb g f) eqn:E.
  - f_equal. apply map_ext_in. intros h Hh.
    destruct (String.eqb h f) eqn:E'; [|reflexivity].
    apply String.eqb_eq in E, E'. subst. contradiction.
  - f_equal. apply (IH HK).
    unfold includes in Hin. cbn [existsb] in Hin.
    rewrite (String.eqb_sym f g), E in Hin. exact Hin.
Qed.

End MapOfKeys.

Lemma diagnosticsOf_snoc (f : string) (l : list Diagnostic.t)
    (d : Diagnostic.t) :
  diagnosticsOf f (l ++ [d])
  = diagnosticsOf f l
    ++ (if String.eqb (Diagnostic.file d) f then [d] else []).
Proof. unfold diagnosticsOf. rewrite filter_app. reflexivity. Qed.

Lemma diagnosticsOf_absent (f : string) (l : list Diagnostic.t) :
  includes (map Diagnostic.file l) f = false ->
  diagnosticsOf f l = [].
Proof.
  induction l as [|d l IH]; [reflexivity|].
  unfold includes. cbn [map existsb]. fold (includes (map Diagnostic.file l) f).
  intros Hn. apply orb_false_iff in Hn. destruct Hn as [E Hn].
  unfold diagnosticsOf. cbn [filter].
  rewrite (String.eqb_sym (Diagnostic.file d) f), E. exact (IH Hn).
Qed.

Lemma includes_distinct (l : list string) (x : string) :
  includes (distinct l) x = includes l x.
Proof.
  destruct (includes l x) eqn:E.
  - apply includes_In. apply in_distinct. now apply includes_In.
  - destruct (includes (distinct l) x) eqn:E'; [|reflexivity].
    apply includes_In in E'. apply (proj1 (in_distinct l x)) in E'.
    apply (proj2 (includes_In l x)) in E'. congruence.
Qed.

(** The map that the first loop builds: a key for each file, in the order
    in which the files first occur, with the diagnostics of that file in
    the order given. *)
Lemma groupByFile_spec (diagnostics : list Diagnostic.t) :
  groupByFile diagnostics
  = map (fun f => (f, diagnosticsOf f diagnostics))
        (distinct (map Diagnostic.file diagnostics)).
Proof.
  unfold groupByFile.
  induction diagnostics as [|d l IH] using rev_ind; [reflexivity|].
  rewrite fold_left_app. cbn [fold_left]. rewrite IH. clear IH.
  rewrite map_app. cbn [map]. rewrite distinct_snoc.
  set (f := Diagnostic.file d).
  rewrite mapGet_keys, includes_distinct.
  destruct (includes (map Diagnostic.file l) f) eqn:Hin.
  - rewrite mapSet_old;
      [|apply NoDup_distinct|now rewrite includes_distinct].
    apply map_ext. intros g. rewrite diagnosticsOf_snoc. fold f.
    rewrite (String.eqb_sym f g).
    destruct (String.eqb g f) eqn:E.
    + apply String.eqb_eq in E. now subst.
    + now rewrite app_nil_r.
  - rewrite mapSet_new; [|now rewrite includes_distinct].
    rewrite map_app. cbn [map]. f_equal.
    + apply map_ext_in. intros g Hg. rewrite diagnosticsOf_snoc. fold f.
      destruct (String.eqb f g) eqn:E; [|now rewrite app_nil_r].
      apply String.eqb_eq in E. subst g.
      apply (proj1 (in_distinct _ _)) in Hg.
      apply (proj2 (includes_In _ _)) in Hg. congruence.
    + rewrite diagnosticsOf_snoc. fold f. rewrite String.eqb_refl.
      now rewrite (diagnosticsOf_absent f l Hin).
Qed.

Lemma fold_left_pushes {A B : Type} (g : B -> list A) (l : list B)
    (acc : list A) :
  fold_left (fun acc x => acc ++ g x) l acc = acc ++ flat_map g l.
Proof.
  revert acc. induction l as [|x l IH]; intros acc; simpl.
  - now rewrite app_nil_r.
  - now rewrite IH, app_assoc.
Qed.

Lemma fold_left_pointwise {A B : Type} (f g : A -> B -> A) (l : list B)
    (acc : A) :
  (forall a b, f a b = g a b) ->
  fold_left f l acc = fold_left g l acc.
Proof.
  intros Hfg. revert acc. induction l as [|x l IH]; intros acc; simpl.
  - reflexivity.
  - now rewrite Hfg, IH.
Qed.

Lemma pushDiagnostic_entryLines (c : Palette.t) (lines : list jsstring)
    (d : Diagnostic.t) :
  pushDiagnostic c lines d = lines ++ entryLines c d.
Proof.
  unfold pushDiagnostic, entryLines, push.
  destruct (Diagnostic.text d); [reflexivity|].
  now rewrite <- app_assoc.
Qed.

Lemma flat_map_map {A B C : Type} (h : A -> B) (g : B -> list C)
    (l : list A) :
  flat_map g (map h l) = flat_map (fun x => g (h x)) l.
Proof. induction l; simpl; congruence. Qed.

(** The second loop: a section for each entry of the map. *)
Lemma sections_fold (c : Palette.t) (diagnostics : list Diagnostic.t) :
  fold_left
    (fun lines entry =>
       let '(file, diags) := entry in
       let lines := push lines [] in
       let lines := push lines (headerLine c file) in
       fold_left (pushDiagnostic c) diags lines)
    (groupByFile diagnostics) []
  = flat_map (sectionLines c diagnostics)
             (distinct (map Diagnostic.file diagnostics)).
Proof.
  rewrite groupByFile_spec.
  rewrite (fold_left_pointwise _
             (fun lines entry =>
                lines ++ [] :: headerLine c (fst entry)
                         :: flat_map (entryLines c) (snd entry))).
  - rewrite fold_left_pushes. cbn [app]. rewrite flat_map_map.
    reflexivity.
  - intros lines [file diags]. cbv beta iota. cbn [fst snd].
    rewrite (fold_left_pointwise _ (fun acc d => acc ++ entryLines c d))
      by apply pushDiagnostic_entryLines.
    rewrite fold_left_pushes. unfold push.
    rewrite <- !app_assoc. reflexivity.
Qed.

(** The report of at least one diagnostic. *)
Lemma formatDiagnostics_sections (diagnostics : list Diagnostic.t)
    (color : bool) :
  diagnostics <> [] ->
  formatDiagnostics diagnostics color
  = joinLines [newline]
      (flat_map (sectionLines (palette color) diagnostics)
                (distinct (map Diagnostic.file diagnostics))
       ++ [[]; summaryLine (palette color) (List.length diagnostics)]).
Proof.
  intros Hne. unfold formatDiagnostics.
  destruct diagnostics as [|d0 l0] eqn:Ed; [contradiction|].
  cbn [List.length Nat.eqb]. rewrite <- Ed. cbv zeta.
  rewrite sections_fold. unfold push. now rewrite <- app_assoc.
Qed.

(** X16.  The report has one section for each file, in the order in which
    the files first occur among the diagnostics; a section is an empty
    line, the name of the file, and the lines of the diagnostics of that
    file in the order given, also when they were not next to one another.
    An empty line and the line of the count end the report; of no
    diagnostics the report is the empty string. *)
Theorem report_groups_by_file (diagnostics : list Diagnostic.t)
    (color : bool) :
  formatDiagnostics diagnostics color
  = match diagnostics with
    | [] => []
    | _ :: _ =>
        joinLines [newline]
          (flat_map (sectionLines (palette color) diagnostics)
                    (distinct (map Diagnostic.file diagnostics))
           ++ [[]; summaryLine (palette color) (List.length diagnostics)])
    end.
Proof.
  destruct diagnostics as [|d0 l0] eqn:Ed; [reflexivity|].
  rewrite <- Ed. unfold formatDiagnostics. rewrite Ed at 1.
  cbn [List.length Nat.eqb]. cbv zeta.
  rewrite sections_fold. unfold push. now rewrite <- app_assoc.
Qed.


Lemma in_joinLines (sep : jsstring) (lines : list jsstring) (x : char) :
  In x (joinLines sep lines)
  -> In x sep \/ exists l, In l lines /\ In x l.
Proof.
  destruct lines as [|l ls]; [contradiction|]. cbn [joinLines].
  rewrite in_app_iff, in_flat_map.
  intros [Hx|(l' & Hl' & Hx)].
  - right. exists l. split; [now left|exact Hx].
  - apply in_app_or in Hx. destruct Hx as [Hx|Hx]; [now left|].
    right. exists l'. split; [now right|exact Hx].
Qed.

Lemma joinLines_in (sep : jsstring) (lines : list jsstring) (l : jsstring)
    (x : char) :
  In l lines -> In x l -> In x (joinLines sep lines).
Proof.
  destruct lines as [|l0 ls]; [contradiction|]. cbn [joinLines].
  intros [->|Hl] Hx; apply in_or_app; [now left|right].
  apply in_flat_map. exists l. split; [exact Hl|].
  apply in_or_app. now right.
Qed.

(** A number is written with digits. *)
Lemma decimal_digits (n : N) (x : char) :
  In x (decimal n) -> isDigit x = true.
Proof.
  unfold decimal, NilZero.string_of_uint.
  assert (H : forall d, In x (js (NilEmpty.string_of_uint d)) ->
                        isDigit x = true).
  { induction d; cbn; try contradiction;
      (intros [<-|Hx]; [reflexivity|exact (IHd Hx)]). }
  destruct (N.to_uint n) eqn:E; try apply H.
  cbn. intros [<-|[]]. reflexivity.
Qed.

Lemma js_app (a b : string) : js (a ++ b)%string = js a ++ js b.
Proof.
  unfold js. induction a as [|ch a IH]; [reflexivity|].
  cbn. now rewrite IH.
Qed.

Ltac no_escape_piece :=
  match goal with
  | H : In ESC (_ ++ _) |- _ =>
      apply in_app_or in H; destruct H as [H|H]
  | H : In ESC (decimal _) |- _ =>
      apply decimal_digits in H; discriminate H
  | H : In ESC (js _) |- _ =>
      solve [vm_compute in H; intuition discriminate]
  | H : In ESC [] |- _ => destruct H
  | H : In ESC [warningSign] |- _ => destruct H as [H|[]]; discriminate H
  end.

Lemma plain_fields (d : Diagnostic.t) :
  plain d = true ->
  ~ In ESC (jsOf (Diagnostic.file d))
  /\ ~ In ESC (jsOf (Diagnostic.message d))
  /\ ~ In ESC (jsOf (Diagnostic.rule d))
  /\ ~ In ESC (Diagnostic.text d).
Proof.
  unfold plain. rewrite !forallb_app, !andb_true_iff.
  intros (Hf & Hm & Hr & Ht).
  assert (Hno : forall s, forallb (fun x => negb (x =? ESC)) s = true ->
                          ~ In ESC s).
  { intros s Hs Hin. rewrite forallb_forall in Hs.
    specialize (Hs ESC Hin). now rewrite N.eqb_refl in Hs. }
  auto.
Qed.

(** X17.  Without colour the report has no escape character of its own:
    when no diagnostic has one in its file name, message, rule identifier
    or text, the report has none. *)
Theorem no_escape_without_color (diagnostics : list Diagnostic.t) :
  forallb plain diagnostics = true ->
  ~ In ESC (formatDiagnostics diagnostics false).
Proof.
  intros Hp Hin. rewrite forallb_forall in Hp.
  destruct diagnostics as [|d0 l0] eqn:Ed; [exact Hin|].
  rewrite <- Ed in *.
  rewrite formatDiagnostics_sections in Hin by (rewrite Ed; discriminate).
  clear Ed d0 l0.
  apply in_joinLines in Hin.
  destruct Hin as [[Hx|[]]|(l & Hl & Hx)]; [discriminate Hx|].
  apply in_app_or in Hl. destruct Hl as [Hl|Hl].
  - apply in_flat_map in Hl. destruct Hl as (f & Hf & Hl).
    apply (proj1 (in_distinct _ _)) in Hf. apply in_map_iff in Hf.
    destruct Hf as (d & <- & Hd).
    destruct Hl as [<-|[<-|Hl]].
    + destruct Hx.
    + destruct (plain_fields d (Hp d Hd)) as (Hfile & _).
      unfold headerLine in Hx. cbn [palette Palette.bold Palette.reset] in Hx.
      rewrite app_nil_r in Hx. exact (Hfile Hx).
    + apply in_flat_map in Hl. destruct Hl as (d' & Hd' & Hl).
      unfold diagnosticsOf in Hd'. apply filter_In in Hd'.
      destruct Hd' as [Hd' _].
      destruct (plain_fields d' (Hp d' Hd')) as (_ & Hm & Hr & Ht).
      unfold entryLines in Hl. destruct Hl as [<-|Hl].
      * unfold warningLine in Hx.
        cbn [palette Palette.gray Palette.reset Palette.cyan
             Palette.yellow] in Hx.
        repeat first [contradiction | no_escape_piece].
      * destruct (Diagnostic.text d') eqn:Et; [destruct Hl|].
        destruct Hl as [<-|[]]. unfold textLine in Hx.
        cbn [palette Palette.gray Palette.reset] in Hx. rewrite Et in Hx.
        repeat first [contradiction | no_escape_piece].
  - destruct Hl as [<-|[<-|[]]]; [destruct Hx|].
    unfold summaryLine in Hx.
    cbn [palette Palette.yellow Palette.bold Palette.reset] in Hx.
    destruct (List.length diagnostics =? 1)%nat;
      repeat first [contradiction | no_escape_piece].
Qed.

(** The instance of X17 on one diagnostic. *)
Lemma no_escape_without_color_witness :
  let d :=
    Diagnostic.mk "step-comment" "Step comment" None "a.ts" 3 1
                  (js "// Step 1: parse") in
  forallb plain [d] = true
  /\ ~ In ESC (formatDiagnostics [d] false).
Proof.
  intros d. split; [reflexivity|].
  apply (no_escape_without_color [d]). reflexivity.
Defined.

(** X18.  The report is the empty string of no diagnostics and of nothing
    else: a report of diagnostics has the warning sign in it, with colour
    and without. *)
Theorem report_empty_iff (diagnostics : list Diagnostic.t) (color : bool) :
  (formatDiagnostics diagnostics color = [] <-> diagnostics = [])
  /\ (diagnostics <> [] ->
      In warningSign (formatDiagnostics diagnostics color)).
Proof.
  assert (Hw : diagnostics <> [] ->
               In warningSign (formatDiagnostics diagnostics color)).
  { intros Hne. rewrite (formatDiagnostics_sections _ _ Hne).
    apply (joinLines_in _ _
             (summaryLine (palette color) (List.length diagnostics))).
    - apply in_or_app. right. right. now left.
    - unfold summaryLine. apply in_or_app. right. apply in_or_app. right.
      apply in_or_app. left. now left. }
  split; [|exact Hw]. split.
  - intros He. destruct diagnostics as [|d l]; [reflexivity|].
    assert (Hin : In warningSign (formatDiagnostics (d :: l) color))
      by (apply Hw; discriminate).
    rewrite He in Hin. destruct Hin.
  - intros ->. reflexivity.
Qed.

(* ================================================================== *)
(** * The command line *)
(* ================================================================== *)

Section CliFacts.

Context `{AstGrep}.
Variable rev : revision.
Variable host : Host.t.

Lemma walk_entries (dir : string) (entries : list Dirent) :
  Forall (fun e => forall dir files p,
            In p (walkEntry host dir files e)
            <-> In p files \/ Reaches host dir e p) entries ->
  forall files p,
    In p (fold_left (fun files entry => walkEntry host dir files entry)
                    entries files)
    <-> In p files \/ exists e, In e entries /\ Reaches host dir e p.
Proof.
  induction 1 as [|e l He Hl IH]; intros files p; cbn [fold_left].
  - split; [now left|]. intros [Hp|(e & [] & _)]. exact Hp.
  - rewrite IH, He. split.
    + intros [[Hp|Hr]|(e' & He' & Hr)].
      * now left.
      * right. exists e. split; [now left|exact Hr].
      * right. exists e'. split; [now right|exact Hr].
    + intros [Hp|(e' & [<-|He'] & Hr)].
      * left. now left.
      * left. now right.
      * right. exists e'. split; [exact He'|exact Hr].
Qed.

Lemma walkEntry_reaches (entry : Dirent) :
  forall dir files p,
    In p (walkEntry host dir files entry)
    <-> In p files \/ Reaches host dir entry p.
Proof.
  induction entry as [name|name entries IH|name] using Dirent_induction;
    intros dir files p; cbn [walkEntry].
  - destruct (skipped name) eqn:Es.
    + split; [now left|]. intros [Hp|Hr]; [exact Hp|].
      inversion Hr; congruence.
    + unfold push. rewrite in_app_iff. cbn [In]. split.
      * intros [Hp|[<-|[]]]; [now left|right]. now constructor.
      * intros [Hp|Hr]; [now left|right]. inversion Hr; subst. now left.
  - destruct (skipped name) eqn:Es.
    + split; [now left|]. intros [Hp|Hr]; [exact Hp|].
      inversion Hr; congruence.
    + rewrite (walk_entries _ entries IH). split.
      * intros [Hp|(e & He & Hr)]; [now left|right].
        now apply (reach_dir host dir name entries e p).
      * intros [Hp|Hr]; [now left|right]. inversion Hr; subst.
        eauto.
  - split; [now left|]. intros [Hp|Hr]; [exact Hp|]. inversion Hr.
Qed.

Lemma walkDir_reaches (dir : string) (entries : list Dirent)
    (files : list string) (p : string) :
  In p (walkDir host dir entries files)
  <-> In p files \/ exists e, In e entries /\ Reaches host dir e p.
Proof.
  unfold walkDir.
  apply (walk_entries dir entries).
  apply Forall_forall. intros e _. apply walkEntry_reaches.
Qed.

Lemma walk_entries_prefix (dir : string) (entries : list Dirent) :
  Forall (fun e => forall dir files,
            walkEntry host dir files e
            = files ++ walkEntry host dir [] e) entries ->
  forall files,
    fold_left (fun files entry => walkEntry host dir files entry)
              entries files
    = files
      ++ fold_left (fun files entry => walkEntry host dir files entry)
                   entries [].
Proof.
  induction 1 as [|e l He Hl IH]; intros files; cbn [fold_left].
  - now rewrite app_nil_r.
  - rewrite IH, (IH (walkEntry host dir [] e)), (He dir files).
    now rewrite app_assoc.
Qed.

Lemma walkEntry_prefix (entry : Dirent) :
  forall dir files,
    walkEntry host dir files entry
    = files ++ walkEntry host dir [] entry.
Proof.
  induction entry as [name|name entries IH|name] using Dirent_induction;
    intros dir files; cbn [walkEntry].
  - destruct (skipped name); [now rewrite app_nil_r|reflexivity].
  - destruct (skipped name); [now rewrite app_nil_r|].
    apply (walk_entries_prefix _ entries IH).
  - now rewrite app_nil_r.
Qed.

Lemma walkDir_prefix (dir : string) (entries : list Dirent)
    (files : list string) :
  walkDir host dir entries files
  = files ++ walkDir host dir entries [].
Proof.
  unfold walkDir. apply (walk_entries_prefix dir entries).
  apply Forall_forall. intros e _. apply walkEntry_prefix.
Qed.

(** X19.  [walkDir] keeps what was collected before it, in front and in
    its order, and adds the regular files that are reached from the
    directory through entries none of which is hidden or in [SKIP], and
    no other path: it does not go into a directory of such a name, and
    it leaves out what is neither a regular file nor a directory. *)
Theorem walkDir_collects (dir : string) (entries : list Dirent)
    (files : list string) :
  walkDir host dir entries files = files ++ walkDir host dir entries []
  /\ forall p,
       In p (walkDir host dir entries [])
       <-> exists e, In e entries /\ Reaches host dir e p.
Proof.
  split; [apply walkDir_prefix|].
  intros p. rewrite walkDir_reaches. cbn [In]. tauto.
Qed.

Lemma collectFiles_fold (paths : list string) (files errors : list string) :
  fold_left
    (fun state p =>
       let '(files, errors) := state in
       let resolved := Host.resolve host p in
       match Host.statSync host resolved with
       | None =>
           (files,
            push errors
                 (str ["sloplint: "; p; ": No such file or directory"]))
       | Some StFile => (push files resolved, errors)
       | Some (StDir entries) =>
           (walkDir host resolved entries files, errors)
       | Some StOther => (files, errors)
       end)
    paths (files, errors)
  = (files ++ flat_map (filesOfPath host) paths,
     errors
     ++ map (fun p => str ["sloplint: "; p; ": No such file or directory"])
            (filter (isMissing host) paths)).
Proof.
  revert files errors.
  induction paths as [|p paths IH]; intros files errors; cbn [fold_left].
  - cbn. now rewrite !app_nil_r.
  - cbn [flat_map filter].
    assert (Hf : filesOfPath host p
                 = match Host.statSync host (Host.resolve host p) with
                   | Some StFile => [Host.resolve host p]
                   | Some (StDir entries) =>
                       walkDir host (Host.resolve host p) entries []
                   | _ => []
                   end) by reflexivity.
    assert (Hm : isMissing host p
                 = match Host.statSync host (Host.resolve host p) with
                   | None => true
                   | Some _ => false
                   end) by reflexivity.
    rewrite Hf, Hm. clear Hf Hm.
    destruct (Host.statSync host (Host.resolve host p)) as [[|entries|]|];
      rewrite IH; unfold push; cbn [map app];
      rewrite <- ?app_assoc; try reflexivity.
    rewrite walkDir_prefix, <- app_assoc. reflexivity.
Qed.

Lemma collectFiles_flat_map (paths : list string) :
  collectFiles host paths
  = (flat_map (filesOfPath host) paths,
     map (fun p => str ["sloplint: "; p; ": No such file or directory"])
         (filter (isMissing host) paths)).
Proof. unfold collectFiles. now rewrite collectFiles_fold. Qed.

Lemma filesOfPath_standsFor (p file : string) :
  In file (filesOfPath host p) <-> standsFor host p file.
Proof.
  unfold filesOfPath, standsFor.
  destruct (Host.statSync host (Host.resolve host p)) as [[|entries|]|];
    cbn [In]; try tauto.
  - intuition.
  - rewrite walkDir_reaches. cbn [In]. tauto.
Qed.

(** X20.  [collectFiles] takes the arguments one by one: the files are
    those that some argument stands for, a regular file for itself,
    whatever its name, and a directory for what its walk reaches; an
    argument that is not there gives a line on the error stream, in the
    order of the arguments, and no file; an argument that is neither a
    regular file nor a directory gives nothing. *)
Theorem collectFiles_spec (paths : list string) :
  (forall file,
     In file (fst (collectFiles host paths))
     <-> exists p, In p paths /\ standsFor host p file)
  /\ snd (collectFiles host paths)
     = map (fun p => str ["sloplint: "; p; ": No such file or directory"])
           (filter (isMissing host) paths)
  /\ forall more,
       fst (collectFiles host (paths ++ more))
       = fst (collectFiles host paths) ++ fst (collectFiles host more).
Proof.
  rewrite !collectFiles_flat_map. cbn [fst snd]. split; [|split].
  - intros file. rewrite in_flat_map.
    split; intros (p & Hp & Hf); exists p; split; auto;
      now apply filesOfPath_standsFor.
  - reflexivity.
  - intros more. rewrite !collectFiles_flat_map. cbn [fst].
    apply flat_map_app.
Qed.

Lemma scanFile_fold (files : list string) (acc : list Diagnostic.t) :
  fold_left (scanFile rev host) files acc
  = acc ++ flat_map (diagnosticsOfFile rev host) files.
Proof.
  revert acc. induction files as [|f files IH]; intros acc; cbn.
  - now rewrite app_nil_r.
  - rewrite IH. unfold diagnosticsOfFile, scanFile.
    destruct (languageForExtensionOf rev _);
      cbn [app]; now rewrite <- ?app_assoc.
Qed.

Lemma flat_map_nonempty {A B : Type} (g : A -> list B) (l : list A) :
  flat_map g l <> [] <-> exists x, In x l /\ g x <> [].
Proof.
  induction l as [|x l IH]; cbn.
  - split; [congruence|]. intros (x & [] & _).
  - split.
    + intros Hne. destruct (g x) eqn:Eg.
      * cbn in Hne. apply IH in Hne. destruct Hne as (y & Hy & Hg).
        exists y. auto.
      * exists x. split; [now left|]. rewrite Eg. discriminate.
    + intros (y & [<-|Hy] & Hg) He; apply app_eq_nil in He;
        destruct He as [He1 He2]; [contradiction|].
      apply IH in He2; [exact He2|]. exists y. auto.
Qed.

Ltac settle_run :=
  repeat split; intros;
  repeat match goal with
         | H : _ /\ _ |- _ => destruct H
         | H : _ \/ _ |- _ => destruct H
         | H : ?x <> ?x |- _ => destruct (H eq_refl)
         end;
  try discriminate; try congruence; try contradiction;
  try (left; congruence); try (right; assumption); auto.

(** X21.  How a run ends.  It ends with status 1 when there is no
    argument, or when one of the collected files has a diagnostic, and
    only then is something written to the standard output; it ends with
    status 0 by [process.exit] when there are arguments and no file is
    collected, also when every argument was reported as not there; in
    every other run [main] comes to its end and nothing is written to the
    standard output. *)
Theorem main_exit (args : list string) :
  let found :=
    exists file,
      In file (fst (collectFiles host args))
      /\ diagnosticsOfFile rev host file <> [] in
  (Run.exit (main rev host args) = Some 1 <-> args = [] \/ found)
  /\ (Run.exit (main rev host args) = Some 0
      <-> args <> [] /\ fst (collectFiles host args) = [])
  /\ (Run.exit (main rev host args) = None
      <-> fst (collectFiles host args) <> [] /\ ~ found)
  /\ (Run.stdout (main rev host args) <> [] <-> found).
Proof.
  intros found. unfold main.
  destruct (List.length args =? 0)%nat eqn:El.
  - assert (Hargs : args = []) by (destruct args; [reflexivity|discriminate]).
    assert (Hnf : ~ found)
      by (unfold found; rewrite Hargs; intros (file & [] & _)).
    assert (Hfiles : fst (collectFiles host args) = [])
      by (rewrite Hargs; reflexivity).
    clearbody found. cbn [usage Run.exit Run.stdout]. settle_run.
  - assert (Hargs : args <> []) by (intros ->; discriminate).
    destruct (collectFiles host args) as [files errors] eqn:Ec.
    cbn [fst] in found |- *.
    destruct (List.length files =? 0)%nat eqn:Ef.
    + assert (Hfiles : files = [])
        by (destruct files; [reflexivity|discriminate]).
      assert (Hnf : ~ found)
        by (unfold found; rewrite Hfiles; intros (file & [] & _)).
      clearbody found. cbn [Run.exit Run.stdout]. settle_run.
    + assert (Hfiles : files <> []) by (intros ->; discriminate).
      rewrite scanFile_fold. cbn [app].
      assert (Hfound : found <-> flat_map (diagnosticsOfFile rev host) files
                                 <> [])
        by (symmetry; apply flat_map_nonempty).
      clearbody found.
      destruct (flat_map (diagnosticsOfFile rev host) files) as [|d ds].
      * assert (Hnf : ~ found) by (intros Hf; now apply Hfound in Hf).
        clear Hfound. cbn. settle_run.
      * assert (Hyes : found) by (apply Hfound; discriminate).
        clear Hfound. cbn. settle_run.
Qed.

Lemma collectFiles_read (read : string -> jsstring)
    (paths : list string) :
  collectFiles (Host.withReadFileSync host read) paths
  = collectFiles host paths.
Proof. reflexivity. Qed.

Lemma fold_left_pointwise_in {A B : Type} (f g : A -> B -> A)
    (l : list B) (acc : A) :
  (forall a b, In b l -> f a b = g a b) ->
  fold_left f l acc = fold_left g l acc.
Proof.
  revert acc. induction l as [|x l IH]; intros acc Hfg; cbn.
  - reflexivity.
  - rewrite Hfg by now left. apply IH. intros a b Hb. apply Hfg.
    now right.
Qed.

(** X22.  [main] reads the collected files of a supported extension and
    no other file: what the other files hold, or whether they can be read
    as text at all, changes nothing of the run. *)
Theorem main_reads_supported_only (read1 read2 : string -> jsstring)
    (args : list string) :
  (forall file,
     In file (fst (collectFiles host args)) ->
     isSupported rev host file = true ->
     read1 file = read2 file) ->
  main rev (Host.withReadFileSync host read1) args
  = main rev (Host.withReadFileSync host read2) args.
Proof.
  intros Hsame. unfold main. rewrite !collectFiles_read.
  destruct (List.length args =? 0)%nat; [reflexivity|].
  destruct (collectFiles host args) as [files errors].
  cbn [fst] in Hsame.
  destruct (List.length files =? 0)%nat; [reflexivity|].
  assert (Hfold :
    fold_left (scanFile rev (Host.withReadFileSync host read1)) files []
    = fold_left (scanFile rev (Host.withReadFileSync host read2)) files []).
  { apply fold_left_pointwise_in. intros acc file Hin.
    unfold scanFile. cbn [Host.withReadFileSync Host.extname
                          Host.readFileSync].
    specialize (Hsame file Hin). unfold isSupported in Hsame.
    destruct (languageForExtensionOf rev _); [|reflexivity].
    now rewrite Hsame. }
  rewrite Hfold. reflexivity.
Qed.

End CliFacts.

(** The instance of X22 on a directory that holds a script and an image:
    the run does not depend on what the image holds. *)
Lemma main_reads_supported_only_witness :
  let engine := Samples.engineOf (Samples.commentProgram "comment" []) in
  let host :=
    Host.mk (fun p => p) (fun d n => (d ++ "/" ++ n)%string)
            (fun p => if String.eqb p "src/a.ts" then ".ts" else ".png")
            (fun p => if String.eqb p "src"
                      then Some (StDir [DFile "a.ts"; DFile "b.png"])
                      else None)
            (fun _ => []) None in
  let read1 := fun _ : string => js "// Step 1: parse" in
  let read2 := fun p : string =>
    if String.eqb p "src/b.png" then [137; 80; 78; 71]
    else js "// Step 1: parse" in
  fst (collectFiles host ["src"]) = ["src/a.ts"; "src/b.png"]
  /\ @main engine src_tree (Host.withReadFileSync host read1) ["src"]
     = @main engine src_tree (Host.withReadFileSync host read2) ["src"].
Proof.
  intros engine host read1 read2. split; [reflexivity|].
  apply (@main_reads_supported_only engine src_tree host read1 read2
           ["src"]).
  intros file Hin Hs. vm_compute in Hin.
  destruct Hin as [<-|[<-|[]]]; [reflexivity|discriminate Hs].
Defined.

(* ================================================================== *)
(** * The verb of an obvious comment is followed by something *)
(* ================================================================== *)











